(** * ClientServerApp: the per-connection command handler of [server.py]

    A shallow embedding of [ServerApp.handle_client] and of the functions it
    calls ([add_vm_to_db], the four [list_*] queries), with the in-memory
    registry [connected_vms], the [VirtualMachine] objects it shares with the
    sessions, and the two tables of the durable store.

    Scope of the model.
    - Protocol lines are ASCII text: [py_isspace], [py_upper] and [py_int]
      are exact on 7-bit characters.
    - A command is handled in one step: the suspension points inside one
      handler ([await writer.drain()], [await self.add_vm_to_db(...)]) are not
      interleaved with other connections.
    - The durable store is taken by the contract of the SQL the code sends
      (insert, or overwrite on a key conflict).  A statement is refused, and
      [add_vm_to_db] raises, when a number bound to an [INTEGER] column is
      outside 32 bits; text values are accepted as they are (lines hold no
      NUL character).  A table is the list of its rows in the order a scan
      returns them; a row written by an upsert is returned last.
    - The column [last_seen] is present in every row of [virtual_machines]
      and is refreshed by every upsert, but its clock reading is not
      modelled: a [MachineRow] is the four data columns of a row, and two
      equal [MachineRow]s may differ in [last_seen]. *)

From Stdlib Require Import String Ascii List ZArith Bool Lia.
From Stdlib Require DecimalFacts DecimalNat DecimalString.
Import ListNotations.
Local Open Scope string_scope.
Local Open Scope Z_scope.

(** String comparison, the [==] of the source on [str]. *)
Infix "==" := String.eqb (at level 70, no associativity).

(** ** Python string primitives used by the handler *)

Module Py.

(** [str.isspace] on ASCII: TAB, LF, VT, FF, CR, FS, GS, RS, US and SPACE.
    This is the separator set of [str.split()] and [str.strip()]. *)
Definition py_isspace (c : ascii) : bool :=
  let n := nat_of_ascii c in
  ((9 <=? n) && (n <=? 13) || (28 <=? n) && (n <=? 32))%nat.

(** The narrower set skipped by [int(...)] around the digits. *)
Definition c_isspace (c : ascii) : bool :=
  let n := nat_of_ascii c in
  ((9 <=? n) && (n <=? 13) || (n =? 32))%nat.

Definition is_digit (c : ascii) : bool :=
  let n := nat_of_ascii c in ((48 <=? n) && (n <=? 57))%nat.

Definition digit_value (c : ascii) : Z := Z.of_nat (nat_of_ascii c) - 48.

(** [ch.upper()] on ASCII. *)
Definition upper_char (c : ascii) : ascii :=
  let n := nat_of_ascii c in
  if ((97 <=? n) && (n <=? 122))%nat then ascii_of_nat (n - 32) else c.

(** [s.upper()]. *)
Fixpoint py_upper (s : string) : string :=
  match s with
  | EmptyString => EmptyString
  | String c s' => String (upper_char c) (py_upper s')
  end.

(** [s.lstrip()] for the character class [sp]. *)
Fixpoint lstrip (sp : ascii -> bool) (s : string) : string :=
  match s with
  | EmptyString => EmptyString
  | String c s' => if sp c then lstrip sp s' else s
  end.

(** [s.rstrip()] for the character class [sp]. *)
Fixpoint rstrip (sp : ascii -> bool) (s : string) : string :=
  match s with
  | EmptyString => EmptyString
  | String c s' =>
      match rstrip sp s' with
      | EmptyString => if sp c then EmptyString else String c EmptyString
      | t => String c t
      end
  end.

(** [s.strip()]. *)
Definition py_strip (s : string) : string := rstrip py_isspace (lstrip py_isspace s).

(** [s.split()] with no argument: maximal runs of non-space characters.
    [cur] is the token being read, [None] between tokens. *)
Fixpoint split_from (s : string) (cur : option string) : list string :=
  match s with
  | EmptyString => match cur with Some w => [w] | None => [] end
  | String c s' =>
      if py_isspace c
      then match cur with
           | Some w => w :: split_from s' None
           | None => split_from s' None
           end
      else split_from s' (Some (match cur with
                                | Some w => w ++ String c EmptyString
                                | None => String c EmptyString
                                end))
  end.

Definition py_split (s : string) : list string := split_from s None.

(** [disk_str.split(':', 1)] guarded by [':' in disk_str]: the text before
    and after the first colon, [None] when there is no colon. *)
Fixpoint split_colon (s : string) : option (string * string) :=
  match s with
  | EmptyString => None
  | String c s' =>
      if Ascii.eqb c ":" then Some (EmptyString, s')
      else match split_colon s' with
           | Some (a, b) => Some (String c a, b)
           | None => None
           end
  end.

(** [sys.int_max_str_digits], the default limit of the interpreter on the
    number of digits [int] converts. *)
Definition int_max_str_digits : nat := 4300.

(** The digits of a base-10 literal: a digit, then digits each optionally
    preceded by one underscore.  [sep] says that the previous character was
    not a digit (start of the literal, or an underscore), [acc] is the value
    read so far and [n] the number of digits read. *)
Fixpoint int_digits (s : string) (sep : bool) (acc : Z) (n : nat) : option (Z * nat) :=
  match s with
  | EmptyString => if sep then None else Some (acc, n)
  | String c s' =>
      if is_digit c then int_digits s' false (10 * acc + digit_value c) (S n)
      else if Ascii.eqb c "_" then
             if sep then None else int_digits s' true acc n
      else None
  end.

(** [int(s)] for a [str] argument and base 10; [None] is [ValueError]. *)
Definition py_int (s : string) : option Z :=
  let t := rstrip c_isspace (lstrip c_isspace s) in
  let '(neg, body) :=
    match t with
    | String "-" r => (true, r)
    | String "+" r => (false, r)
    | _ => (false, t)
    end in
  match int_digits body true 0 0 with
  | Some (v, n) =>
      if (int_max_str_digits <? n)%nat then None
      else Some (if neg then - v else v)
  | None => None
  end.

End Py.
Export Py.

(** ** [commands.py]: the command vocabulary *)

Inductive Command :=
| AUTH | ADD_VM | LIST_CONNECTED | LIST_AUTHORIZED | LIST_ALL
| LOGOUT | UPDATE_VM | LIST_DISKS | EXIT.

(** [Command(s)]: lookup of a member by value; [None] is [ValueError]. *)
Definition Command_of_value (s : string) : option Command :=
  if s == "AUTH" then Some AUTH
  else if s == "ADD_VM" then Some ADD_VM
  else if s == "LIST_CONNECTED" then Some LIST_CONNECTED
  else if s == "LIST_AUTHORIZED" then Some LIST_AUTHORIZED
  else if s == "LIST_ALL" then Some LIST_ALL
  else if s == "LOGOUT" then Some LOGOUT
  else if s == "UPDATE_VM" then Some UPDATE_VM
  else if s == "LIST_DISKS" then Some LIST_DISKS
  else if s == "EXIT" then Some EXIT
  else None.

(** ** [settings.py]: the one setting the handler reads *)

Record AppSettings := { auth_password : string }.

Definition default_settings : AppSettings := {| auth_password := "secret" |}.

(** ** Data model of [server.py] *)

(** A [VirtualMachine] object.  [writer] is the stream of the connection
    that created it, named by the connection's number. *)
Record VirtualMachine := {
  vm_id : string;
  ram : Z;
  cpu : Z;
  disks : list (string * Z);
  authorized : bool;
  writer : nat
}.

(** [VirtualMachine.__init__]: [authorized] starts as [False]. *)
Definition VirtualMachine_init (id : string) (r c : Z) (ds : list (string * Z)) (w : nat)
  : VirtualMachine :=
  {| vm_id := id; ram := r; cpu := c; disks := ds; authorized := false; writer := w |}.

(** The value of [VirtualMachine.to_dict]. *)
Record VmDict := {
  d_vm_id : string;
  d_ram : Z;
  d_cpu : Z;
  d_disks : list (string * Z);
  d_authorized : bool
}.

Definition to_dict (vm : VirtualMachine) : VmDict :=
  {| d_vm_id := vm_id vm; d_ram := ram vm; d_cpu := cpu vm;
     d_disks := disks vm; d_authorized := authorized vm |}.

(** The data columns of a row of table [virtual_machines] (the column
    [last_seen] is left out, see the header) and a row of table [disks]. *)
Record MachineRow := {
  row_vm_id : string;
  row_ram : Z;
  row_cpu : Z;
  row_authorized : bool
}.

Record DiskRow := {
  disk_id : string;
  capacity : Z;
  disk_vm_id : string
}.

Record Store := {
  virtual_machines : list MachineRow;
  disks_table : list DiskRow
}.

(** A row of the join read by [list_all_disks]: [d.*] and [vm_associated]. *)
Record DiskJoinRow := {
  j_disk : DiskRow;
  vm_associated : option string
}.

(** A reference to a [VirtualMachine] object: its position in [objects]. *)
Definition ref := nat.

(** The state of the server process: the settings, the dictionary
    [connected_vms] (in insertion order, values are references), the
    [VirtualMachine] objects allocated so far, and the durable store behind
    [db_pool]. *)
Record ServerApp := {
  settings : AppSettings;
  connected_vms : list (string * ref);
  objects : list VirtualMachine;
  db : Store
}.

(** The tables right after [CREATE TABLE] on a new database. *)
Definition empty_store : Store := {| virtual_machines := []; disks_table := [] |}.

(** [ServerApp.__init__] followed by [init_db]: no connection yet, and the
    tables as an earlier run of the server left them ([store]). *)
Definition ServerApp_init (cfg : AppSettings) (store : Store) : ServerApp :=
  {| settings := cfg; connected_vms := []; objects := []; db := store |}.

(** *** Objects *)

Definition null_vm : VirtualMachine := VirtualMachine_init "" 0 0 [] 0%nat.

(** Dereference; every reference the handler holds was allocated before. *)
Definition deref (a : ServerApp) (r : ref) : VirtualMachine := nth r (objects a) null_vm.

Fixpoint update_nth {A} (n : nat) (f : A -> A) (l : list A) : list A :=
  match l, n with
  | [], _ => []
  | x :: t, O => f x :: t
  | x :: t, S m => x :: update_nth m f t
  end.

(** Attribute assignment on the object behind [r]. *)
Definition assign (r : ref) (f : VirtualMachine -> VirtualMachine) (a : ServerApp) : ServerApp :=
  {| settings := settings a; connected_vms := connected_vms a;
     objects := update_nth r f (objects a); db := db a |}.

Definition set_ram (v : Z) (vm : VirtualMachine) : VirtualMachine :=
  {| vm_id := vm_id vm; ram := v; cpu := cpu vm; disks := disks vm;
     authorized := authorized vm; writer := writer vm |}.
Definition set_cpu (v : Z) (vm : VirtualMachine) : VirtualMachine :=
  {| vm_id := vm_id vm; ram := ram vm; cpu := v; disks := disks vm;
     authorized := authorized vm; writer := writer vm |}.
Definition set_disks (v : list (string * Z)) (vm : VirtualMachine) : VirtualMachine :=
  {| vm_id := vm_id vm; ram := ram vm; cpu := cpu vm; disks := v;
     authorized := authorized vm; writer := writer vm |}.
Definition set_authorized (v : bool) (vm : VirtualMachine) : VirtualMachine :=
  {| vm_id := vm_id vm; ram := ram vm; cpu := cpu vm; disks := disks vm;
     authorized := v; writer := writer vm |}.

(** Allocation of a new object; the result is the new state and the reference. *)
Definition alloc (vm : VirtualMachine) (a : ServerApp) : ServerApp * ref :=
  ({| settings := settings a; connected_vms := connected_vms a;
      objects := objects a ++ [vm]; db := db a |}, length (objects a)).

(** *** The dictionary [connected_vms] *)

(** [d[k] = v]: an existing key keeps its place, a new key goes last. *)
Fixpoint dict_set {V} (k : string) (v : V) (d : list (string * V)) : list (string * V) :=
  match d with
  | [] => [(k, v)]
  | (k', v') :: t => if k' == k then (k, v) :: t else (k', v') :: dict_set k v t
  end.

(** [d.pop(k, None)]. *)
Fixpoint dict_pop {V} (k : string) (d : list (string * V)) : list (string * V) :=
  match d with
  | [] => []
  | (k', v') :: t => if k' == k then t else (k', v') :: dict_pop k t
  end.

(** [d.get(k)]. *)
Fixpoint dict_get {V} (k : string) (d : list (string * V)) : option V :=
  match d with
  | [] => None
  | (k', v') :: t => if k' == k then Some v' else dict_get k t
  end.

Definition with_connected (f : list (string * ref) -> list (string * ref)) (a : ServerApp)
  : ServerApp :=
  {| settings := settings a; connected_vms := f (connected_vms a);
     objects := objects a; db := db a |}.

(** *** The durable store *)

(** [INSERT INTO virtual_machines ... ON CONFLICT (vm_id) DO UPDATE SET
    ram, cpu, authorized]: the row of this [vm_id], if there is one, is
    replaced by a new version, which a scan returns after the other rows. *)
Definition upsert_machine (row : MachineRow) (t : list MachineRow) : list MachineRow :=
  (filter (fun r => negb (row_vm_id r == row_vm_id row)) t ++ [row])%list.

(** [INSERT INTO disks ... ON CONFLICT (disk_id) DO UPDATE SET capacity, vm_id]. *)
Definition upsert_disk (row : DiskRow) (t : list DiskRow) : list DiskRow :=
  (filter (fun r => negb (disk_id r == disk_id row)) t ++ [row])%list.

(** What [add_vm_to_db] writes when the database accepts every statement:
    the machine row, then one disk row per entry of [vm.disks], in order. *)
Definition add_vm_to_db_store (s : Store) (vm : VirtualMachine) : Store :=
  {| virtual_machines :=
       upsert_machine {| row_vm_id := vm_id vm; row_ram := ram vm; row_cpu := cpu vm;
                         row_authorized := authorized vm |} (virtual_machines s);
     disks_table :=
       fold_left (fun t (disk : string * Z) =>
                    let '(disk_id, capacity) := disk in
                    upsert_disk {| disk_id := disk_id; capacity := capacity;
                                   disk_vm_id := vm_id vm |} t)
                 (disks vm) (disks_table s) |}.

(** The server after a call of [add_vm_to_db] that wrote everything. *)
Definition add_vm_to_db_done (a : ServerApp) (r : ref) : ServerApp :=
  {| settings := settings a; connected_vms := connected_vms a;
     objects := objects a; db := add_vm_to_db_store (db a) (deref a r) |}.

(** The range of an [INTEGER] column.  A Python [int] outside it is refused
    when it is bound to the statement ([DataError]), before the statement is
    sent. *)
Definition int32 (z : Z) : bool := (- 2147483648 <=? z) && (z <=? 2147483647).

(** The machines [add_vm_to_db] writes in full. *)
Definition store_accepts (vm : VirtualMachine) : bool :=
  int32 (ram vm) && int32 (cpu vm) && forallb (fun d => int32 (snd d)) (disks vm).

(** The loop of [add_vm_to_db] over [vm.disks]: the table it leaves, and
    whether it reached the end; a capacity outside [int32] raises, with the
    rows before it written. *)
Fixpoint upsert_disks_exec (id : string) (ds : list (string * Z)) (t : list DiskRow)
  : list DiskRow * bool :=
  match ds with
  | [] => (t, true)
  | (disk_id, capacity) :: rest =>
      if int32 capacity
      then upsert_disks_exec id rest
             (upsert_disk {| disk_id := disk_id; capacity := capacity; disk_vm_id := id |} t)
      else (t, false)
  end.

(** [add_vm_to_db] on the store: the store it leaves, and whether it
    returned ([true]) or raised ([false]).  Each statement is applied when it
    is executed, so what was written before a refused statement stays. *)
Definition add_vm_to_db_exec (s : Store) (vm : VirtualMachine) : Store * bool :=
  if int32 (ram vm) && int32 (cpu vm)
  then
    let machines :=
      upsert_machine {| row_vm_id := vm_id vm; row_ram := ram vm; row_cpu := cpu vm;
                        row_authorized := authorized vm |} (virtual_machines s) in
    let '(t, returned) := upsert_disks_exec (vm_id vm) (disks vm) (disks_table s) in
    ({| virtual_machines := machines; disks_table := t |}, returned)
  else (s, false).

Definition with_db (s : Store) (a : ServerApp) : ServerApp :=
  {| settings := settings a; connected_vms := connected_vms a;
     objects := objects a; db := s |}.

(** [add_vm_to_db(vm)] for the object behind [r]. *)
Definition add_vm_to_db (a : ServerApp) (r : ref) : ServerApp * bool :=
  let '(s, returned) := add_vm_to_db_exec (db a) (deref a r) in
  (with_db s a, returned).

(** *** The four queries *)

Definition list_connected_vms (a : ServerApp) : list VmDict :=
  map (fun kv => to_dict (deref a (snd kv))) (connected_vms a).

Definition list_authorized_vms (a : ServerApp) : list MachineRow :=
  filter row_authorized (virtual_machines (db a)).

Definition list_all_vms (a : ServerApp) : list MachineRow :=
  virtual_machines (db a).

Definition list_all_disks (a : ServerApp) : list DiskJoinRow :=
  map (fun d =>
         {| j_disk := d;
            vm_associated :=
              match find (fun v => row_vm_id v == disk_vm_id d) (virtual_machines (db a)) with
              | Some v => Some (row_vm_id v)
              | None => None
              end |})
      (disks_table (db a)).

(** [json.dumps] of a list of [dict(row)] over [virtual_machines]: every
    row carries [last_seen], a [datetime], which [json.dumps] refuses with
    [TypeError]; only the empty list is serialised. *)
Definition json_dumps_machine_rows (rows : list MachineRow) : option (list MachineRow) :=
  match rows with
  | [] => Some []
  | _ :: _ => None
  end.

(** ** The replies of [handle_client] *)

(** One constructor per line the handler writes; the text is the one of the
    source, followed by a newline.  List replies are the single-line JSON
    array of the value they carry. *)
Inductive response :=
| UnknownCommand                 (* "Неизвестная команда" *)
| AuthMissingArgs                (* "Ошибка: недостаточно аргументов для AUTH" *)
| BadCredentials                 (* "Ошибка: неверный пароль" *)
| AlreadyAuthenticated           (* "Вы уже авторизованы" *)
| AuthOk (id : string)           (* "Успешная аутентификация для VM {vm_id}" *)
| AddNotAuthenticated            (* "Ошибка: не выполнена аутентификация. Сначала выполните AUTH" *)
| Forbidden                      (* "Ошибка: доступ запрещён. Вы можете управлять только своей виртуальной машиной." *)
| AddMissingArgs                 (* "Ошибка: недостаточно аргументов для ADD_VM" *)
| BadArgument                    (* "Ошибка: неверный формат числовых параметров" *)
| AddOk (id : string)            (* "Данные для VM {vm_id} добавлены" *)
| NotAuthenticated               (* "Ошибка: не выполнена аутентификация" *)
| UpdateMissingArgs              (* "Ошибка: недостаточно аргументов для UPDATE_VM" *)
| UpdateOk (id : string)         (* "VM {vm_id} обновлена" *)
| JsonConnected (vms : list VmDict)
| JsonMachines (rows : list MachineRow)
| JsonDisks (rows : list DiskJoinRow)
| LogoutOk (id : string).        (* "VM {vm_id} вышла" *)


(** ** One iteration of the loop of [handle_client] *)

(** What one command does: it writes one reply and the loop goes on, or an
    exception leaves the loop for the handler's [except Exception]. *)
Inductive result :=
| Replied (a : ServerApp) (current_vm : option ref) (r : response)
| Raised (a : ServerApp) (current_vm : option ref).

(** [await self.add_vm_to_db(vm)] in a handler whose local [current_vm] is
    [cur]: when the call returns the handler goes on with [k]; when it
    raises, the exception leaves the loop with what was written so far. *)
Definition after_add_vm_to_db (a : ServerApp) (r : ref) (cur : option ref)
  (k : ServerApp -> result) : result :=
  match add_vm_to_db a r with
  | (a', true) => k a'
  | (a', false) => Raised a' cur
  end.

(** The loop over the disk tokens, shared by ADD_VM and UPDATE_VM. *)
Definition parse_disks (tokens : list string) : list (string * Z) :=
  fold_left
    (fun (disks : list (string * Z)) (disk_str : string) =>
       match split_colon disk_str with
       | None => disks                                   (* ':' not in disk_str *)
       | Some (disk_id, cap_str) =>
           match py_int cap_str with
           | None => disks                               (* except ValueError: continue *)
           | Some capacity => (disks ++ [(disk_id, capacity)])%list
           end
       end)
    tokens [].

Definition handle_AUTH (a : ServerApp) (w : nat) (current_vm : option ref) (parts : list string)
  : result :=
  if (length parts <? 3)%nat then Replied a current_vm AuthMissingArgs
  else
    let vm_id := nth 1 parts "" in
    let password := nth 2 parts "" in
    if negb (password == auth_password (settings a)) then Replied a current_vm BadCredentials
    else
      match current_vm with
      | Some _ => Replied a current_vm AlreadyAuthenticated
      | None =>
          let '(a1, r) := alloc (VirtualMachine_init vm_id 0 0 [] w) a in
          let a2 := assign r (set_authorized true) a1 in
          let a3 := with_connected (dict_set vm_id r) a2 in
          after_add_vm_to_db a3 r (Some r)
            (fun a4 => Replied a4 (Some r) (AuthOk vm_id))
      end.

Definition handle_ADD_VM (a : ServerApp) (current_vm : option ref) (parts : list string)
  : result :=
  match current_vm with
  | None => Replied a current_vm AddNotAuthenticated
  | Some r =>
      match nth_error parts 1 with
      | None => Raised a current_vm                      (* parts[1]: IndexError *)
      | Some p1 =>
          if negb (p1 == vm_id (deref a r)) then Replied a current_vm Forbidden
          else if (length parts <? 4)%nat then Replied a current_vm AddMissingArgs
          else
            match py_int (nth 2 parts "") with
            | None => Replied a current_vm BadArgument
            | Some ram =>
                match py_int (nth 3 parts "") with
                | None => Replied a current_vm BadArgument
                | Some cpu =>
                    let disks := parse_disks (skipn 4 parts) in
                    let a1 := assign r (set_ram ram) a in
                    let a2 := assign r (set_cpu cpu) a1 in
                    let a3 := assign r (set_disks disks) a2 in
                    after_add_vm_to_db a3 r current_vm
                      (fun a4 => Replied a4 current_vm (AddOk (vm_id (deref a4 r))))
                end
            end
      end
  end.

Definition handle_UPDATE_VM (a : ServerApp) (current_vm : option ref) (parts : list string)
  : result :=
  match current_vm with
  | None => Replied a current_vm NotAuthenticated
  | Some r =>
      if (length parts <? 3)%nat then Replied a current_vm UpdateMissingArgs
      else
        match py_int (nth 1 parts "") with
        | None => Replied a current_vm BadArgument
        | Some ram =>
            let a1 := assign r (set_ram ram) a in        (* current_vm.ram = int(parts[1]) *)
            match py_int (nth 2 parts "") with
            | None => Replied a1 current_vm BadArgument
            | Some cpu =>
                let a2 := assign r (set_cpu cpu) a1 in
                let disks := parse_disks (skipn 3 parts) in
                let a3 := match disks with
                          | [] => a2
                          | _ :: _ => assign r (set_disks disks) a2
                          end in
                after_add_vm_to_db a3 r current_vm
                  (fun a4 => Replied a4 current_vm (UpdateOk (vm_id (deref a4 r))))
            end
        end
  end.

Definition handle_LOGOUT (a : ServerApp) (current_vm : option ref) : result :=
  match current_vm with
  | Some r =>
      let a1 := assign r (set_authorized false) a in
      after_add_vm_to_db a1 r current_vm
        (fun a2 =>
           let a3 := with_connected (dict_pop (vm_id (deref a2 r))) a2 in
           Replied a3 None (LogoutOk (vm_id (deref a2 r))))
  | None => Replied a current_vm NotAuthenticated
  end.

(** The body of the loop from [parts = message.split()] on; [w] is the
    connection's writer. *)
Definition handle_message (a : ServerApp) (w : nat) (current_vm : option ref)
  (parts : list string) : result :=
  match parts with
  | [] => Raised a current_vm                            (* parts[0]: IndexError *)
  | p0 :: _ =>
      match Command_of_value (py_upper p0) with
      | None => Replied a current_vm UnknownCommand
      | Some AUTH => handle_AUTH a w current_vm parts
      | Some ADD_VM => handle_ADD_VM a current_vm parts
      | Some UPDATE_VM => handle_UPDATE_VM a current_vm parts
      | Some LIST_CONNECTED => Replied a current_vm (JsonConnected (list_connected_vms a))
      | Some LIST_AUTHORIZED =>
          match json_dumps_machine_rows (list_authorized_vms a) with
          | Some vms => Replied a current_vm (JsonMachines vms)
          | None => Raised a current_vm
          end
      | Some LIST_ALL =>
          match json_dumps_machine_rows (list_all_vms a) with
          | Some vms => Replied a current_vm (JsonMachines vms)
          | None => Raised a current_vm
          end
      | Some LIST_DISKS => Replied a current_vm (JsonDisks (list_all_disks a))
      | Some LOGOUT => handle_LOGOUT a current_vm
      | Some EXIT => Replied a current_vm UnknownCommand
      end
  end.

(** The [finally] block: the registry entry under the bound id is dropped. *)
Definition finally_block (a : ServerApp) (current_vm : option ref) : ServerApp :=
  match current_vm with
  | Some r => with_connected (dict_pop (vm_id (deref a r))) a
  | None => a
  end.

(** ** Sessions and connections *)

(** The state of one run of [handle_client]: its local [current_vm], and
    whether the function has returned (the stream is closed). *)
Record Session := {
  current_vm : option ref;
  closed : bool
}.

Definition new_session : Session := {| current_vm := None; closed := false |}.

(** [data.decode().strip().split()]. *)
Definition tokens (data : string) : list string := py_split (py_strip data).

(** One [readline] of connection [w] and what follows it.  [data] is what
    [readline] returns; the empty string is end of input. *)
Definition session_step (a : ServerApp) (w : nat) (s : Session) (data : string)
  : ServerApp * Session * option response :=
  if closed s then (a, s, None)
  else
    match data with
    | EmptyString =>                                     (* if not data: break *)
        (finally_block a (current_vm s), {| current_vm := current_vm s; closed := true |}, None)
    | _ =>
        let message := py_strip data in
        match message with
        | EmptyString => (a, s, None)                    (* if not message: continue *)
        | _ =>
            match handle_message a w (current_vm s) (py_split message) with
            | Replied a' cur r => (a', {| current_vm := cur; closed := false |}, Some r)
            | Raised a' cur =>
                (finally_block a' cur, {| current_vm := cur; closed := true |}, None)
            end
        end
    end.

(** End of input on a connection. *)
Definition EOF : string := EmptyString.

(** The whole server: the process state and the session of each connection
    accepted so far, by connection number. *)
Record World := {
  app : ServerApp;
  sessions : list (nat * Session)
}.

Definition World_init (cfg : AppSettings) (store : Store) : World :=
  {| app := ServerApp_init cfg store; sessions := [] |}.

Fixpoint session_of (w : nat) (ss : list (nat * Session)) : Session :=
  match ss with
  | [] => new_session
  | (w', s) :: t => if (w' =? w)%nat then s else session_of w t
  end.

Fixpoint put_session (w : nat) (s : Session) (ss : list (nat * Session)) : list (nat * Session) :=
  match ss with
  | [] => [(w, s)]
  | (w', s') :: t => if (w' =? w)%nat then (w, s) :: t else (w', s') :: put_session w s t
  end.

(** Connection [w] reads [data]. *)
Definition world_step (wd : World) (ev : nat * string) : World * option response :=
  let '(w, data) := ev in
  let '(a', s', r) := session_step (app wd) w (session_of w (sessions wd)) data in
  ({| app := a'; sessions := put_session w s' (sessions wd) |}, r).

(** A schedule of reads, in the order the event loop serves them; the
    replies are collected with the connection they were written to. *)
Fixpoint run (wd : World) (evs : list (nat * string)) : World * list (nat * response) :=
  match evs with
  | [] => (wd, [])
  | ev :: rest =>
      let '(wd1, r) := world_step wd ev in
      let '(wd2, out) := run wd1 rest in
      (wd2, match r with Some x => (fst ev, x) :: out | None => out end)
  end.

(** The state a schedule leads to. *)
Definition run_world (wd : World) (evs : list (nat * string)) : World := fst (run wd evs).

(** ** Well-formed states *)

(** [connected_vms] is a dictionary (no key twice), and each entry is filed
    under the [vm_id] of the object it refers to. *)
Definition registry_ok (a : ServerApp) : Prop :=
  NoDup (map fst (connected_vms a)) /\
  forall k r, In (k, r) (connected_vms a) ->
              (r < length (objects a))%nat /\ vm_id (deref a r) = k.

(** A reference held by a session points to an allocated object. *)
Definition valid_ref (a : ServerApp) (r : ref) : Prop := (r < length (objects a))%nat.

(** [vm_id] is the primary key of [virtual_machines]. *)
Definition store_ok (s : Store) : Prop := NoDup (map row_vm_id (virtual_machines s)).

Definition app_ok (a : ServerApp) : Prop := registry_ok a /\ store_ok (db a).

Definition world_ok (wd : World) : Prop :=
  app_ok (app wd) /\
  forall c s r, In (c, s) (sessions wd) -> current_vm s = Some r -> valid_ref (app wd) r.

(** The process state and the local [current_vm] a command leaves behind. *)
Definition result_app (res : result) : ServerApp :=
  match res with Replied a _ _ | Raised a _ => a end.

Definition result_current_vm (res : result) : option ref :=
  match res with Replied _ cur _ | Raised _ cur => cur end.

(** ** Disk tokens, in the words of the specification *)

Fixpoint no_colon (s : string) : bool :=
  match s with
  | EmptyString => true
  | String c s' => negb (Ascii.eqb c ":") && no_colon s'
  end.

(** A well-formed disk token is [id:capacity]: an identifier, the
    separator (the first colon of the token), and a capacity that is an
    integer literal. *)
Inductive well_formed_disk : string -> string * Z -> Prop :=
| wf_disk (id cap_str : string) (cap : Z) :
    no_colon id = true ->
    py_int cap_str = Some cap ->
    well_formed_disk (id ++ ":" ++ cap_str) (id, cap).


(** ** States used in the examples *)

(** The server after connection 1 sent [AUTH vm1 secret] to a new server
    with the default settings and empty tables. *)
Definition app_vm1 : ServerApp :=
  result_app (handle_message (ServerApp_init default_settings empty_store) 1%nat None
                             ["AUTH"; "vm1"; "secret"]).

(** The session of connection 1 in [app_vm1]: bound to object 0. *)
Definition session_vm1 : Session := {| current_vm := Some 0%nat; closed := false |}.

(** What one round of the loop of [parse_disks] contributes. *)
Definition disk_of_token (disk_str : string) : list (string * Z) :=
  match split_colon disk_str with
  | None => []
  | Some (disk_id, cap_str) =>
      match py_int cap_str with
      | None => []
      | Some capacity => [(disk_id, capacity)]
      end
  end.

(** ** Lines and tokens *)

(** Every character of [s] satisfies [p]. *)
Fixpoint all_chars (p : ascii -> bool) (s : string) : bool :=
  match s with
  | EmptyString => true
  | String c s' => p c && all_chars p s'
  end.

(** A string [split()] returns as one token: not empty, no white space. *)
Definition is_token (t : string) : bool :=
  match t with
  | EmptyString => false
  | _ => all_chars (fun c => negb (py_isspace c)) t
  end.

(** [" ".join(parts)]. *)
Fixpoint unwords (parts : list string) : string :=
  match parts with
  | [] => EmptyString
  | [p] => p
  | p :: rest => p ++ " " ++ unwords rest
  end.

(** [client.py]: [(cmd + "\n")], the line the client writes for [cmd]. *)
Definition client_line (cmd : string) : string := cmd ++ String "010" EmptyString.

(** ** Keys of the store *)

(** [disk_id] is the primary key of [disks]. *)
Definition disks_pk (s : Store) : Prop := NoDup (map disk_id (disks_table s)).

(** [disks.vm_id REFERENCES virtual_machines(vm_id)]. *)
Definition store_fk (s : Store) : Prop :=
  forall d, In d (disks_table s) -> In (disk_vm_id d) (map row_vm_id (virtual_machines s)).


(** The loop of [add_vm_to_db] over [vm.disks], for the machine [id]. *)
Definition upsert_disks (id : string) (ds : list (string * Z)) (t : list DiskRow) : list DiskRow :=
  fold_left (fun t (disk : string * Z) =>
               let '(disk_id, capacity) := disk in
               upsert_disk {| disk_id := disk_id; capacity := capacity; disk_vm_id := id |} t)
            ds t.

(** ** [client.py]: the companion client *)

(** [str(n)] for an [int] [n >= 0], as the f-strings of the client print it. *)
Definition py_str (n : nat) : string := DecimalString.NilEmpty.string_of_uint (Nat.to_uint n).

(** [str(member)] of the [StrEnum] [Command]: the member's value. *)
Definition Command_value (c : Command) : string :=
  match c with
  | AUTH => "AUTH"
  | ADD_VM => "ADD_VM"
  | LIST_CONNECTED => "LIST_CONNECTED"
  | LIST_AUTHORIZED => "LIST_AUTHORIZED"
  | LIST_ALL => "LIST_ALL"
  | LOGOUT => "LOGOUT"
  | UPDATE_VM => "UPDATE_VM"
  | LIST_DISKS => "LIST_DISKS"
  | EXIT => "EXIT"
  end.

(** [command_templates] of [auto_tcp_client], for the two random draws:
    [rand_int_client] and [coin], the value of [randint(0, 1)]. *)
Definition command_templates (cfg : AppSettings) (rand_int_client coin : nat) : list string :=
  let n := py_str rand_int_client in
  let templates :=
    [Command_value ADD_VM ++ " vm" ++ n ++ " 2048 2 disk1_" ++ n ++ ":100 disk2:200";
     Command_value UPDATE_VM ++ " 4096 4 disk1_" ++ n ++ ":150 disk3:300";
     Command_value LIST_DISKS;
     Command_value LOGOUT] in
  if (coin =? 1)%nat
  then (Command_value AUTH ++ " vm" ++ n ++ " " ++ auth_password cfg) :: templates
  else templates.

(** The loop of [auto_tcp_client] against the handler of connection [w]:
    each command is written as a line and one reply is read; a read that
    returns nothing ends the loop.  The result is the server afterwards and
    the replies the client printed. *)
Fixpoint client_loop (a : ServerApp) (w : nat) (s : Session) (cmds : list string)
  : ServerApp * Session * list response :=
  match cmds with
  | [] => (a, s, [])
  | cmd :: rest =>
      match session_step a w s (client_line cmd) with
      | (a', s', Some r) =>
          let '(a2, s2, rs) := client_loop a' w s' rest in (a2, s2, r :: rs)
      | (a', s', None) => (a', s', [])
      end
  end.

(** One run of [auto_tcp_client] on a new connection [w]: the loop, then
    [writer.close()], which the handler reads as end of input. *)
Definition auto_tcp_client (a : ServerApp) (w : nat) (rand_int_client coin : nat)
  : ServerApp * Session * list response :=
  let '(a1, s1, rs) :=
    client_loop a w new_session (command_templates (settings a) rand_int_client coin) in
  let '(a2, s2, _) := session_step a1 w s1 EOF in
  (a2, s2, rs).

(** ** Frames *)

(** What a command of a session holding [cur] keeps of an object [k]
    allocated before: the object stays, with its id and writer, and it is
    untouched unless it is the session's own. *)
Definition kept (cur : option ref) (k : ref) (a a' : ServerApp) : Prop :=
  valid_ref a' k /\
  vm_id (deref a' k) = vm_id (deref a k) /\
  writer (deref a' k) = writer (deref a k) /\
  (cur <> Some k -> deref a' k = deref a k).

(** ** The machine a command stores *)

(** [reaches_store a r c rest vm]: the command [c] with the arguments
    [rest], on a session bound to [r], passes its checks and calls
    [add_vm_to_db] with the bound machine in the state [vm]. *)
Inductive reaches_store (a : ServerApp) (r : ref)
  : Command -> list string -> VirtualMachine -> Prop :=
| reaches_ADD_VM id ram_str cpu_str disk_strs ram cpu :
    id = vm_id (deref a r) ->
    py_int ram_str = Some ram -> py_int cpu_str = Some cpu ->
    reaches_store a r ADD_VM (id :: ram_str :: cpu_str :: disk_strs)
      (set_disks (parse_disks disk_strs) (set_cpu cpu (set_ram ram (deref a r))))
| reaches_UPDATE_VM ram_str cpu_str disk_strs ram cpu :
    py_int ram_str = Some ram -> py_int cpu_str = Some cpu ->
    reaches_store a r UPDATE_VM (ram_str :: cpu_str :: disk_strs)
      (match parse_disks disk_strs with
       | [] => set_cpu cpu (set_ram ram (deref a r))
       | ds => set_disks ds (set_cpu cpu (set_ram ram (deref a r)))
       end)
| reaches_LOGOUT rest :
    reaches_store a r LOGOUT rest (set_authorized false (deref a r)).

(** * Properties *)

(** ** The primitives on examples *)

Example py_int_decimal : py_int "2048" = Some 2048. Proof. reflexivity. Qed.
Example py_int_underscore : py_int "-1_000" = Some (-1000). Proof. reflexivity. Qed.
Example py_int_letters : py_int "12a" = None. Proof. reflexivity. Qed.
Example py_int_empty : py_int "" = None. Proof. reflexivity. Qed.
Example py_int_leading_underscore : py_int "_1" = None. Proof. reflexivity. Qed.
Example py_int_double_underscore : py_int "1__0" = None. Proof. reflexivity. Qed.
Example py_int_leading_zeros : py_int "+007" = Some 7. Proof. reflexivity. Qed.
Example tokens_add_vm :
  tokens "ADD_VM  vm1 2048	2 d1:100
" = ["ADD_VM"; "vm1"; "2048"; "2"; "d1:100"].
Proof. reflexivity. Qed.
Example tokens_blank : tokens "
" = []. Proof. reflexivity. Qed.
Example split_colon_first : split_colon "d1:10:20" = Some ("d1", "10:20").
Proof. reflexivity. Qed.
Example parse_disks_mixed :
  parse_disks ["d1:100"; "bad"; "d2:x"; ":5"; "d3:7"; "d4:1:2"] = [("d1", 100); ("", 5); ("d3", 7)].
Proof. reflexivity. Qed.

(** ** Objects and attribute assignment *)

Section Objects.

Lemma update_nth_length {A} (f : A -> A) (l : list A) (n : nat) :
  length (update_nth n f l) = length l.
Proof.
  revert n; induction l as [|x t IH]; intros [|n]; simpl; auto.
Qed.

Lemma nth_update_nth_same {A} (f : A -> A) (d : A) (l : list A) (n : nat) :
  (n < length l)%nat -> nth n (update_nth n f l) d = f (nth n l d).
Proof.
  revert n; induction l as [|x t IH]; intros [|n] H; simpl in *; try lia; auto.
  apply IH; lia.
Qed.

Lemma nth_update_nth_other {A} (f : A -> A) (d : A) (l : list A) (n k : nat) :
  k <> n -> nth k (update_nth n f l) d = nth k l d.
Proof.
  revert n k; induction l as [|x t IH]; intros [|n] [|k] H; simpl in *;
    try reflexivity; try congruence.
  apply IH; congruence.
Qed.

Lemma deref_assign_same a r f :
  valid_ref a r -> deref (assign r f a) r = f (deref a r).
Proof. intros H. apply nth_update_nth_same, H. Qed.

Lemma deref_assign_other a r k f :
  k <> r -> deref (assign r f a) k = deref a k.
Proof. intros H. apply nth_update_nth_other, H. Qed.

Lemma valid_ref_assign a r k f : valid_ref a k <-> valid_ref (assign r f a) k.
Proof. unfold valid_ref, assign; simpl. now rewrite update_nth_length. Qed.

(** An assignment that keeps [vm_id] keeps every object's [vm_id]. *)
Lemma vm_id_assign a r k f :
  (forall vm, vm_id (f vm) = vm_id vm) ->
  vm_id (deref (assign r f a) k) = vm_id (deref a k).
Proof.
  intros Hf. destruct (Nat.eq_dec k r) as [->|Hne].
  - unfold deref, assign; simpl.
    destruct (Nat.lt_ge_cases r (length (objects a))) as [Hlt|Hge].
    + now rewrite nth_update_nth_same, Hf.
    + rewrite !nth_overflow; auto. now rewrite update_nth_length.
  - now rewrite deref_assign_other.
Qed.

Lemma deref_add_vm_to_db a r k : deref (add_vm_to_db_done a r) k = deref a k.
Proof. reflexivity. Qed.

Lemma deref_with_connected a f k : deref (with_connected f a) k = deref a k.
Proof. reflexivity. Qed.

Lemma deref_alloc_old a vm k :
  valid_ref a k -> deref (fst (alloc vm a)) k = deref a k.
Proof. intros H. unfold deref; simpl. now rewrite app_nth1. Qed.

Lemma deref_alloc_new a vm : deref (fst (alloc vm a)) (snd (alloc vm a)) = vm.
Proof. unfold deref; simpl. rewrite app_nth2, Nat.sub_diag; auto. Qed.

End Objects.

(** ** The dictionary *)

Section Dict.

Context {V : Type}.
Implicit Types (d : list (string * V)) (k : string) (v : V).

Lemma dict_get_set_same k v d : dict_get k (dict_set k v d) = Some v.
Proof.
  induction d as [|[k' v'] t IH]; simpl.
  - now rewrite String.eqb_refl.
  - destruct (k' == k) eqn:E; simpl.
    + now rewrite String.eqb_refl.
    + now rewrite E.
Qed.

Lemma dict_get_set_other k k' v d :
  k' <> k -> dict_get k' (dict_set k v d) = dict_get k' d.
Proof.
  intros Hne. induction d as [|[k0 v0] t IH]; simpl.
  - apply String.eqb_neq in Hne. rewrite String.eqb_sym. now rewrite Hne.
  - destruct (k0 == k) eqn:E; simpl.
    + apply String.eqb_eq in E; subst k0.
      assert (H : (k == k') = false) by (apply String.eqb_neq; congruence).
      now rewrite H.
    + now rewrite IH.
Qed.

Lemma in_dict_set k v d k' v' :
  In (k', v') (dict_set k v d) -> (k', v') = (k, v) \/ In (k', v') d.
Proof.
  induction d as [|[k0 v0] t IH]; simpl.
  - intros [H|[]]; auto.
  - destruct (k0 == k); simpl; intros [H|H]; auto.
    destruct (IH H); auto.
Qed.

Lemma in_keys_dict_set k v d k' :
  In k' (map fst (dict_set k v d)) <-> k' = k \/ In k' (map fst d).
Proof.
  induction d as [|[k0 v0] t IH]; simpl.
  - intuition.
  - destruct (k0 == k) eqn:E; simpl.
    + apply String.eqb_eq in E; subst k0. intuition.
    + rewrite IH. intuition.
Qed.

Lemma NoDup_keys_dict_set k v d :
  NoDup (map fst d) -> NoDup (map fst (dict_set k v d)).
Proof.
  induction d as [|[k0 v0] t IH]; simpl; intros H.
  - constructor; [intros []|constructor].
  - inversion H as [|? ? Hnin Hnd]; subst.
    destruct (k0 == k) eqn:E; simpl.
    + apply String.eqb_eq in E; subst k0. now constructor.
    + constructor; auto.
      rewrite in_keys_dict_set. intros [->|Hin]; auto.
      now rewrite String.eqb_refl in E.
Qed.

Lemma in_dict_pop k d k' v' :
  In (k', v') (dict_pop k d) -> In (k', v') d.
Proof.
  induction d as [|[k0 v0] t IH]; simpl; auto.
  destruct (k0 == k); simpl; intuition.
Qed.

Lemma in_keys_dict_pop k d k' :
  In k' (map fst (dict_pop k d)) -> In k' (map fst d).
Proof.
  induction d as [|[k0 v0] t IH]; simpl; auto.
  destruct (k0 == k); simpl; intuition.
Qed.

Lemma NoDup_keys_dict_pop k d :
  NoDup (map fst d) -> NoDup (map fst (dict_pop k d)).
Proof.
  induction d as [|[k0 v0] t IH]; simpl; intros H; auto.
  inversion H as [|? ? Hnin Hnd]; subst.
  destruct (k0 == k); simpl; auto.
  constructor; auto. intros Hin. apply Hnin. eapply in_keys_dict_pop; eauto.
Qed.

(** After [pop], the key is gone (the keys of a dictionary are distinct). *)
Lemma not_in_keys_dict_pop k d :
  NoDup (map fst d) -> ~ In k (map fst (dict_pop k d)).
Proof.
  induction d as [|[k0 v0] t IH]; simpl; intros H; auto.
  inversion H as [|? ? Hnin Hnd]; subst.
  destruct (k0 == k) eqn:E; simpl.
  - apply String.eqb_eq in E; now subst k0.
  - intros [->|Hin]; [now rewrite String.eqb_refl in E | now apply IH].
Qed.

Lemma dict_get_none k d : ~ In k (map fst d) <-> dict_get k d = None.
Proof.
  induction d as [|[k0 v0] t IH]; simpl; [intuition|].
  destruct (k0 == k) eqn:E.
  - apply String.eqb_eq in E; subst k0. split; [intuition|discriminate].
  - apply String.eqb_neq in E. rewrite <- IH. intuition.
Qed.

Lemma dict_get_in k v d : dict_get k d = Some v -> In (k, v) d.
Proof.
  induction d as [|[k0 v0] t IH]; simpl; [discriminate|].
  destruct (k0 == k) eqn:E.
  - apply String.eqb_eq in E; subst k0. intros [= ->]; auto.
  - auto.
Qed.

End Dict.

(** *** Replacing the row of a key *)

Section Replace.

Context {R : Type} (key : R -> string).
Implicit Types (row : R) (t : list R).

Lemma in_replace row t x :
  In x (filter (fun r => negb (key r == key row)) t ++ [row]) -> x = row \/ In x t.
Proof.
  rewrite in_app_iff, filter_In. simpl. intuition.
Qed.

Lemma in_keys_replace row t k :
  In k (map key (filter (fun r => negb (key r == key row)) t ++ [row])) <->
  k = key row \/ In k (map key t).
Proof.
  rewrite map_app, in_app_iff. simpl. split.
  - intros [H|[H|[]]]; auto.
    apply in_map_iff in H as (x & <- & Hx). apply filter_In in Hx as [Hx _].
    right. now apply in_map.
  - intros [->|H]; auto.
    destruct (string_dec k (key row)) as [->|Hne]; auto.
    left. apply in_map_iff in H as (x & <- & Hx). apply in_map, filter_In.
    split; [exact Hx|]. apply negb_true_iff. now apply String.eqb_neq.
Qed.

Lemma NoDup_keys_replace row t :
  NoDup (map key t) ->
  NoDup (map key (filter (fun r => negb (key r == key row)) t ++ [row])).
Proof.
  induction t as [|r0 t IH]; simpl; intros H.
  - constructor; [intros []|constructor].
  - inversion H as [|? ? Hnin Hnd]; subst.
    destruct (key r0 == key row) eqn:E; simpl; [now apply IH|].
    constructor; [|now apply IH].
    rewrite in_keys_replace. intros [Heq|Hin]; [|contradiction].
    rewrite Heq, String.eqb_refl in E. discriminate.
Qed.

Lemma find_replace_same row t :
  find (fun r => key r == key row) (filter (fun r => negb (key r == key row)) t ++ [row])
  = Some row.
Proof.
  induction t as [|r0 t IH]; simpl.
  - now rewrite String.eqb_refl.
  - destruct (key r0 == key row) eqn:E; simpl; [exact IH|]. now rewrite E.
Qed.

Lemma find_replace_other row t k :
  k <> key row ->
  find (fun r => key r == k) (filter (fun r => negb (key r == key row)) t ++ [row])
  = find (fun r => key r == k) t.
Proof.
  intros Hne. induction t as [|r0 t IH]; simpl.
  - apply not_eq_sym, String.eqb_neq in Hne. now rewrite Hne.
  - destruct (key r0 == key row) eqn:E; simpl.
    + apply String.eqb_eq in E.
      assert (H : (key r0 == k) = false) by (apply String.eqb_neq; congruence).
      now rewrite H.
    + destruct (key r0 == k); [reflexivity | exact IH].
Qed.

Lemma replace_idem row t :
  (filter (fun r => negb (key r == key row))
          (filter (fun r => negb (key r == key row)) t ++ [row]) ++ [row])%list
  = (filter (fun r => negb (key r == key row)) t ++ [row])%list.
Proof.
  f_equal. rewrite filter_app. simpl. rewrite String.eqb_refl. simpl.
  rewrite app_nil_r. induction t as [|r0 t IH]; simpl; [reflexivity|].
  destruct (negb (key r0 == key row)) eqn:E; simpl; [now rewrite E, IH | exact IH].
Qed.

End Replace.

(** ** The durable store *)

Section StoreFacts.

Lemma find_upsert_machine row t :
  find (fun v => row_vm_id v == row_vm_id row) (upsert_machine row t) = Some row.
Proof.
  unfold upsert_machine. induction t as [|r t IH]; simpl.
  - now rewrite String.eqb_refl.
  - destruct (row_vm_id r == row_vm_id row) eqn:E; simpl; [exact IH|].
    now rewrite E.
Qed.

Lemma in_upsert_machine row t : In row (upsert_machine row t).
Proof. unfold upsert_machine. apply in_or_app. right. now left. Qed.

(** A row of another machine is neither added nor removed nor changed. *)
Lemma in_upsert_machine_other row t r :
  row_vm_id r <> row_vm_id row -> (In r (upsert_machine row t) <-> In r t).
Proof.
  intros Hne. unfold upsert_machine. rewrite in_app_iff, filter_In. simpl.
  apply String.eqb_neq in Hne. rewrite Hne. simpl. split.
  - intros [[H _]|[H|[]]]; [exact H|]. subst r. now rewrite String.eqb_refl in Hne.
  - intros H. left. now split.
Qed.

Lemma virtual_machines_add_vm_to_db a r :
  virtual_machines (db (add_vm_to_db_done a r)) =
  upsert_machine {| row_vm_id := vm_id (deref a r); row_ram := ram (deref a r);
                    row_cpu := cpu (deref a r); row_authorized := authorized (deref a r) |}
                 (virtual_machines (db a)).
Proof. reflexivity. Qed.

(** *** When the store refuses *)

Lemma upsert_disks_exec_all id ds t :
  forallb (fun d => int32 (snd d)) ds = true ->
  upsert_disks_exec id ds t =
  (fold_left (fun t (disk : string * Z) =>
                let '(disk_id, capacity) := disk in
                upsert_disk {| disk_id := disk_id; capacity := capacity; disk_vm_id := id |} t)
             ds t, true).
Proof.
  revert t. induction ds as [|[d c] ds IH]; intros t H; simpl in *; [reflexivity|].
  apply andb_prop in H as [Hc Hds]. rewrite Hc. now apply IH.
Qed.

(** A loop that raises has written the rows of a prefix of the list. *)
Lemma upsert_disks_exec_raised id ds t :
  forallb (fun d => int32 (snd d)) ds = false ->
  exists ds',
    upsert_disks_exec id ds t =
    (fold_left (fun t (disk : string * Z) =>
                  let '(disk_id, capacity) := disk in
                  upsert_disk {| disk_id := disk_id; capacity := capacity; disk_vm_id := id |} t)
               ds' t, false).
Proof.
  revert t. induction ds as [|[d c] ds IH]; intros t H; simpl in *; [discriminate|].
  destruct (int32 c) eqn:Hc; simpl in H.
  - destruct (IH (upsert_disk {| disk_id := d; capacity := c; disk_vm_id := id |} t) H)
      as (ds' & E).
    exists ((d, c) :: ds'). simpl. exact E.
  - exists []. reflexivity.
Qed.

Lemma add_vm_to_db_exec_accepted s vm :
  store_accepts vm = true -> add_vm_to_db_exec s vm = (add_vm_to_db_store s vm, true).
Proof.
  unfold store_accepts, add_vm_to_db_exec, add_vm_to_db_store. intros H.
  apply andb_prop in H as [H1 H2]. rewrite H1.
  now rewrite (upsert_disks_exec_all _ _ _ H2).
Qed.

(** A refused call leaves the store as it was, or as a full write of the
    machine with a prefix of its disks leaves it. *)
Lemma add_vm_to_db_exec_refused s vm :
  store_accepts vm = false ->
  exists s',
    add_vm_to_db_exec s vm = (s', false) /\
    (s' = s \/ exists vm', vm_id vm' = vm_id vm /\ s' = add_vm_to_db_store s vm').
Proof.
  unfold store_accepts, add_vm_to_db_exec. intros H.
  destruct (int32 (ram vm) && int32 (cpu vm)) eqn:E; simpl in H.
  - destruct (upsert_disks_exec_raised (vm_id vm) (disks vm) (disks_table s) H) as (ds' & ->).
    eexists. split; [reflexivity|]. right.
    exists (set_disks ds' vm). split; reflexivity.
  - exists s. auto.
Qed.

Lemma add_vm_to_db_accepted a r :
  store_accepts (deref a r) = true -> add_vm_to_db a r = (add_vm_to_db_done a r, true).
Proof.
  intros H. unfold add_vm_to_db. now rewrite (add_vm_to_db_exec_accepted _ _ H).
Qed.

(** The two ways [await self.add_vm_to_db(vm)] ends in a handler. *)
Lemma after_add_vm_to_db_cases a r cur k :
  (store_accepts (deref a r) = true /\
   after_add_vm_to_db a r cur k = k (add_vm_to_db_done a r)) \/
  (store_accepts (deref a r) = false /\
   exists s',
     after_add_vm_to_db a r cur k = Raised (with_db s' a) cur /\
     (s' = db a \/
      exists vm', vm_id vm' = vm_id (deref a r) /\ s' = add_vm_to_db_store (db a) vm')).
Proof.
  unfold after_add_vm_to_db. destruct (store_accepts (deref a r)) eqn:E.
  - left. split; [reflexivity|]. now rewrite (add_vm_to_db_accepted a r E).
  - right. split; [reflexivity|].
    destruct (add_vm_to_db_exec_refused (db a) (deref a r) E) as (s' & Hs & Hcase).
    exists s'. split; [|exact Hcase]. unfold add_vm_to_db. now rewrite Hs.
Qed.

Lemma after_add_vm_to_db_accepted a r cur k :
  store_accepts (deref a r) = true ->
  after_add_vm_to_db a r cur k = k (add_vm_to_db_done a r).
Proof.
  intros H. destruct (after_add_vm_to_db_cases a r cur k) as [[_ E]|[E _]]; [exact E|].
  congruence.
Qed.

End StoreFacts.

(** ** Disk tokens *)

Section DiskTokens.

Lemma split_colon_some s a b :
  split_colon s = Some (a, b) <-> s = a ++ ":" ++ b /\ no_colon a = true.
Proof.
  revert a. induction s as [|c s IH]; intros a; simpl.
  - split; [discriminate|]. intros [H _]. destruct a; discriminate.
  - destruct (Ascii.eqb c ":") eqn:E.
    + apply Ascii.eqb_eq in E; subst c. split.
      * intros [= <- <-]. auto.
      * intros [H Hn]. destruct a as [|c' a']; simpl in *.
        -- now inversion H.
        -- inversion H; subst c'. discriminate.
    + split.
      * destruct (split_colon s) as [[a0 b0]|] eqn:Es; [|discriminate].
        intros [= <- <-]. destruct (proj1 (IH a0) eq_refl) as [-> Hn].
        simpl. now rewrite E.
      * intros [H Hn]. destruct a as [|c' a']; simpl in *.
        -- inversion H; subst c. discriminate.
        -- injection H as -> Hs. apply andb_prop in Hn as [_ Hn].
           now rewrite (proj2 (IH a') (conj Hs Hn)).
Qed.

Lemma well_formed_disk_iff tok d : well_formed_disk tok d <-> disk_of_token tok = [d].
Proof.
  unfold disk_of_token. split.
  - intros [id cs cap Hn Hi].
    rewrite (proj2 (split_colon_some _ id cs) (conj eq_refl Hn)), Hi. reflexivity.
  - destruct (split_colon tok) as [[id cs]|] eqn:Es; [|discriminate].
    destruct (py_int cs) as [cap|] eqn:Ei; [|discriminate].
    intros [= <-]. apply split_colon_some in Es as [-> Hn]. now constructor.
Qed.


Lemma parse_disks_from tokens acc :
  fold_left
    (fun (disks : list (string * Z)) (disk_str : string) =>
       match split_colon disk_str with
       | None => disks
       | Some (disk_id, cap_str) =>
           match py_int cap_str with
           | None => disks
           | Some capacity => (disks ++ [(disk_id, capacity)])%list
           end
       end) tokens acc
  = (acc ++ flat_map disk_of_token tokens)%list.
Proof.
  revert acc. induction tokens as [|tok toks IH]; intros acc; simpl.
  - now rewrite app_nil_r.
  - rewrite IH. unfold disk_of_token.
    destruct (split_colon tok) as [[id cs]|]; [|reflexivity].
    destruct (py_int cs); [|reflexivity].
    now rewrite <- app_assoc.
Qed.

(** The accumulating loop is the concatenation of the rounds. *)
Lemma parse_disks_flat_map tokens : parse_disks tokens = flat_map disk_of_token tokens.
Proof. unfold parse_disks. now rewrite parse_disks_from. Qed.

Lemma parse_disks_cons tok toks :
  parse_disks (tok :: toks) = (disk_of_token tok ++ parse_disks toks)%list.
Proof. now rewrite !parse_disks_flat_map. Qed.



End DiskTokens.

(** ** From lines to commands *)

Section Lines.

Lemma tokens_EOF : tokens EOF = [].
Proof. reflexivity. Qed.

(** A line with at least one token is a command: it is handed to
    [handle_message], and the session ends only if that raises. *)
Lemma session_step_tokens a w s data p0 rest :
  closed s = false -> tokens data = p0 :: rest ->
  session_step a w s data =
  match handle_message a w (current_vm s) (p0 :: rest) with
  | Replied a' cur r => (a', {| current_vm := cur; closed := false |}, Some r)
  | Raised a' cur => (finally_block a' cur, {| current_vm := cur; closed := true |}, None)
  end.
Proof.
  intros Hc Ht. unfold session_step. rewrite Hc.
  destruct data as [|c data]; [discriminate|].
  unfold tokens in Ht.
  destruct (py_strip (String c data)) eqn:Es; [discriminate|].
  now rewrite Ht.
Qed.

Lemma session_eta s cur :
  closed s = false -> current_vm s = cur -> {| current_vm := cur; closed := false |} = s.
Proof. destruct s; simpl; intros -> ->; reflexivity. Qed.

(** End of input: only the [finally] block runs. *)
Lemma session_step_EOF a w s :
  closed s = false ->
  session_step a w s EOF =
  (finally_block a (current_vm s), {| current_vm := current_vm s; closed := true |}, None).
Proof. intros Hc. unfold session_step. now rewrite Hc. Qed.

End Lines.

(** Splits the goal on whether the store accepts what the handler upserts:
    in the first case the handler goes on, in the second it has raised. *)
Ltac store_cases :=
  match goal with
  | |- context [after_add_vm_to_db ?a ?r ?c ?k] =>
      let Hacc := fresh "Hacc" in
      let Hk := fresh "Hk" in
      let s' := fresh "s'" in
      let Hs' := fresh "Hs'" in
      destruct (after_add_vm_to_db_cases a r c k) as [[Hacc Hk]|[Hacc (s' & Hk & Hs')]];
      rewrite Hk; clear Hk; cbv beta
  end.

(** Rewrites the dispatch of [handle_message] with the command in [H]. *)
Ltac dispatch H := unfold handle_message; rewrite H.

(** Reduces a step on a tokenised line to [handle_message]. *)
Ltac by_tokens Hc Ht Hcmd :=
  rewrite (session_step_tokens _ _ _ _ _ _ Hc Ht); dispatch Hcmd.

(** ** ADD_VM: ownership and argument count *)

Example app_vm1_state :
  app_vm1 =
  {| settings := default_settings;
     connected_vms := [("vm1", 0%nat)];
     objects := [{| vm_id := "vm1"; ram := 0; cpu := 0; disks := [];
                    authorized := true; writer := 1 |}];
     db := {| virtual_machines := [{| row_vm_id := "vm1"; row_ram := 0; row_cpu := 0;
                                      row_authorized := true |}];
              disks_table := [] |} |}.
Proof. reflexivity. Qed.

(** C10. On a session bound to a machine, an ADD_VM line whose second token
    is not the bound machine's id is answered with the forbidden line, and
    process state and session are unchanged, whatever follows the second
    token: the ownership check comes before the count of the tokens, so this
    also holds for lines of two or three tokens. *)
Theorem add_vm_forbidden_before_count a w s r data p0 p1 rest :
  closed s = false -> current_vm s = Some r ->
  tokens data = p0 :: p1 :: rest ->
  Command_of_value (py_upper p0) = Some ADD_VM ->
  p1 <> vm_id (deref a r) ->
  session_step a w s data = (a, s, Some Forbidden).
Proof.
  intros Hc Hcur Ht Hcmd Hne.
  by_tokens Hc Ht Hcmd. unfold handle_ADD_VM. rewrite Hcur. simpl.
  apply String.eqb_neq in Hne. rewrite Hne. simpl.
  now rewrite (session_eta s (Some r)).
Qed.

Lemma add_vm_forbidden_before_count_witness :
  session_step app_vm1 1 session_vm1 "ADD_VM vm2 7
" = (app_vm1, session_vm1, Some Forbidden).
Proof.
  apply (add_vm_forbidden_before_count app_vm1 1%nat session_vm1 0%nat _ "ADD_VM" "vm2" ["7"]);
    try reflexivity.
  vm_compute. discriminate.
Defined.

(** C3 (amended). On a session bound to a machine, an ADD_VM line of two
    or three tokens whose second token is the bound machine's id is answered
    with the one missing-arguments line; process state and session are
    unchanged and the session stays open. *)
Theorem add_vm_missing_args a w s r data p0 p1 rest :
  closed s = false -> current_vm s = Some r ->
  tokens data = p0 :: p1 :: rest ->
  Command_of_value (py_upper p0) = Some ADD_VM ->
  p1 = vm_id (deref a r) ->
  (length (p0 :: p1 :: rest) < 4)%nat ->
  session_step a w s data = (a, s, Some AddMissingArgs).
Proof.
  intros Hc Hcur Ht Hcmd -> Hlen.
  by_tokens Hc Ht Hcmd. unfold handle_ADD_VM. rewrite Hcur. simpl nth_error. cbv iota.
  rewrite String.eqb_refl. simpl negb. cbv iota.
  apply Nat.ltb_lt in Hlen. rewrite Hlen.
  now rewrite (session_eta s (Some r)).
Qed.

Lemma add_vm_missing_args_witness :
  session_step app_vm1 1 session_vm1 "ADD_VM vm1 2048
" = (app_vm1, session_vm1, Some AddMissingArgs).
Proof.
  apply (add_vm_missing_args app_vm1 1%nat session_vm1 0%nat _ "ADD_VM" "vm1" ["2048"]);
    try reflexivity.
  simpl. lia.
Defined.

(** C3, as stated, fails: an ADD_VM line of two tokens naming another
    machine is answered with the forbidden line, not the missing-arguments
    line. *)
Lemma add_vm_short_not_missing_args :
  tokens "ADD_VM vm2
" = ["ADD_VM"; "vm2"] /\
  session_step app_vm1 1 session_vm1 "ADD_VM vm2
" = (app_vm1, session_vm1, Some Forbidden) /\
  Forbidden <> AddMissingArgs.
Proof. repeat split; try reflexivity. discriminate. Qed.

(** The bare line [ADD_VM] on a bound session: [parts[1]] raises, no line
    is written, the session ends and its registry entry is dropped. *)
Example add_vm_bare_ends_session :
  session_step app_vm1 1 session_vm1 "ADD_VM
" = (with_connected (fun _ => []) app_vm1,
     {| current_vm := Some 0%nat; closed := true |}, None).
Proof. reflexivity. Qed.

(** ** AUTH on a bound session *)

(** C6 (amended). An AUTH line received while a machine is bound changes
    neither the process state (registry, objects, store) nor the session,
    which stays open.  The reply is the already-authenticated line when the
    line has at least three tokens and the third is the configured password;
    with a third token that is not the password it is the bad-password line,
    and with fewer than three tokens the missing-arguments line. *)
Theorem auth_on_bound_session a w s r data p0 rest :
  closed s = false -> current_vm s = Some r ->
  tokens data = p0 :: rest ->
  Command_of_value (py_upper p0) = Some AUTH ->
  session_step a w s data =
  (a, s, Some (if (length (p0 :: rest) <? 3)%nat then AuthMissingArgs
               else if nth 2 (p0 :: rest) "" == auth_password (settings a)
                    then AlreadyAuthenticated
                    else BadCredentials)).
Proof.
  intros Hc Hcur Ht Hcmd.
  by_tokens Hc Ht Hcmd. unfold handle_AUTH. rewrite Hcur.
  rewrite <- (session_eta s (Some r) Hc Hcur) at 1.
  destruct (length (p0 :: rest) <? 3)%nat; [reflexivity|].
  destruct (nth 2 (p0 :: rest) "" == auth_password (settings a)); reflexivity.
Qed.

Lemma auth_on_bound_session_witness :
  session_step app_vm1 1 session_vm1 "AUTH vm7 secret
" = (app_vm1, session_vm1, Some AlreadyAuthenticated).
Proof.
  apply (auth_on_bound_session app_vm1 1%nat session_vm1 0%nat _ "AUTH" ["vm7"; "secret"]);
    reflexivity.
Defined.

(** C6, as stated, fails: with a wrong password the reply on a bound
    session is the bad-password line, not the already-authenticated one. *)
Lemma auth_on_bound_session_wrong_password :
  current_vm session_vm1 = Some 0%nat /\
  session_step app_vm1 1 session_vm1 "AUTH vm1 wrongpass
" = (app_vm1, session_vm1, Some BadCredentials) /\
  BadCredentials <> AlreadyAuthenticated.
Proof. repeat split; try reflexivity. discriminate. Qed.

(** ** Commands on a session with no machine bound *)




(** ** Malformed UPDATE_VM *)

(** C1, on the failing input.  After [AUTH vm1 secret] the bound machine has
    [ram = 0].  The line [UPDATE_VM 5 x] is answered with the bad-number line,
    the store is unchanged, but the bound machine now has [ram = 5], which
    LIST_CONNECTED shows. *)
Theorem update_vm_bad_cpu_keeps_new_ram :
  let '(a', s', reply) := session_step app_vm1 1 session_vm1 "UPDATE_VM 5 x
" in
  reply = Some BadArgument /\
  s' = session_vm1 /\
  db a' = db app_vm1 /\
  ram (deref app_vm1 0%nat) = 0 /\
  ram (deref a' 0%nat) = 5 /\
  list_connected_vms a' = [{| d_vm_id := "vm1"; d_ram := 5; d_cpu := 0; d_disks := [];
                              d_authorized := true |}].
Proof. vm_compute. repeat split; reflexivity. Qed.

(** The same in general: a ram token that parses and a cpu token that does
    not leave the parsed ram in the bound machine. *)
Lemma update_vm_bad_cpu a w s r data p0 p1 p2 rest v :
  closed s = false -> current_vm s = Some r ->
  tokens data = p0 :: p1 :: p2 :: rest ->
  Command_of_value (py_upper p0) = Some UPDATE_VM ->
  py_int p1 = Some v -> py_int p2 = None ->
  session_step a w s data = (assign r (set_ram v) a, s, Some BadArgument).
Proof.
  intros Hc Hcur Ht Hcmd H1 H2.
  by_tokens Hc Ht Hcmd. unfold handle_UPDATE_VM. rewrite Hcur. simpl.
  rewrite H1, H2. now rewrite (session_eta s (Some r)).
Qed.

(** The other malformed commands change nothing: a reply that reports
    missing arguments, or a bad number on ADD_VM or on the ram token of
    UPDATE_VM, comes with the state the command found. *)
Lemma malformed_command_unchanged a w cur parts a' cur' reply :
  handle_message a w cur parts = Replied a' cur' reply ->
  reply = AuthMissingArgs \/ reply = AddMissingArgs \/ reply = UpdateMissingArgs \/
  (reply = BadArgument /\
   (forall c, hd_error (map py_upper parts) = Some c -> Command_of_value c <> Some UPDATE_VM)) \/
  (reply = BadArgument /\ py_int (nth 1 parts "") = None) ->
  a' = a /\ cur' = cur.
Proof.
  unfold handle_message. destruct parts as [|p0 rest]; [discriminate|].
  destruct (Command_of_value (py_upper p0)) as [c|] eqn:Hcmd.
  2:{ intros [= <- <- <-]. intuition discriminate. }
  destruct c; simpl.
  - unfold handle_AUTH.
    repeat match goal with
           | |- context [if ?b then _ else _] => destruct b
           | |- context [match ?x with _ => _ end] => destruct x
           end;
      try store_cases; try discriminate;
      intros [= <- <- <-]; intuition discriminate.
  - unfold handle_ADD_VM.
    repeat match goal with
           | |- context [if ?b then _ else _] => destruct b
           | |- context [match ?x with _ => _ end] => destruct x
           end;
      try store_cases; try discriminate; intros [= <- <- <-]; intuition discriminate.
  - intros [= <- <- <-]. intuition discriminate.
  - destruct (json_dumps_machine_rows _); [|discriminate].
    intros [= <- <- <-]. intuition discriminate.
  - destruct (json_dumps_machine_rows _); [|discriminate].
    intros [= <- <- <-]. intuition discriminate.
  - unfold handle_LOGOUT. destruct cur; try store_cases; try discriminate;
      intros [= <- <- <-]; intuition discriminate.
  - unfold handle_UPDATE_VM. destruct cur as [r|]; [|intros [= <- <- <-]; intuition discriminate].
    destruct (length (p0 :: rest) <? 3)%nat; [intros [= <- <- <-]; intuition discriminate|].
    destruct (py_int (nth 1 (p0 :: rest) "")) as [v|] eqn:E1;
      [|intros [= <- <- <-]; intuition discriminate].
    destruct (py_int (nth 2 (p0 :: rest) "")) as [v2|] eqn:E2.
    + store_cases; [|discriminate]. intros [= <- <- <-]. intuition discriminate.
    + intros [= <- <- <-] [H|[H|[H|[[_ H]|[_ H]]]]]; try discriminate.
      * exfalso. apply (H (py_upper p0)); auto.
      * simpl in E1, H. congruence.
  - intros [= <- <- <-]. intuition discriminate.
  - intros [= <- <- <-]. intuition discriminate.
Qed.

(** ** AUTH on a session with no machine bound *)

Section Auth.

Lemma update_nth_app_last {A} (f : A -> A) (l : list A) (x : A) :
  update_nth (length l) f (l ++ [x]) = (l ++ [f x])%list.
Proof. induction l as [|y t IH]; simpl; [reflexivity | now rewrite IH]. Qed.

(** The state a successful AUTH builds, spelled out. *)
Lemma handle_AUTH_fresh a w p0 id pw rest :
  pw = auth_password (settings a) ->
  handle_AUTH a w None (p0 :: id :: pw :: rest) =
  let vm := {| vm_id := id; ram := 0; cpu := 0; disks := []; authorized := true;
               writer := w |} in
  Replied {| settings := settings a;
             connected_vms := dict_set id (length (objects a)) (connected_vms a);
             objects := objects a ++ [vm];
             db := add_vm_to_db_store (db a) vm |}
          (Some (length (objects a))) (AuthOk id).
Proof.
  intros ->. unfold handle_AUTH. simpl length. simpl Nat.ltb. cbv iota.
  simpl nth. rewrite String.eqb_refl. simpl negb. cbv iota.
  unfold alloc. cbv beta iota zeta.
  rewrite after_add_vm_to_db_accepted.
  - unfold assign, with_connected, add_vm_to_db_done, deref. simpl.
    rewrite update_nth_app_last. simpl.
    rewrite app_nth2, Nat.sub_diag by auto. reflexivity.
  - unfold assign, with_connected, deref. simpl.
    rewrite update_nth_app_last, app_nth2, Nat.sub_diag by auto. reflexivity.
Qed.

Lemma handle_AUTH_wrong_password a w cur p0 id pw rest :
  pw <> auth_password (settings a) ->
  handle_AUTH a w cur (p0 :: id :: pw :: rest) = Replied a cur BadCredentials.
Proof.
  intros Hne. unfold handle_AUTH. simpl.
  apply String.eqb_neq in Hne. now rewrite Hne.
Qed.

End Auth.

(** C7. On a session with no machine bound, an AUTH line whose third token
    is the configured password allocates a new machine object with the
    given id, ram 0, cpu 0, no disks and [authorized] set, files it in the
    registry under its id, upserts its row to the store, binds it to the
    session, which stays open, and replies with the confirmation naming the
    id.  With any other third token the reply is the bad-password line,
    nothing changes, and every ADD_VM line that follows is answered with the
    not-authenticated line. *)
Theorem auth_without_identity a w s data p0 id pw rest :
  closed s = false -> current_vm s = None ->
  tokens data = p0 :: id :: pw :: rest ->
  Command_of_value (py_upper p0) = Some AUTH ->
  (pw = auth_password (settings a) ->
   let r := length (objects a) in
   let vm := {| vm_id := id; ram := 0; cpu := 0; disks := []; authorized := true;
                writer := w |} in
   exists a',
     session_step a w s data =
       (a', {| current_vm := Some r; closed := false |}, Some (AuthOk id)) /\
     ~ valid_ref a r /\ valid_ref a' r /\ deref a' r = vm /\
     (forall k, valid_ref a k -> deref a' k = deref a k) /\
     dict_get id (connected_vms a') = Some r /\
     (forall k, k <> id -> dict_get k (connected_vms a') = dict_get k (connected_vms a)) /\
     db a' = add_vm_to_db_store (db a) vm /\
     disks_table (db a') = disks_table (db a) /\
     find (fun v => row_vm_id v == id) (list_all_vms a') =
       Some {| row_vm_id := id; row_ram := 0; row_cpu := 0; row_authorized := true |} /\
     In {| row_vm_id := id; row_ram := 0; row_cpu := 0; row_authorized := true |}
        (list_authorized_vms a'))
  /\
  (pw <> auth_password (settings a) ->
   session_step a w s data = (a, s, Some BadCredentials) /\
   forall data' q0 rest',
     tokens data' = q0 :: rest' ->
     Command_of_value (py_upper q0) = Some ADD_VM ->
     session_step a w s data' = (a, s, Some AddNotAuthenticated)).
Proof.
  intros Hc Hcur Ht Hcmd. split.
  - intros Hpw r vm.
    by_tokens Hc Ht Hcmd. rewrite Hcur, (handle_AUTH_fresh a w p0 id pw rest Hpw).
    cbv zeta. fold vm. fold r.
    eexists. split; [reflexivity|].
    unfold valid_ref, deref, list_all_vms, list_authorized_vms; simpl.
    repeat split.
    + fold r. lia.
    + rewrite length_app. simpl. fold r. lia.
    + rewrite app_nth2, Nat.sub_diag by auto. reflexivity.
    + intros k Hk. now rewrite app_nth1.
    + apply dict_get_set_same.
    + intros k Hk. now apply dict_get_set_other.
    + apply (find_upsert_machine
               {| row_vm_id := id; row_ram := 0; row_cpu := 0; row_authorized := true |}).
    + apply filter_In. split; [apply in_upsert_machine | reflexivity].
  - intros Hpw. split.
    + by_tokens Hc Ht Hcmd. rewrite (handle_AUTH_wrong_password _ _ _ _ _ _ _ Hpw).
      now rewrite (session_eta s (current_vm s)).
    + intros data' q0 rest' Ht' Hcmd'.
      by_tokens Hc Ht' Hcmd'. unfold handle_ADD_VM. rewrite Hcur.
      now rewrite (session_eta s None).
Qed.

Lemma auth_without_identity_witness :
  (exists a',
     session_step (ServerApp_init default_settings empty_store) 1 new_session "AUTH vm1 secret
" = (a', {| current_vm := Some 0%nat; closed := false |}, Some (AuthOk "vm1")) /\
     deref a' 0%nat = {| vm_id := "vm1"; ram := 0; cpu := 0; disks := [];
                         authorized := true; writer := 1 |} /\
     dict_get "vm1" (connected_vms a') = Some 0%nat) /\
  session_step (ServerApp_init default_settings empty_store) 1 new_session "AUTH vm1 wrongpass
" = (ServerApp_init default_settings empty_store, new_session, Some BadCredentials).
Proof.
  split.
  - destruct (proj1 (auth_without_identity (ServerApp_init default_settings empty_store)
                       1%nat new_session "AUTH vm1 secret
" "AUTH" "vm1" "secret" []
                       eq_refl eq_refl eq_refl eq_refl) eq_refl)
      as (a' & Hstep & _ & _ & Hvm & _ & Hreg & _).
    exists a'. repeat split; assumption.
  - apply (proj2 (auth_without_identity (ServerApp_init default_settings empty_store)
                    1%nat new_session "AUTH vm1 wrongpass
" "AUTH" "vm1" "wrongpass" []
                    eq_refl eq_refl eq_refl eq_refl)).
    discriminate.
Defined.

(** ** ADD_VM and UPDATE_VM: the disk list *)

Section DiskList.

Lemma deref_assign3 a r f g h :
  valid_ref a r ->
  deref (assign r h (assign r g (assign r f a))) r = h (g (f (deref a r))).
Proof.
  intros Hv.
  rewrite !deref_assign_same; auto; repeat apply valid_ref_assign; auto.
Qed.

(** A successful ADD_VM, spelled out: the numbers are in the range of the
    store's columns. *)
Lemma handle_ADD_VM_ok a r p0 id rs cs dtoks ram cpu :
  valid_ref a r -> id = vm_id (deref a r) ->
  py_int rs = Some ram -> py_int cs = Some cpu ->
  int32 ram = true -> int32 cpu = true ->
  forallb (fun d => int32 (snd d)) (parse_disks dtoks) = true ->
  exists a',
    handle_ADD_VM a (Some r) (p0 :: id :: rs :: cs :: dtoks) = Replied a' (Some r) (AddOk id) /\
    deref a' r = set_disks (parse_disks dtoks) (set_cpu cpu (set_ram ram (deref a r))) /\
    (forall k, k <> r -> deref a' k = deref a k) /\
    connected_vms a' = connected_vms a /\
    db a' = add_vm_to_db_store (db a) (deref a' r).
Proof.
  intros Hv -> Hr Hcp Hir Hic Hid. unfold handle_ADD_VM. simpl nth_error. cbv iota.
  rewrite String.eqb_refl. simpl. rewrite Hr, Hcp.
  rewrite after_add_vm_to_db_accepted.
  2:{ rewrite deref_assign3 by assumption. unfold store_accepts. simpl.
      now rewrite Hir, Hic, Hid. }
  eexists. split; [|split; [|split; [|split]]].
  - rewrite deref_add_vm_to_db, deref_assign3 by assumption. reflexivity.
  - rewrite deref_add_vm_to_db. now apply deref_assign3.
  - intros k Hk. rewrite deref_add_vm_to_db, !deref_assign_other; auto.
  - reflexivity.
  - reflexivity.
Qed.






End DiskList.



Example add_vm_disks_evaluated :
  let '(a', _, reply) := session_step app_vm1 1 session_vm1 "ADD_VM vm1 2048 2 d1:100 bad d2:x d3:7
" in
  reply = Some (AddOk "vm1") /\
  deref a' 0%nat = {| vm_id := "vm1"; ram := 2048; cpu := 2; disks := [("d1", 100); ("d3", 7)];
                      authorized := true; writer := 1 |} /\
  disks_table (db a') = [{| disk_id := "d1"; capacity := 100; disk_vm_id := "vm1" |};
                         {| disk_id := "d3"; capacity := 7; disk_vm_id := "vm1" |}].
Proof. vm_compute. repeat split; reflexivity. Qed.

Example update_vm_keeps_disks_evaluated :
  let '(a1, _, _) := session_step app_vm1 1 session_vm1 "ADD_VM vm1 2048 2 d1:100
" in
  let '(a2, _, reply2) := session_step a1 1 session_vm1 "UPDATE_VM 4096 4 d9 d8:z
" in
  let '(a3, _, reply3) := session_step a2 1 session_vm1 "UPDATE_VM 1 1 d5:50
" in
  reply2 = Some (UpdateOk "vm1") /\ disks (deref a2 0%nat) = [("d1", 100)] /\
  reply3 = Some (UpdateOk "vm1") /\ disks (deref a3 0%nat) = [("d5", 50)].
Proof. vm_compute. repeat split; reflexivity. Qed.

(** ** Well-formed states are kept *)

Section Invariant.

Lemma registry_ok_assign a r f :
  (forall vm, vm_id (f vm) = vm_id vm) -> registry_ok a -> registry_ok (assign r f a).
Proof.
  intros Hf [Hnd Hreg]. split; [exact Hnd|].
  intros k r' Hin. destruct (Hreg k r' Hin) as [Hv Hid]. split.
  - now apply valid_ref_assign.
  - now rewrite vm_id_assign.
Qed.

Lemma registry_ok_pop a k :
  registry_ok a -> registry_ok (with_connected (dict_pop k) a).
Proof.
  intros [Hnd Hreg]. split; simpl.
  - now apply NoDup_keys_dict_pop.
  - intros k' r' Hin. apply in_dict_pop in Hin. now apply Hreg.
Qed.

Lemma registry_ok_auth a id vm s :
  vm_id vm = id -> registry_ok a ->
  registry_ok {| settings := settings a;
                 connected_vms := dict_set id (length (objects a)) (connected_vms a);
                 objects := objects a ++ [vm];
                 db := s |}.
Proof.
  intros Hid [Hnd Hreg]. split; simpl.
  - now apply NoDup_keys_dict_set.
  - intros k r Hin. unfold deref; simpl. rewrite length_app; simpl.
    apply in_dict_set in Hin as [[= -> ->]|Hin].
    + split; [lia|]. rewrite app_nth2, Nat.sub_diag by auto. exact Hid.
    + destruct (Hreg k r Hin) as [Hv Hk]. split; [unfold valid_ref in Hv; lia|].
      now rewrite app_nth1.
Qed.

Lemma in_keys_upsert_machine row t k :
  In k (map row_vm_id (upsert_machine row t)) <-> k = row_vm_id row \/ In k (map row_vm_id t).
Proof. apply (in_keys_replace row_vm_id). Qed.

Lemma store_ok_add_vm_to_db s vm : store_ok s -> store_ok (add_vm_to_db_store s vm).
Proof. unfold store_ok; simpl. apply (NoDup_keys_replace row_vm_id). Qed.

Lemma app_ok_assign a r f :
  (forall vm, vm_id (f vm) = vm_id vm) -> app_ok a -> app_ok (assign r f a).
Proof. intros Hf [H1 H2]. split; [now apply registry_ok_assign | exact H2]. Qed.

Lemma app_ok_add_vm_to_db a r : app_ok a -> app_ok (add_vm_to_db_done a r).
Proof. intros [H1 H2]. split; [exact H1 | now apply store_ok_add_vm_to_db]. Qed.

Lemma app_ok_pop a k : app_ok a -> app_ok (with_connected (dict_pop k) a).
Proof. intros [H1 H2]. split; [now apply registry_ok_pop | exact H2]. Qed.

Lemma app_ok_finally a cur : app_ok a -> app_ok (finally_block a cur).
Proof. destruct cur; simpl; auto using app_ok_pop. Qed.

Lemma valid_ref_finally a cur k : valid_ref (finally_block a cur) k <-> valid_ref a k.
Proof. destruct cur; reflexivity. Qed.

Lemma store_ok_refused s s' id :
  store_ok s ->
  (s' = s \/ exists vm', vm_id vm' = id /\ s' = add_vm_to_db_store s vm') ->
  store_ok s'.
Proof. intros H [->|(vm' & _ & ->)]; [exact H | now apply store_ok_add_vm_to_db]. Qed.

Lemma app_ok_with_db a s : app_ok a -> store_ok s -> app_ok (with_db s a).
Proof. intros [H1 _] H2. split; [exact H1 | exact H2]. Qed.

Create HintDb app_ok.
#[local] Hint Resolve app_ok_assign app_ok_add_vm_to_db app_ok_pop app_ok_with_db : app_ok.

(** The three parts of [handle_message_ok] once the handler has reached its
    end, by a reply or by an exception of the store. *)
Ltac after_store Hok Hcur Hs :=
  simpl; (split; [|split]);
  [ try (apply app_ok_with_db; [|apply (store_ok_refused _ _ _ (proj2 Hok) Hs)]);
    auto 10 with app_ok
  | intros k Hk; unfold add_vm_to_db_done, with_db, valid_ref; simpl;
    now rewrite ?update_nth_length
  | try discriminate; intros r' [= <-]; unfold add_vm_to_db_done, with_db, valid_ref; simpl;
    rewrite ?update_nth_length; now apply Hcur ].

(** What every command keeps: well-formedness of the state, the validity
    of the references handed out before, and of the one the session holds. *)
Lemma handle_message_ok a w cur parts :
  app_ok a -> (forall r, cur = Some r -> valid_ref a r) ->
  let res := handle_message a w cur parts in
  app_ok (result_app res) /\
  (forall k, valid_ref a k -> valid_ref (result_app res) k) /\
  (forall r, result_current_vm res = Some r -> valid_ref (result_app res) r).
Proof.
  intros Hok Hcur. cbv zeta.
  assert (Hsame : forall reply,
             app_ok (result_app (Replied a cur reply)) /\
             (forall k, valid_ref a k -> valid_ref (result_app (Replied a cur reply)) k) /\
             (forall r, result_current_vm (Replied a cur reply) = Some r ->
                        valid_ref (result_app (Replied a cur reply)) r))
    by (intros; simpl; auto).
  assert (Hraise :
             app_ok (result_app (Raised a cur)) /\
             (forall k, valid_ref a k -> valid_ref (result_app (Raised a cur)) k) /\
             (forall r, result_current_vm (Raised a cur) = Some r ->
                        valid_ref (result_app (Raised a cur)) r))
    by (simpl; auto).
  unfold handle_message. destruct parts as [|p0 rest]; [exact Hraise|].
  destruct (Command_of_value (py_upper p0)) as [[]|]; try apply Hsame.
  - (* AUTH *)
    destruct rest as [|id [|pw rest]]; try apply Hsame.
    destruct (string_dec pw (auth_password (settings a))) as [Ep|Ep].
    2:{ rewrite (handle_AUTH_wrong_password _ _ _ _ _ _ _ Ep). apply Hsame. }
    destruct cur as [r0|].
    { unfold handle_AUTH. simpl. rewrite Ep, String.eqb_refl. apply Hsame. }
    rewrite (handle_AUTH_fresh a w p0 id pw rest Ep). simpl.
    destruct Hok as [Hreg Hst].
    split; [split|split].
    + now apply registry_ok_auth.
    + now apply store_ok_add_vm_to_db.
    + intros k Hk. unfold valid_ref in *; simpl. rewrite length_app. lia.
    + intros r [= <-]. unfold valid_ref; simpl. rewrite length_app; simpl. lia.
  - (* ADD_VM *)
    unfold handle_ADD_VM. destruct cur as [r|]; [|apply Hsame].
    destruct (nth_error (p0 :: rest) 1); [|exact Hraise].
    destruct (negb _); [apply Hsame|].
    destruct (_ <? 4)%nat; [apply Hsame|].
    destruct (py_int _); [|apply Hsame].
    destruct (py_int _); [|apply Hsame].
    store_cases; after_store Hok Hcur Hs'.
  - (* LIST_AUTHORIZED *)
    destruct (json_dumps_machine_rows _); [apply Hsame | exact Hraise].
  - (* LIST_ALL *)
    destruct (json_dumps_machine_rows _); [apply Hsame | exact Hraise].
  - (* LOGOUT *)
    unfold handle_LOGOUT. destruct cur as [r|]; [|apply Hsame].
    store_cases; after_store Hok Hcur Hs'.
  - (* UPDATE_VM *)
    unfold handle_UPDATE_VM. destruct cur as [r|]; [|apply Hsame].
    destruct (_ <? 3)%nat; [apply Hsame|].
    destruct (py_int _); [|apply Hsame].
    destruct (py_int _).
    + destruct (parse_disks _); store_cases; after_store Hok Hcur Hs'.
    + after_store Hok Hcur Hok.
Qed.

End Invariant.

(** ** Connections *)

Section Connections.

Lemma session_of_put_same w s ss : session_of w (put_session w s ss) = s.
Proof.
  induction ss as [|[w' s'] t IH]; simpl.
  - now rewrite Nat.eqb_refl.
  - destruct (w' =? w)%nat eqn:E; simpl; [now rewrite Nat.eqb_refl | now rewrite E].
Qed.

Lemma session_of_put_other w w' s ss :
  w' <> w -> session_of w' (put_session w s ss) = session_of w' ss.
Proof.
  intros Hne. induction ss as [|[w0 s0] t IH]; simpl.
  - apply Nat.eqb_neq in Hne. rewrite Nat.eqb_sym. now rewrite Hne.
  - destruct (w0 =? w)%nat eqn:E; simpl.
    + apply Nat.eqb_eq in E; subst w0.
      assert (H : (w =? w')%nat = false) by (apply Nat.eqb_neq; congruence).
      now rewrite H.
    + now rewrite IH.
Qed.

Lemma in_put_session w s ss c s0 :
  In (c, s0) (put_session w s ss) -> (c, s0) = (w, s) \/ In (c, s0) ss.
Proof.
  induction ss as [|[w' s'] t IH]; simpl.
  - intros [H|[]]; auto.
  - destruct (w' =? w)%nat; simpl; intros [H|H]; auto.
    destruct (IH H); auto.
Qed.

Lemma session_of_in w ss :
  session_of w ss = new_session \/ In (w, session_of w ss) ss.
Proof.
  induction ss as [|[w' s'] t IH]; simpl; auto.
  destruct (w' =? w)%nat eqn:E.
  - apply Nat.eqb_eq in E; subst. auto.
  - destruct IH; auto.
Qed.

Lemma session_step_ok a w s data :
  app_ok a -> (forall r, current_vm s = Some r -> valid_ref a r) ->
  let '(a', s', _) := session_step a w s data in
  app_ok a' /\
  (forall k, valid_ref a k -> valid_ref a' k) /\
  (forall r, current_vm s' = Some r -> valid_ref a' r).
Proof.
  intros Hok Hcur. unfold session_step.
  destruct (closed s); [auto|].
  destruct data as [|c data].
  - split; [now apply app_ok_finally|].
    split; intros k Hk; apply valid_ref_finally; auto.
  - destruct (py_strip (String c data)) as [|c' m]; [auto|].
    pose proof (handle_message_ok a w (current_vm s) (py_split (String c' m)) Hok Hcur)
      as (H1 & H2 & H3).
    destruct (handle_message a w (current_vm s) (py_split (String c' m)))
      as [a' cur' reply|a' cur']; simpl in *.
    + auto.
    + split; [now apply app_ok_finally|].
      split; intros k Hk; apply valid_ref_finally; auto.
Qed.

Lemma world_step_ok wd ev : world_ok wd -> world_ok (fst (world_step wd ev)).
Proof.
  intros [Hok Hss]. destruct ev as [w data]. unfold world_step.
  assert (Hcur : forall r, current_vm (session_of w (sessions wd)) = Some r ->
                           valid_ref (app wd) r).
  { intros r Hr. destruct (session_of_in w (sessions wd)) as [E|Hin].
    - rewrite E in Hr. discriminate.
    - eapply Hss; eauto. }
  pose proof (session_step_ok (app wd) w (session_of w (sessions wd)) data Hok Hcur) as H.
  destruct (session_step (app wd) w (session_of w (sessions wd)) data) as [[a' s'] reply].
  destruct H as (H1 & H2 & H3). split; simpl; [exact H1|].
  intros c s r Hin Hr. apply in_put_session in Hin as [[= -> ->]|Hin]; eauto.
Qed.

Lemma run_world_cons wd ev evs :
  run_world wd (ev :: evs) = run_world (fst (world_step wd ev)) evs.
Proof.
  unfold run_world. simpl. destruct (world_step wd ev) as [wd1 r]. simpl.
  destruct (run wd1 evs). reflexivity.
Qed.

Lemma run_world_ok wd evs : world_ok wd -> world_ok (run_world wd evs).
Proof.
  revert wd. induction evs as [|ev evs IH]; intros wd Hok.
  - exact Hok.
  - rewrite run_world_cons. apply IH. now apply world_step_ok.
Qed.

(** Every state the server reaches from its start is well formed. *)
Lemma reachable_world_ok cfg store evs :
  store_ok store -> world_ok (run_world (World_init cfg store) evs).
Proof.
  intros Hst. apply run_world_ok. split.
  - split; [|exact Hst]. split; simpl; [constructor | intros k r []].
  - intros c s r [].
Qed.

End Connections.

(** ** LOGOUT *)

Section Logout.

Lemma NoDup_map_eq {A B} (f : A -> B) (l : list A) (x y : A) :
  NoDup (map f l) -> In x l -> In y l -> f x = f y -> x = y.
Proof.
  induction l as [|z t IH]; simpl; intros Hnd Hx Hy Hf; [contradiction|].
  inversion Hnd as [|? ? Hnin Hnd']; subst.
  destruct Hx as [->|Hx], Hy as [->|Hy]; auto.
  - exfalso. apply Hnin. rewrite Hf. now apply in_map.
  - exfalso. apply Hnin. rewrite <- Hf. now apply in_map.
Qed.

(** Under [registry_ok], a key that is not in the registry is the id of no
    machine LIST_CONNECTED shows. *)
Lemma list_connected_without_key a id :
  registry_ok a -> dict_get id (connected_vms a) = None ->
  forall d, In d (list_connected_vms a) -> d_vm_id d <> id.
Proof.
  intros [_ Hreg] Hget d Hin. unfold list_connected_vms in Hin.
  apply in_map_iff in Hin as ([k r] & <- & Hin). simpl.
  destruct (Hreg k r Hin) as [_ Hk]. rewrite Hk.
  intros Heq. apply dict_get_none in Hget. apply Hget.
  apply in_map_iff. exists (k, r). split; [exact Heq | exact Hin].
Qed.

Lemma dict_get_pop_same a id :
  registry_ok a -> dict_get id (dict_pop id (connected_vms a)) = None.
Proof. intros [Hnd _]. apply dict_get_none. now apply not_in_keys_dict_pop. Qed.

Lemma store_accepts_set_authorized b vm :
  store_accepts (set_authorized b vm) = store_accepts vm.
Proof. reflexivity. Qed.

(** LOGOUT of a bound machine whose numbers the store accepts, spelled out. *)
Lemma handle_LOGOUT_bound a r :
  valid_ref a r -> store_accepts (deref a r) = true ->
  handle_LOGOUT a (Some r) =
  Replied (with_connected (dict_pop (vm_id (deref a r)))
             (add_vm_to_db_done (assign r (set_authorized false) a) r))
          None (LogoutOk (vm_id (deref a r))).
Proof.
  intros Hv Hacc. unfold handle_LOGOUT.
  rewrite after_add_vm_to_db_accepted
    by (rewrite deref_assign_same by assumption; exact Hacc).
  rewrite deref_add_vm_to_db, deref_assign_same by assumption. reflexivity.
Qed.

(** LOGOUT of a bound machine with a number the store refuses: the flag is
    cleared in memory, the handler raises before its reply, and no row of
    the machine table has changed. *)
Lemma handle_LOGOUT_refused a r :
  valid_ref a r -> int32 (ram (deref a r)) && int32 (cpu (deref a r)) = false ->
  handle_LOGOUT a (Some r) = Raised (assign r (set_authorized false) a) (Some r).
Proof.
  intros Hv Hacc. unfold handle_LOGOUT, after_add_vm_to_db, add_vm_to_db, add_vm_to_db_exec.
  rewrite deref_assign_same by assumption.
  change (int32 (ram (set_authorized false (deref a r))) &&
          int32 (cpu (set_authorized false (deref a r))))
    with (int32 (ram (deref a r)) && int32 (cpu (deref a r))).
  rewrite Hacc. destruct a; reflexivity.
Qed.

(** What LOGOUT does on a session bound to a machine the store accepts, and
    on a session with no machine bound. *)
Lemma logout_effects a w s data p0 rest :
  app_ok a -> closed s = false ->
  tokens data = p0 :: rest ->
  Command_of_value (py_upper p0) = Some LOGOUT ->
  match current_vm s with
  | Some r =>
      valid_ref a r -> store_accepts (deref a r) = true ->
      let vm := deref a r in
      let row := {| row_vm_id := vm_id vm; row_ram := ram vm; row_cpu := cpu vm;
                    row_authorized := false |} in
      exists a',
        session_step a w s data =
          (a', {| current_vm := None; closed := false |}, Some (LogoutOk (vm_id vm))) /\
        deref a' r = set_authorized false vm /\
        db a' = add_vm_to_db_store (db a) (set_authorized false vm) /\
        dict_get (vm_id vm) (connected_vms a') = None /\
        (forall d, In d (list_connected_vms a') -> d_vm_id d <> vm_id vm) /\
        In row (list_all_vms a') /\
        (forall row', In row' (list_all_vms a') -> row_vm_id row' = vm_id vm -> row' = row) /\
        (forall row', In row' (list_authorized_vms a') -> row_vm_id row' <> vm_id vm)
  | None => session_step a w s data = (a, s, Some NotAuthenticated)
  end.
Proof.
  intros Hok Hc Ht Hcmd. destruct (current_vm s) as [r|] eqn:Hcur.
  - intros Hv Hacc vm row.
    set (a' := with_connected (dict_pop (vm_id vm))
                 (add_vm_to_db_done (assign r (set_authorized false) a) r)).
    assert (Hok' : app_ok a').
    { apply app_ok_pop, app_ok_add_vm_to_db, app_ok_assign; auto. }
    assert (Hd : deref a' r = set_authorized false vm).
    { unfold a'. rewrite deref_with_connected, deref_add_vm_to_db.
      now apply deref_assign_same. }
    assert (Hget : dict_get (vm_id vm) (connected_vms a') = None).
    { unfold a'. simpl. apply dict_get_pop_same. apply Hok. }
    assert (Hdb : db a' = add_vm_to_db_store (db a) (set_authorized false vm)).
    { unfold a'. simpl. unfold add_vm_to_db_done. simpl.
      fold (deref (assign r (set_authorized false) a) r).
      now rewrite deref_assign_same. }
    assert (Hin : In row (list_all_vms a')).
    { unfold list_all_vms. rewrite Hdb. simpl. apply in_upsert_machine. }
    assert (Huniq : forall row', In row' (list_all_vms a') ->
                                 row_vm_id row' = vm_id vm -> row' = row).
    { intros row' Hin' Hid. destruct Hok' as [_ Hst].
      apply (NoDup_map_eq row_vm_id (virtual_machines (db a'))); auto. }
    exists a'. repeat split; auto.
    + by_tokens Hc Ht Hcmd. rewrite Hcur. now rewrite handle_LOGOUT_bound.
    + apply list_connected_without_key; [apply Hok' | exact Hget].
    + intros row' Hin' Hid. unfold list_authorized_vms in Hin'.
      apply filter_In in Hin' as [Hin' Hauth].
      rewrite (Huniq row' Hin' Hid) in Hauth. discriminate.
  - by_tokens Hc Ht Hcmd. unfold handle_LOGOUT. rewrite Hcur.
    now rewrite (session_eta s None).
Qed.

Example logout_effects_evaluated :
  (exists a',
     session_step app_vm1 1 session_vm1 "LOGOUT
" = (a', new_session, Some (LogoutOk "vm1")) /\
     dict_get "vm1" (connected_vms a') = None /\
     In {| row_vm_id := "vm1"; row_ram := 0; row_cpu := 0; row_authorized := false |}
        (list_all_vms a')) /\
  session_step app_vm1 2 new_session "LOGOUT
" = (app_vm1, new_session, Some NotAuthenticated).
Proof.
  assert (Hok : app_ok app_vm1).
  { split; [split|]; vm_compute.
    - constructor; [intros []|constructor].
    - intros k r [[= <- <-]|[]]. split; [lia|reflexivity].
    - constructor; [intros []|constructor]. }
  split.
  - destruct (logout_effects app_vm1 1%nat session_vm1 "LOGOUT
" "LOGOUT" [] Hok eq_refl eq_refl eq_refl ltac:(vm_compute; lia) eq_refl)
      as (a' & Hstep & _ & _ & Hget & _ & Hin & _).
    exists a'. repeat split; assumption.
  - exact (logout_effects app_vm1 2%nat new_session "LOGOUT
" "LOGOUT" [] Hok eq_refl eq_refl eq_refl).
Qed.

End Logout.

(** C8, on the failing input.  Connection 1 sends [AUTH vm1 secret], then
    [UPDATE_VM 2147483648 x], then [LOGOUT].  The second line is answered
    with the bad-number line, but it has left [ram] at 2147483648 in memory:
    the assignment of [ram] precedes the parsing of [cpu].  LOGOUT clears
    [authorized] on the object and calls [add_vm_to_db], which raises on
    that number: no reply is written, the session is over, its registry
    entry is dropped, and the row of vm1 in the store still has [authorized]
    set, so that the query of LIST_AUTHORIZED returns it.  Without the
    second line, LOGOUT is answered and the row has [authorized] cleared;
    but a LIST_ALL line sent afterwards, on any connection, is not answered
    with that row: the handler raises while it serialises it, and the
    connection that asked is closed. *)
Theorem logout_after_refused_number :
  let start := World_init default_settings empty_store in
  let row b := {| row_vm_id := "vm1"; row_ram := 0; row_cpu := 0; row_authorized := b |} in
  let bad := run start [(1%nat, "AUTH vm1 secret
"); (1%nat, "UPDATE_VM 2147483648 x
"); (1%nat, "LOGOUT
")] in
  let good := run start [(1%nat, "AUTH vm1 secret
"); (1%nat, "LOGOUT
")] in
  let asked := run (fst good) [(2%nat, "LIST_ALL
")] in
  snd bad = [(1%nat, AuthOk "vm1"); (1%nat, BadArgument)] /\
  closed (session_of 1 (sessions (fst bad))) = true /\
  deref (app (fst bad)) 0%nat =
    {| vm_id := "vm1"; ram := 2147483648; cpu := 0; disks := []; authorized := false;
       writer := 1%nat |} /\
  list_connected_vms (app (fst bad)) = [] /\
  list_all_vms (app (fst bad)) = [row true] /\
  list_authorized_vms (app (fst bad)) = [row true] /\
  snd good = [(1%nat, AuthOk "vm1"); (1%nat, LogoutOk "vm1")] /\
  closed (session_of 1 (sessions (fst good))) = false /\
  list_connected_vms (app (fst good)) = [] /\
  list_all_vms (app (fst good)) = [row false] /\
  list_authorized_vms (app (fst good)) = [] /\
  snd asked = [] /\
  closed (session_of 2 (sessions (fst asked))) = true.
Proof. vm_compute. repeat split; reflexivity. Qed.

(** ** Loss of the connection *)

(** End of input changes neither the objects nor the store: the [finally]
    block only drops a registry entry. *)
Lemma finally_block_keeps_store a cur :
  db (finally_block a cur) = db a /\ objects (finally_block a cur) = objects a.
Proof. destruct cur; auto. Qed.

(** C4, on the failing input.  Connection 1 sends [AUTH vm1 secret] and is
    then lost.  The session is over and the registry is empty, but the store
    row of vm1 still has [authorized] set and LIST_AUTHORIZED returns it.
    Had the connection sent LOGOUT before, the row would not be returned. *)
Theorem disconnect_keeps_authorized_row :
  let start := World_init default_settings empty_store in
  let lost := run_world start [(1%nat, "AUTH vm1 secret
"); (1%nat, EOF)] in
  let left := run_world start [(1%nat, "AUTH vm1 secret
"); (1%nat, "LOGOUT
"); (1%nat, EOF)] in
  closed (session_of 1 (sessions lost)) = true /\
  list_connected_vms (app lost) = [] /\
  list_authorized_vms (app lost) =
    [{| row_vm_id := "vm1"; row_ram := 0; row_cpu := 0; row_authorized := true |}] /\
  list_authorized_vms (app left) = [].
Proof. vm_compute. repeat split; reflexivity. Qed.

(** ** Two connections under one machine id *)

Section SharedId.

(** A successful AUTH of connection [w], at the level of the whole server. *)
Lemma world_step_auth wd w data p0 id pw rest :
  session_of w (sessions wd) = new_session ->
  tokens data = p0 :: id :: pw :: rest ->
  Command_of_value (py_upper p0) = Some AUTH ->
  pw = auth_password (settings (app wd)) ->
  fst (world_step wd (w, data)) =
  let vm := {| vm_id := id; ram := 0; cpu := 0; disks := []; authorized := true;
               writer := w |} in
  {| app := {| settings := settings (app wd);
               connected_vms :=
                 dict_set id (length (objects (app wd))) (connected_vms (app wd));
               objects := objects (app wd) ++ [vm];
               db := add_vm_to_db_store (db (app wd)) vm |};
     sessions := put_session w {| current_vm := Some (length (objects (app wd)));
                                  closed := false |} (sessions wd) |}.
Proof.
  intros Hs Ht Hcmd Hpw. unfold world_step. rewrite Hs.
  rewrite (session_step_tokens (app wd) w new_session data p0 (id :: pw :: rest) eq_refl Ht).
  dispatch Hcmd.
  simpl current_vm. rewrite (handle_AUTH_fresh _ w p0 id pw rest Hpw). reflexivity.
Qed.

(** End of input on connection [w], at the level of the whole server. *)
Lemma world_step_EOF wd w r :
  session_of w (sessions wd) = {| current_vm := Some r; closed := false |} ->
  fst (world_step wd (w, EOF)) =
  {| app := with_connected (dict_pop (vm_id (deref (app wd) r))) (app wd);
     sessions := put_session w {| current_vm := Some r; closed := true |} (sessions wd) |}.
Proof. intros Hs. unfold world_step. rewrite Hs. reflexivity. Qed.

End SharedId.

(** C9. Two connections with no machine bound authenticate one after the
    other under the same machine id.  After the second AUTH the registry
    entry of the id refers to the second session's object, not the first's.
    When the first connection is then lost, its cleanup removes the entry of
    the id: the registry has no entry for it and LIST_CONNECTED shows no
    machine with that id, although the second session is still open and bound
    to its object, whose [authorized] flag is set. *)
Theorem second_auth_then_first_disconnect wd c1 c2 l1 l2 p1 p2 id pw1 pw2 rest1 rest2 :
  world_ok wd -> c1 <> c2 ->
  session_of c1 (sessions wd) = new_session ->
  session_of c2 (sessions wd) = new_session ->
  tokens l1 = p1 :: id :: pw1 :: rest1 ->
  tokens l2 = p2 :: id :: pw2 :: rest2 ->
  Command_of_value (py_upper p1) = Some AUTH ->
  Command_of_value (py_upper p2) = Some AUTH ->
  pw1 = auth_password (settings (app wd)) ->
  pw2 = auth_password (settings (app wd)) ->
  let both := run_world wd [(c1, l1); (c2, l2)] in
  let after := run_world wd [(c1, l1); (c2, l2); (c1, EOF)] in
  exists r1 r2,
    r1 <> r2 /\
    session_of c1 (sessions both) = {| current_vm := Some r1; closed := false |} /\
    session_of c2 (sessions both) = {| current_vm := Some r2; closed := false |} /\
    dict_get id (connected_vms (app both)) = Some r2 /\
    writer (deref (app both) r2) = c2 /\
    closed (session_of c1 (sessions after)) = true /\
    session_of c2 (sessions after) = {| current_vm := Some r2; closed := false |} /\
    vm_id (deref (app after) r2) = id /\
    authorized (deref (app after) r2) = true /\
    dict_get id (connected_vms (app after)) = None /\
    (forall d, In d (list_connected_vms (app after)) -> d_vm_id d <> id).
Proof.
  intros Hok Hne Hs1 Hs2 Ht1 Ht2 Hc1 Hc2 Hp1 Hp2 both after.
  set (r1 := length (objects (app wd))).
  set (wd1 := fst (world_step wd (c1, l1))).
  assert (E1 : wd1 = _) by (apply (world_step_auth wd c1 l1 p1 id pw1 rest1); assumption).
  cbv zeta in E1. fold r1 in E1.
  assert (Hs2' : session_of c2 (sessions wd1) = new_session).
  { rewrite E1. simpl. rewrite session_of_put_other by congruence. exact Hs2. }
  assert (Hp2' : pw2 = auth_password (settings (app wd1))) by (rewrite E1; exact Hp2).
  set (wd2 := fst (world_step wd1 (c2, l2))).
  assert (E2 : wd2 = _) by (apply (world_step_auth wd1 c2 l2 p2 id pw2 rest2); assumption).
  cbv zeta in E2.
  assert (Hlen : length (objects (app wd1)) = S r1).
  { rewrite E1. simpl. rewrite length_app. simpl. fold r1. lia. }
  rewrite Hlen in E2.
  assert (Hboth : both = wd2).
  { unfold both. now rewrite !run_world_cons. }
  assert (Hs1'' : session_of c1 (sessions wd2) = {| current_vm := Some r1; closed := false |}).
  { rewrite E2. simpl. rewrite session_of_put_other by congruence.
    rewrite E1. simpl. apply session_of_put_same. }
  assert (Hd1 : vm_id (deref (app wd2) r1) = id).
  { rewrite E2. unfold deref. simpl. rewrite app_nth1 by lia.
    rewrite E1. simpl. fold r1. rewrite app_nth2, Nat.sub_diag by (fold r1; lia).
    reflexivity. }
  assert (Hd2 : deref (app wd2) (S r1) =
                {| vm_id := id; ram := 0; cpu := 0; disks := []; authorized := true;
                   writer := c2 |}).
  { rewrite E2. unfold deref. simpl. rewrite app_nth2 by lia.
    rewrite Hlen, Nat.sub_diag. reflexivity. }
  assert (Hafter : after = fst (world_step wd2 (c1, EOF))).
  { unfold after. now rewrite !run_world_cons. }
  rewrite (world_step_EOF wd2 c1 r1 Hs1''), Hd1 in Hafter.
  assert (Hok3 : world_ok after) by (apply run_world_ok; exact Hok).
  assert (Hok2 : world_ok wd2) by (rewrite <- Hboth; apply run_world_ok; exact Hok).
  assert (Hget3 : dict_get id (connected_vms (app after)) = None).
  { rewrite Hafter. simpl. apply dict_get_pop_same. apply Hok2. }
  exists r1, (S r1). rewrite Hboth. repeat split.
  - lia.
  - exact Hs1''.
  - rewrite E2. simpl. apply session_of_put_same.
  - rewrite E2. simpl. apply dict_get_set_same.
  - now rewrite Hd2.
  - rewrite Hafter. simpl. now rewrite session_of_put_same.
  - rewrite Hafter. simpl. rewrite session_of_put_other by congruence.
    rewrite E2. simpl. apply session_of_put_same.
  - rewrite Hafter. simpl app. rewrite deref_with_connected. now rewrite Hd2.
  - rewrite Hafter. simpl app. rewrite deref_with_connected. now rewrite Hd2.
  - exact Hget3.
  - apply list_connected_without_key; [apply Hok3 | exact Hget3].
Qed.

Lemma second_auth_then_first_disconnect_witness :
  let start := World_init default_settings empty_store in
  let after := run_world start [(1%nat, "AUTH vm1 secret
"); (2%nat, "auth vm1 secret
"); (1%nat, EOF)] in
  exists r1 r2,
    r1 <> r2 /\
    session_of 2 (sessions after) = {| current_vm := Some r2; closed := false |} /\
    authorized (deref (app after) r2) = true /\
    dict_get "vm1" (connected_vms (app after)) = None.
Proof.
  intros start after.
  destruct (second_auth_then_first_disconnect start 1%nat 2%nat "AUTH vm1 secret
" "auth vm1 secret
" "AUTH" "auth" "vm1" "secret" "secret" [] []
              (reachable_world_ok default_settings empty_store []
                 ltac:(constructor))
              ltac:(discriminate) eq_refl eq_refl eq_refl eq_refl eq_refl eq_refl
              eq_refl eq_refl)
    as (r1 & r2 & Hne & _ & _ & _ & _ & _ & Hs & _ & Hauth & Hget & _).
  exists r1, r2. repeat split; assumption.
Defined.

Example shared_id_evaluated :
  let start := World_init default_settings empty_store in
  let '(after, replies) := run start [(1%nat, "AUTH vm1 secret
"); (2%nat, "AUTH vm1 secret
"); (2%nat, "LIST_CONNECTED
"); (1%nat, EOF); (2%nat, "LIST_CONNECTED
"); (2%nat, "UPDATE_VM 8 8
")] in
  replies =
    [(1%nat, AuthOk "vm1"); (2%nat, AuthOk "vm1");
     (2%nat, JsonConnected [{| d_vm_id := "vm1"; d_ram := 0; d_cpu := 0; d_disks := [];
                               d_authorized := true |}]);
     (2%nat, JsonConnected []);
     (2%nat, UpdateOk "vm1")].
Proof. vm_compute. reflexivity. Qed.

(** * Further properties of the handler *)

(** ** Lines without a command, unknown commands *)

Section BlankLines.

Lemma lstrip_all_space sp s : all_chars sp s = true -> lstrip sp s = EmptyString.
Proof.
  induction s as [|c s IH]; simpl; [reflexivity|].
  intros H. apply andb_prop in H as [Hc Hs]. rewrite Hc. now apply IH.
Qed.

End BlankLines.

(** X1. A line that is not end of input and consists of white space only
    (a bare newline, spaces, tabs) is skipped: no reply is written, and
    process state and session are unchanged. *)
Theorem blank_line_skipped a w s data :
  data <> EOF -> all_chars py_isspace data = true ->
  session_step a w s data = (a, s, None).
Proof.
  intros Hne Hsp. unfold session_step. destruct (closed s); [reflexivity|].
  destruct data as [|c data]; [now elim Hne|].
  unfold py_strip. rewrite (lstrip_all_space _ _ Hsp). reflexivity.
Qed.

Lemma blank_line_skipped_witness :
  session_step app_vm1 1 session_vm1 " 	
" = (app_vm1, session_vm1, None).
Proof. apply blank_line_skipped; [discriminate | reflexivity]. Defined.

(** X2. A line whose first token, upper-cased, is not one of the eight wire
    commands (this includes EXIT, which is a member of [Command] but has no
    branch in the handler) is answered with the unknown-command line; process
    state and session are unchanged and the session stays open, bound or
    not. *)
Theorem unknown_command_reply a w s data p0 rest :
  closed s = false -> tokens data = p0 :: rest ->
  Command_of_value (py_upper p0) = None \/ Command_of_value (py_upper p0) = Some EXIT ->
  session_step a w s data = (a, s, Some UnknownCommand).
Proof.
  intros Hc Ht [Hcmd|Hcmd]; by_tokens Hc Ht Hcmd;
    now rewrite (session_eta s (current_vm s)).
Qed.

Lemma unknown_command_reply_witness :
  session_step app_vm1 1 session_vm1 "DELETE_VM vm1
" = (app_vm1, session_vm1, Some UnknownCommand) /\
  session_step app_vm1 1 session_vm1 "exit
" = (app_vm1, session_vm1, Some UnknownCommand).
Proof.
  split.
  - apply (unknown_command_reply app_vm1 1%nat session_vm1 "DELETE_VM vm1
" "DELETE_VM" ["vm1"]); [reflexivity | reflexivity | left; reflexivity].
  - apply (unknown_command_reply app_vm1 1%nat session_vm1 "exit
" "exit" []); [reflexivity | reflexivity | right; reflexivity].
Defined.

(** X3. The command word is matched without regard to case and is not read
    again: two lines whose first tokens have the same upper-case form and
    whose other tokens agree are handled alike. *)
Theorem command_word_case_insensitive a w s data1 data2 p0 q0 rest :
  tokens data1 = p0 :: rest -> tokens data2 = q0 :: rest ->
  py_upper p0 = py_upper q0 ->
  session_step a w s data1 = session_step a w s data2.
Proof.
  intros H1 H2 Hu. destruct (closed s) eqn:Hc.
  - unfold session_step. now rewrite Hc.
  - rewrite (session_step_tokens _ _ _ _ _ _ Hc H1), (session_step_tokens _ _ _ _ _ _ Hc H2).
    unfold handle_message. rewrite Hu. reflexivity.
Qed.

Lemma command_word_case_insensitive_witness :
  session_step app_vm1 1 session_vm1 "Add_Vm vm1 1 2 d:3
" = session_step app_vm1 1 session_vm1 "ADD_VM  vm1 1 2   d:3".
Proof.
  apply (command_word_case_insensitive app_vm1 1%nat session_vm1 _ _ "Add_Vm" "ADD_VM"
           ["vm1"; "1"; "2"; "d:3"]); reflexivity.
Defined.

(** ** What ends a session *)

(** X4. The bare line ADD_VM on a session bound to a machine: reading the
    second token raises, so no reply is written, the session ends, and its
    cleanup drops the registry entry filed under the bound machine's id;
    objects and store are unchanged. *)
Theorem add_vm_bare_on_bound_session a w s r data p0 :
  closed s = false -> current_vm s = Some r ->
  tokens data = [p0] ->
  Command_of_value (py_upper p0) = Some ADD_VM ->
  session_step a w s data =
  (with_connected (dict_pop (vm_id (deref a r))) a,
   {| current_vm := Some r; closed := true |}, None).
Proof.
  intros Hc Hcur Ht Hcmd. by_tokens Hc Ht Hcmd.
  unfold handle_ADD_VM. rewrite Hcur. reflexivity.
Qed.

Lemma add_vm_bare_on_bound_session_witness :
  session_step app_vm1 1 session_vm1 "add_vm
" = (with_connected (dict_pop "vm1") app_vm1,
     {| current_vm := Some 0%nat; closed := true |}, None).
Proof.
  apply (add_vm_bare_on_bound_session app_vm1 1%nat session_vm1 0%nat _ "add_vm");
    reflexivity.
Defined.

Section Raises.

(** A command that reaches [add_vm_to_db] is answered when the store accepts
    the machine, and raises when it does not. *)
Lemma reaches_store_handle a w r c p0 rest vm :
  Command_of_value (py_upper p0) = Some c -> valid_ref a r ->
  reaches_store a r c rest vm ->
  if store_accepts vm
  then exists a' cur reply, handle_message a w (Some r) (p0 :: rest) = Replied a' cur reply
  else exists a', handle_message a w (Some r) (p0 :: rest) = Raised a' (Some r).
Proof.
  intros Hcmd Hv Hreach. dispatch Hcmd.
  destruct Hreach as [id rs cs dtoks ram cpu -> Hr Hc|rs cs dtoks ram cpu Hr Hc|rest].
  - unfold handle_ADD_VM. simpl nth_error. cbv iota.
    rewrite String.eqb_refl. simpl. rewrite Hr, Hc.
    store_cases; rewrite deref_assign3 in Hacc by assumption; rewrite Hacc; eauto.
  - unfold handle_UPDATE_VM. simpl. rewrite Hr, Hc.
    assert (H2 : deref (assign r (set_cpu cpu) (assign r (set_ram ram) a)) r
                 = set_cpu cpu (set_ram ram (deref a r))).
    { rewrite !deref_assign_same; auto. now apply valid_ref_assign. }
    destruct (parse_disks dtoks) as [|d ds]; store_cases;
      rewrite ?deref_assign3 in Hacc by assumption;
      rewrite ?H2 in Hacc; rewrite Hacc; eauto.
  - unfold handle_LOGOUT.
    store_cases; rewrite deref_assign_same in Hacc by assumption; rewrite Hacc; eauto.
Qed.

(** The ways a command raises. *)
Lemma handle_message_Raised_inv a w cur p0 rest a' cur' :
  (forall r, cur = Some r -> valid_ref a r) ->
  handle_message a w cur (p0 :: rest) = Raised a' cur' ->
  (Command_of_value (py_upper p0) = Some ADD_VM /\ cur <> None /\ rest = []) \/
  (Command_of_value (py_upper p0) = Some LIST_AUTHORIZED /\ list_authorized_vms a <> []) \/
  (Command_of_value (py_upper p0) = Some LIST_ALL /\ list_all_vms a <> []) \/
  (exists c r vm, Command_of_value (py_upper p0) = Some c /\ cur = Some r /\
                  reaches_store a r c rest vm /\ store_accepts vm = false).
Proof.
  intros Hv. unfold handle_message.
  destruct (Command_of_value (py_upper p0)) as [[]|] eqn:Hcmd; try discriminate.
  - (* AUTH *)
    destruct rest as [|id [|pw rest]]; try discriminate.
    destruct (string_dec pw (auth_password (settings a))) as [Ep|Ep].
    2:{ now rewrite (handle_AUTH_wrong_password _ _ _ _ _ _ _ Ep). }
    destruct cur as [r0|].
    + unfold handle_AUTH. simpl. rewrite Ep, String.eqb_refl. discriminate.
    + now rewrite (handle_AUTH_fresh a w p0 id pw rest Ep).
  - (* ADD_VM *)
    unfold handle_ADD_VM. destruct cur as [r|]; [|discriminate].
    destruct rest as [|p1 rest]; [intros _; left; repeat split; discriminate|].
    simpl nth_error. cbv iota.
    destruct (p1 == vm_id (deref a r)) eqn:E; simpl negb; cbv iota; [|discriminate].
    apply String.eqb_eq in E.
    destruct rest as [|rs [|cs dtoks]]; try discriminate. simpl.
    destruct (py_int rs) as [ram|] eqn:Er; [|discriminate].
    destruct (py_int cs) as [cpu|] eqn:Ec; [|discriminate].
    store_cases; [discriminate|]. intros _. right; right; right.
    rewrite deref_assign3 in Hacc by auto.
    exists ADD_VM, r, (set_disks (parse_disks dtoks) (set_cpu cpu (set_ram ram (deref a r)))).
    repeat split; auto. now constructor.
  - (* LIST_AUTHORIZED *)
    destruct (list_authorized_vms a); [discriminate|].
    intros _. right; left. split; [reflexivity | discriminate].
  - (* LIST_ALL *)
    destruct (list_all_vms a); [discriminate|].
    intros _. right; right; left. split; [reflexivity | discriminate].
  - (* LOGOUT *)
    unfold handle_LOGOUT. destruct cur as [r|]; [|discriminate].
    store_cases; [discriminate|]. intros _. right; right; right.
    rewrite deref_assign_same in Hacc by auto.
    exists LOGOUT, r, (set_authorized false (deref a r)).
    repeat split; auto. constructor.
  - (* UPDATE_VM *)
    unfold handle_UPDATE_VM. destruct cur as [r|]; [|discriminate].
    destruct rest as [|rs [|cs dtoks]]; try discriminate. simpl.
    destruct (py_int rs) as [ram|] eqn:Er; [|discriminate].
    destruct (py_int cs) as [cpu|] eqn:Ec; [|discriminate].
    pose proof (reaches_UPDATE_VM a r rs cs dtoks ram cpu Er Ec) as Hreach.
    assert (H2 : deref (assign r (set_cpu cpu) (assign r (set_ram ram) a)) r
                 = set_cpu cpu (set_ram ram (deref a r))).
    { rewrite !deref_assign_same; auto. apply valid_ref_assign; auto. }
    destruct (parse_disks dtoks) as [|d ds]; (store_cases; [discriminate|]);
      intros _; right; right; right;
      rewrite ?deref_assign3 in Hacc by auto; rewrite ?H2 in Hacc;
      eexists UPDATE_VM, r, _; repeat split; eauto.
Qed.

End Raises.

(** X5. A line with at least one token ends the session (no reply, the
    [finally] block runs) in exactly these cases: the bare ADD_VM on a bound
    session; LIST_AUTHORIZED or LIST_ALL when the query returns at least one
    row (the rows carry [last_seen], which [json.dumps] refuses); and an
    ADD_VM, UPDATE_VM or LOGOUT that reaches [add_vm_to_db] with a machine
    the store refuses, that is with [ram], [cpu] or a capacity outside 32
    bits.  Every other line gets one reply and leaves the session open. *)
Theorem session_ends_iff a w s data p0 rest :
  closed s = false -> tokens data = p0 :: rest ->
  (forall r, current_vm s = Some r -> valid_ref a r) ->
  let '(_, s', reply) := session_step a w s data in
  (closed s' = true <->
     (Command_of_value (py_upper p0) = Some ADD_VM /\ current_vm s <> None /\ rest = []) \/
     (Command_of_value (py_upper p0) = Some LIST_AUTHORIZED /\ list_authorized_vms a <> []) \/
     (Command_of_value (py_upper p0) = Some LIST_ALL /\ list_all_vms a <> []) \/
     (exists c r vm,
        Command_of_value (py_upper p0) = Some c /\ current_vm s = Some r /\
        reaches_store a r c rest vm /\ store_accepts vm = false)) /\
  (closed s' = false <-> reply <> None).
Proof.
  intros Hc Ht Hv. rewrite (session_step_tokens _ _ _ _ _ _ Hc Ht).
  destruct (handle_message a w (current_vm s) (p0 :: rest)) as [a' cur' reply|a' cur'] eqn:Hm.
  - split; [|split; [discriminate | reflexivity]].
    split; [discriminate|]. intros [(Hcmd & Hb & ->)|[[Hcmd Hne]|[[Hcmd Hne]|H]]]; exfalso.
    + revert Hm. dispatch Hcmd. unfold handle_ADD_VM.
      destruct (current_vm s); [discriminate | now elim Hb].
    + revert Hm. dispatch Hcmd.
      destruct (list_authorized_vms a); [now elim Hne | discriminate].
    + revert Hm. dispatch Hcmd.
      destruct (list_all_vms a); [now elim Hne | discriminate].
    + destruct H as (c & r & vm & Hcmd & Hcur & Hreach & Hacc).
      pose proof (reaches_store_handle a w r c p0 rest vm Hcmd (Hv r Hcur) Hreach) as H.
      rewrite Hacc, <- Hcur, Hm in H. destruct H as (? & H). discriminate.
  - split; [|split; [discriminate | intros H; now elim H]].
    split; [intros _ | reflexivity].
    exact (handle_message_Raised_inv a w _ p0 rest a' cur' Hv Hm).
Qed.

Lemma session_ends_iff_witness :
  let '(_, s', reply) := session_step app_vm1 1 session_vm1 "UPDATE_VM 1 4294967296
" in
  (closed s' = true <->
     (Command_of_value (py_upper "UPDATE_VM") = Some ADD_VM /\
      current_vm session_vm1 <> None /\ ["1"; "4294967296"] = []) \/
     (Command_of_value (py_upper "UPDATE_VM") = Some LIST_AUTHORIZED /\
      list_authorized_vms app_vm1 <> []) \/
     (Command_of_value (py_upper "UPDATE_VM") = Some LIST_ALL /\
      list_all_vms app_vm1 <> []) \/
     (exists c r vm,
        Command_of_value (py_upper "UPDATE_VM") = Some c /\
        current_vm session_vm1 = Some r /\
        reaches_store app_vm1 r c ["1"; "4294967296"] vm /\ store_accepts vm = false)) /\
  (closed s' = false <-> reply <> None).
Proof.
  apply (session_ends_iff app_vm1 1%nat session_vm1 "UPDATE_VM 1 4294967296
" "UPDATE_VM" ["1"; "4294967296"] eq_refl eq_refl).
  intros r [= <-]. vm_compute. lia.
Defined.

(** ** The four list commands *)

(** X6. LIST_CONNECTED and LIST_DISKS are answered on every open session,
    bound or not, with the registry snapshot and the disk join, and change
    nothing; LIST_AUTHORIZED and LIST_ALL, when they reply, reply with the
    rows of their query. *)
Theorem list_commands_read_only a w s data p0 rest c :
  closed s = false -> tokens data = p0 :: rest ->
  Command_of_value (py_upper p0) = Some c ->
  match c with
  | LIST_CONNECTED =>
      session_step a w s data = (a, s, Some (JsonConnected (list_connected_vms a)))
  | LIST_DISKS =>
      session_step a w s data = (a, s, Some (JsonDisks (list_all_disks a)))
  | LIST_AUTHORIZED =>
      forall a' s' reply, session_step a w s data = (a', s', Some reply) ->
                          a' = a /\ s' = s /\ reply = JsonMachines (list_authorized_vms a)
  | LIST_ALL =>
      forall a' s' reply, session_step a w s data = (a', s', Some reply) ->
                          a' = a /\ s' = s /\ reply = JsonMachines (list_all_vms a)
  | _ => True
  end.
Proof.
  intros Hc Ht Hcmd.
  pose proof (session_eta s (current_vm s) Hc eq_refl) as Hs.
  destruct c; try exact I; by_tokens Hc Ht Hcmd; try (now rewrite Hs).
  - destruct (list_authorized_vms a); simpl; [|discriminate].
    intros a' s' reply [= <- <- <-]. now rewrite Hs.
  - destruct (list_all_vms a); simpl; [|discriminate].
    intros a' s' reply [= <- <- <-]. now rewrite Hs.
Qed.

Lemma list_commands_read_only_witness :
  session_step app_vm1 1 session_vm1 "LIST_DISKS
" = (app_vm1, session_vm1, Some (JsonDisks (list_all_disks app_vm1))).
Proof.
  exact (list_commands_read_only app_vm1 1%nat session_vm1 "LIST_DISKS
" "LIST_DISKS" [] LIST_DISKS eq_refl eq_refl eq_refl).
Defined.

(** ** What a command leaves alone *)

Section Frames.

Lemma writer_assign a r k f :
  (forall vm, writer (f vm) = writer vm) ->
  writer (deref (assign r f a) k) = writer (deref a k).
Proof.
  intros Hf. destruct (Nat.eq_dec k r) as [->|Hne].
  - unfold deref, assign; simpl.
    destruct (Nat.lt_ge_cases r (length (objects a))) as [Hlt|Hge].
    + now rewrite nth_update_nth_same, Hf.
    + rewrite !nth_overflow; auto. now rewrite update_nth_length.
  - now rewrite deref_assign_other.
Qed.

Lemma kept_refl cur k a : valid_ref a k -> kept cur k a a.
Proof. unfold kept; auto. Qed.

Lemma kept_assign r k a a' f :
  (forall vm, vm_id (f vm) = vm_id vm) -> (forall vm, writer (f vm) = writer vm) ->
  kept (Some r) k a a' -> kept (Some r) k a (assign r f a').
Proof.
  intros Hv Hw (H1 & H2 & H3 & H4). unfold kept. repeat split.
  - now apply valid_ref_assign.
  - now rewrite vm_id_assign.
  - now rewrite writer_assign.
  - intros Hne. rewrite deref_assign_other by congruence. auto.
Qed.

Lemma kept_add_vm_to_db cur r k a a' :
  kept cur k a a' -> kept cur k a (add_vm_to_db_done a' r).
Proof. auto. Qed.

Lemma kept_with_connected cur f k a a' :
  kept cur k a a' -> kept cur k a (with_connected f a').
Proof. auto. Qed.

Lemma kept_with_db cur s k a a' :
  kept cur k a a' -> kept cur k a (with_db s a').
Proof. auto. Qed.

Lemma handle_message_kept a w cur parts k :
  valid_ref a k -> kept cur k a (result_app (handle_message a w cur parts)).
Proof.
  intros Hk. pose proof (kept_refl cur k a Hk) as Hrefl.
  unfold handle_message. destruct parts as [|p0 rest]; [exact Hrefl|].
  destruct (Command_of_value (py_upper p0)) as [[]|]; try exact Hrefl.
  - (* AUTH *)
    destruct rest as [|id [|pw rest]]; try exact Hrefl.
    destruct (string_dec pw (auth_password (settings a))) as [Ep|Ep].
    2:{ now rewrite (handle_AUTH_wrong_password _ _ _ _ _ _ _ Ep). }
    destruct cur as [r0|].
    { unfold handle_AUTH. simpl. now rewrite Ep, String.eqb_refl. }
    rewrite (handle_AUTH_fresh a w p0 id pw rest Ep). simpl.
    unfold kept, valid_ref, deref in *; simpl. rewrite length_app.
    rewrite app_nth1 by assumption. repeat split; auto. lia.
  - (* ADD_VM *)
    unfold handle_ADD_VM. destruct cur as [r|]; [|exact Hrefl].
    destruct (nth_error (p0 :: rest) 1); [|exact Hrefl].
    destruct (negb _); [exact Hrefl|].
    destruct (_ <? 4)%nat; [exact Hrefl|].
    destruct (py_int _); [|exact Hrefl].
    destruct (py_int _); [|exact Hrefl].
    store_cases; simpl; [apply kept_add_vm_to_db | apply kept_with_db];
      repeat apply kept_assign; auto.
  - (* LIST_AUTHORIZED *)
    destruct (json_dumps_machine_rows _); exact Hrefl.
  - (* LIST_ALL *)
    destruct (json_dumps_machine_rows _); exact Hrefl.
  - (* LOGOUT *)
    unfold handle_LOGOUT. destruct cur as [r|]; [|exact Hrefl].
    store_cases; simpl;
      [apply kept_with_connected, kept_add_vm_to_db | apply kept_with_db];
      apply kept_assign; auto.
  - (* UPDATE_VM *)
    unfold handle_UPDATE_VM. destruct cur as [r|]; [|exact Hrefl].
    destruct (_ <? 3)%nat; [exact Hrefl|].
    destruct (py_int _); [|exact Hrefl].
    destruct (py_int _).
    + destruct (parse_disks _); store_cases; simpl;
        try apply kept_add_vm_to_db; try apply kept_with_db;
        repeat apply kept_assign; auto.
    + simpl. apply kept_assign; auto.
Qed.

End Frames.

(** X7. Whatever a connection reads, an object allocated before stays
    allocated and keeps its [vm_id] and its writer, and an object other than
    the one bound to the session is left exactly as it was: a session only
    ever writes to its own machine. *)
Theorem session_step_keeps_other_objects a w s data k :
  valid_ref a k ->
  let a' := fst (fst (session_step a w s data)) in
  valid_ref a' k /\
  vm_id (deref a' k) = vm_id (deref a k) /\
  writer (deref a' k) = writer (deref a k) /\
  (current_vm s <> Some k -> deref a' k = deref a k).
Proof.
  intros Hk. cbv zeta. fold (kept (current_vm s) k a (fst (fst (session_step a w s data)))).
  unfold session_step. destruct (closed s); [now apply kept_refl|].
  destruct data as [|c data].
  - simpl. destruct (current_vm s); simpl; [apply kept_with_connected|]; now apply kept_refl.
  - destruct (py_strip (String c data)) as [|c' m]; [now apply kept_refl|].
    pose proof (handle_message_kept a w (current_vm s) (py_split (String c' m)) k Hk) as H.
    destruct (handle_message a w (current_vm s) (py_split (String c' m)))
      as [a' cur' reply|a' cur']; simpl in *; [exact H|].
    destruct cur'; simpl; [apply kept_with_connected|]; exact H.
Qed.

Lemma session_step_keeps_other_objects_witness :
  let a1 := fst (fst (session_step app_vm1 2 new_session "AUTH vm2 secret
")) in
  let a2 := fst (fst (session_step a1 2 {| current_vm := Some 1%nat; closed := false |}
                        "ADD_VM vm2 64 8 d:1
")) in
  deref a2 0%nat = deref a1 0%nat /\ vm_id (deref a2 1%nat) = "vm2".
Proof.
  intros a1 a2.
  destruct (session_step_keeps_other_objects a1 2%nat
              {| current_vm := Some 1%nat; closed := false |} "ADD_VM vm2 64 8 d:1
" 0%nat ltac:(vm_compute; lia)) as (_ & _ & _ & H0).
  destruct (session_step_keeps_other_objects a1 2%nat
              {| current_vm := Some 1%nat; closed := false |} "ADD_VM vm2 64 8 d:1
" 1%nat ltac:(vm_compute; lia)) as (_ & H1 & _ & _).
  split; [apply H0; discriminate | exact H1].
Defined.

(** X8. Only AUTH and LOGOUT bind or unbind a session or write to the
    registry: every other line that gets a reply leaves the registry and the
    session as they were. *)
Theorem registry_written_by_auth_and_logout a w s data p0 rest a' s' reply :
  closed s = false -> tokens data = p0 :: rest ->
  Command_of_value (py_upper p0) <> Some AUTH ->
  Command_of_value (py_upper p0) <> Some LOGOUT ->
  session_step a w s data = (a', s', Some reply) ->
  connected_vms a' = connected_vms a /\ s' = s.
Proof.
  intros Hc Ht Hna Hnl. rewrite (session_step_tokens _ _ _ _ _ _ Hc Ht).
  pose proof (session_eta s (current_vm s) Hc eq_refl) as Hs.
  unfold handle_message.
  destruct (Command_of_value (py_upper p0)) as [[]|]; try congruence;
    try (intros [= <- <- <-]; now rewrite Hs).
  - unfold handle_ADD_VM.
    repeat match goal with
           | |- context [if ?b then _ else _] => destruct b
           | |- context [match current_vm s with _ => _ end] => destruct (current_vm s)
           | |- context [match nth_error ?l ?n with _ => _ end] => destruct (nth_error l n)
           | |- context [match py_int ?x with _ => _ end] => destruct (py_int x)
           end; try store_cases; try discriminate; intros [= <- <- <-]; now rewrite Hs.
  - destruct (json_dumps_machine_rows _); [|discriminate].
    intros [= <- <- <-]. now rewrite Hs.
  - destruct (json_dumps_machine_rows _); [|discriminate].
    intros [= <- <- <-]. now rewrite Hs.
  - unfold handle_UPDATE_VM.
    repeat match goal with
           | |- context [if ?b then _ else _] => destruct b
           | |- context [match current_vm s with _ => _ end] => destruct (current_vm s)
           | |- context [match py_int ?x with _ => _ end] => destruct (py_int x)
           | |- context [match parse_disks ?x with _ => _ end] => destruct (parse_disks x)
           end; try store_cases; try discriminate; intros [= <- <- <-]; now rewrite Hs.
Qed.

Lemma registry_written_by_auth_and_logout_witness :
  connected_vms (fst (fst (session_step app_vm1 1 session_vm1 "UPDATE_VM 7 7 d:1
"))) = connected_vms app_vm1.
Proof.
  exact (proj1 (registry_written_by_auth_and_logout app_vm1 1%nat session_vm1
                  "UPDATE_VM 7 7 d:1
" "UPDATE_VM" ["7"; "7"; "d:1"] _ _ _ eq_refl eq_refl
                  ltac:(discriminate) ltac:(discriminate) eq_refl)).
Defined.

(** ** The store over time *)

Section StoreEvolution.

Lemma in_keys_upsert_disk row t k :
  In k (map disk_id (upsert_disk row t)) <-> k = disk_id row \/ In k (map disk_id t).
Proof. apply (in_keys_replace disk_id). Qed.

Lemma in_upsert_disk row t d : In d (upsert_disk row t) -> d = row \/ In d t.
Proof. apply (in_replace disk_id). Qed.

Lemma NoDup_upsert_disk row t :
  NoDup (map disk_id t) -> NoDup (map disk_id (upsert_disk row t)).
Proof. apply (NoDup_keys_replace disk_id). Qed.

Lemma find_upsert_disk_same row t :
  find (fun r => disk_id r == disk_id row) (upsert_disk row t) = Some row.
Proof. apply (find_replace_same disk_id). Qed.

Lemma find_upsert_disk_other row t d :
  d <> disk_id row ->
  find (fun r => disk_id r == d) (upsert_disk row t) = find (fun r => disk_id r == d) t.
Proof. apply (find_replace_other disk_id). Qed.

Lemma in_keys_upsert_disks id ds t k :
  In k (map disk_id (upsert_disks id ds t)) <-> In k (map fst ds) \/ In k (map disk_id t).
Proof.
  unfold upsert_disks. revert t. induction ds as [|[d c] ds IH]; intros t; simpl.
  - intuition.
  - rewrite IH, in_keys_upsert_disk. simpl. intuition.
Qed.

Lemma in_upsert_disks id ds t d :
  In d (upsert_disks id ds t) -> disk_vm_id d = id \/ In d t.
Proof.
  unfold upsert_disks. revert t. induction ds as [|[d0 c] ds IH]; intros t; simpl; auto.
  intros H. destruct (IH _ H) as [?|Hin]; auto.
  apply in_upsert_disk in Hin as [->|?]; auto.
Qed.

Lemma NoDup_upsert_disks id ds t :
  NoDup (map disk_id t) -> NoDup (map disk_id (upsert_disks id ds t)).
Proof.
  unfold upsert_disks. revert t. induction ds as [|[d c] ds IH]; intros t H; simpl; auto.
  apply IH. now apply NoDup_upsert_disk.
Qed.

(** The row of a disk id is the one of its last declaration. *)
Lemma find_upsert_disks_last id l1 d c l2 t :
  ~ In d (map fst l2) ->
  find (fun r => disk_id r == d) (upsert_disks id (l1 ++ (d, c) :: l2) t) =
  Some {| disk_id := d; capacity := c; disk_vm_id := id |}.
Proof.
  intros Hnin. unfold upsert_disks. rewrite fold_left_app. simpl.
  generalize (fold_left
                (fun t0 (disk : string * Z) =>
                   let '(disk_id, capacity) := disk in
                   upsert_disk {| disk_id := disk_id; capacity := capacity;
                                  disk_vm_id := id |} t0) l1 t).
  intros t1.
  assert (H : find (fun r => disk_id r == d)
                (upsert_disk {| disk_id := d; capacity := c; disk_vm_id := id |} t1)
              = Some {| disk_id := d; capacity := c; disk_vm_id := id |})
    by apply (find_upsert_disk_same {| disk_id := d; capacity := c; disk_vm_id := id |}).
  revert H. generalize (upsert_disk {| disk_id := d; capacity := c; disk_vm_id := id |} t1).
  induction l2 as [|[d' c'] l2 IH]; intros t2 H; simpl; [exact H|].
  apply IH.
  - intros Hin. apply Hnin. simpl. auto.
  - rewrite find_upsert_disk_other; [exact H|]. simpl. intros ->. apply Hnin. simpl. auto.
Qed.

Lemma disks_table_add_vm_to_db s vm :
  disks_table (add_vm_to_db_store s vm) = upsert_disks (vm_id vm) (disks vm) (disks_table s).
Proof. reflexivity. Qed.

(** A command writes to the store through [add_vm_to_db] or not at all. *)
Lemma handle_message_db a w cur parts :
  let a' := result_app (handle_message a w cur parts) in
  db a' = db a \/ exists vm, db a' = add_vm_to_db_store (db a) vm.
Proof.
  cbv zeta. unfold handle_message. destruct parts as [|p0 rest]; [now left|].
  assert (Hraised : forall s' id (a0 : ServerApp),
             db a0 = db a ->
             s' = db a0 \/ (exists vm', vm_id vm' = id /\ s' = add_vm_to_db_store (db a0) vm') ->
             s' = db a \/ exists vm, s' = add_vm_to_db_store (db a) vm).
  { intros s' id a0 -> [->|(vm' & _ & ->)]; eauto. }
  destruct (Command_of_value (py_upper p0)) as [[]|]; try (now left).
  - destruct rest as [|id [|pw rest]]; try (now left).
    destruct (string_dec pw (auth_password (settings a))) as [Ep|Ep].
    2:{ rewrite (handle_AUTH_wrong_password _ _ _ _ _ _ _ Ep). now left. }
    destruct cur as [r0|].
    { unfold handle_AUTH. simpl. rewrite Ep, String.eqb_refl. now left. }
    rewrite (handle_AUTH_fresh a w p0 id pw rest Ep). right. eexists. reflexivity.
  - unfold handle_ADD_VM.
    repeat match goal with
           | |- context [if ?b then _ else _] => destruct b
           | |- context [match cur with _ => _ end] => destruct cur
           | |- context [match nth_error ?l ?n with _ => _ end] => destruct (nth_error l n)
           | |- context [match py_int ?x with _ => _ end] => destruct (py_int x)
           end; try (now left).
    store_cases; [right; eexists; reflexivity|].
    simpl. eapply Hraised; [|exact Hs']. reflexivity.
  - destruct (json_dumps_machine_rows _); now left.
  - destruct (json_dumps_machine_rows _); now left.
  - unfold handle_LOGOUT. destruct cur; [|now left].
    store_cases; [right; eexists; reflexivity|].
    simpl. eapply Hraised; [|exact Hs']. reflexivity.
  - unfold handle_UPDATE_VM.
    repeat match goal with
           | |- context [if ?b then _ else _] => destruct b
           | |- context [match cur with _ => _ end] => destruct cur
           | |- context [match py_int ?x with _ => _ end] => destruct (py_int x)
           | |- context [match parse_disks ?x with _ => _ end] => destruct (parse_disks x)
           end; try (now left);
      (store_cases; [right; eexists; reflexivity|]);
      simpl; (eapply Hraised; [|exact Hs']); reflexivity.
Qed.

Lemma session_step_db a w s data :
  let a' := fst (fst (session_step a w s data)) in
  db a' = db a \/ exists vm, db a' = add_vm_to_db_store (db a) vm.
Proof.
  cbv zeta. unfold session_step. destruct (closed s); [now left|].
  destruct data as [|c data].
  - simpl. left. apply finally_block_keeps_store.
  - destruct (py_strip (String c data)) as [|c' m]; [now left|].
    pose proof (handle_message_db a w (current_vm s) (py_split (String c' m))) as H.
    destruct (handle_message a w (current_vm s) (py_split (String c' m)))
      as [a' cur' reply|a' cur']; simpl in *; [exact H|].
    now rewrite (proj1 (finally_block_keeps_store a' cur')).
Qed.

(** A property of the store that [add_vm_to_db] keeps holds along every
    schedule. *)
Lemma store_invariant_run (P : Store -> Prop) :
  (forall s vm, P s -> P (add_vm_to_db_store s vm)) ->
  forall evs wd, P (db (app wd)) -> P (db (app (run_world wd evs))).
Proof.
  intros Hstep. induction evs as [|[w data] evs IH]; intros wd H; [exact H|].
  rewrite run_world_cons. apply IH. unfold world_step.
  pose proof (session_step_db (app wd) w (session_of w (sessions wd)) data) as Hdb.
  destruct (session_step (app wd) w (session_of w (sessions wd)) data) as [[a' s'] reply].
  simpl in *. destruct Hdb as [->|[vm ->]]; auto.
Qed.

Lemma store_fk_add_vm_to_db s vm : store_fk s -> store_fk (add_vm_to_db_store s vm).
Proof.
  intros Hfk d Hin. simpl. apply in_keys_upsert_machine. simpl.
  simpl in Hin. apply in_upsert_disks in Hin as [->|Hin]; auto.
Qed.

Lemma disks_pk_add_vm_to_db s vm : disks_pk s -> disks_pk (add_vm_to_db_store s vm).
Proof. intros H. apply (NoDup_upsert_disks (vm_id vm) (disks vm)), H. Qed.

Lemma find_machine_in id t :
  In id (map row_vm_id t) ->
  exists v, find (fun v => row_vm_id v == id) t = Some v /\ row_vm_id v = id.
Proof.
  induction t as [|r0 t IH]; simpl; [intros []|].
  destruct (row_vm_id r0 == id) eqn:E.
  - apply String.eqb_eq in E. eauto.
  - intros [H|H]; [apply String.eqb_neq in E; congruence | auto].
Qed.

End StoreEvolution.

(** X9. Nothing is ever deleted from the store: along every schedule of
    reads on every connection, a machine id that has a row keeps a row, and
    so does a disk id. *)
Theorem store_rows_never_deleted wd evs :
  (forall id, In id (map row_vm_id (list_all_vms (app wd))) ->
              In id (map row_vm_id (list_all_vms (app (run_world wd evs))))) /\
  (forall d, In d (map disk_id (disks_table (db (app wd)))) ->
             In d (map disk_id (disks_table (db (app (run_world wd evs)))))).
Proof.
  split.
  - intros id Hin. unfold list_all_vms.
    apply (store_invariant_run (fun s => In id (map row_vm_id (virtual_machines s)))); auto.
    intros s vm H. simpl. apply in_keys_upsert_machine. auto.
  - intros d Hin.
    apply (store_invariant_run (fun s => In d (map disk_id (disks_table s)))); auto.
    intros s vm H. rewrite disks_table_add_vm_to_db. apply in_keys_upsert_disks. auto.
Qed.

(** X10. If every disk row of the store refers to a machine row when the
    server starts serving, this stays so along every schedule, and every row
    LIST_DISKS returns names its owner: [vm_associated] is never null. *)
Theorem list_disks_owner_never_null wd evs row :
  store_fk (db (app wd)) ->
  In row (list_all_disks (app (run_world wd evs))) ->
  vm_associated row = Some (disk_vm_id (j_disk row)).
Proof.
  intros Hfk Hin.
  assert (Hfk' : store_fk (db (app (run_world wd evs))))
    by (apply (store_invariant_run store_fk); auto using store_fk_add_vm_to_db).
  unfold list_all_disks in Hin. apply in_map_iff in Hin as (d & <- & Hd). simpl.
  destruct (find_machine_in _ _ (Hfk' d Hd)) as (v & -> & ->). reflexivity.
Qed.

Lemma list_disks_owner_never_null_witness :
  vm_associated
    {| j_disk := {| disk_id := "d1"; capacity := 100; disk_vm_id := "vm1" |};
       vm_associated := Some "vm1" |} = Some "vm1".
Proof.
  apply (list_disks_owner_never_null (World_init default_settings empty_store)
           [(1%nat, "AUTH vm1 secret
"); (1%nat, "ADD_VM vm1 2048 2 d1:100
")]).
  - intros d [].
  - vm_compute. left. reflexivity.
Defined.

(** X11. Disk ids are global and the last writer wins.  After an ADD_VM
    that names the bound machine, with ram, cpu and capacities that are
    integers within the 32 bits of the store's columns, the row of a disk id
    the line declares carries the capacity of its last declaration on the
    line and the sending machine as owner, whoever owned it before, and
    LIST_DISKS shows it so; with [disk_id] a key of the table, no other row
    has that disk id. *)
Theorem add_vm_takes_disk_ownership a w s r data p0 id rs cs dtoks ram cpu l1 d c l2 :
  valid_ref a r -> disks_pk (db a) ->
  closed s = false -> current_vm s = Some r ->
  tokens data = p0 :: id :: rs :: cs :: dtoks ->
  Command_of_value (py_upper p0) = Some ADD_VM ->
  id = vm_id (deref a r) -> py_int rs = Some ram -> py_int cs = Some cpu ->
  int32 ram = true -> int32 cpu = true ->
  forallb (fun disk => int32 (snd disk)) (parse_disks dtoks) = true ->
  parse_disks dtoks = (l1 ++ (d, c) :: l2)%list -> ~ In d (map fst l2) ->
  let a' := fst (fst (session_step a w s data)) in
  let row := {| disk_id := d; capacity := c; disk_vm_id := id |} in
  In {| j_disk := row; vm_associated := Some id |} (list_all_disks a') /\
  (forall j, In j (list_all_disks a') -> disk_id (j_disk j) = d -> j_disk j = row).
Proof.
  intros Hv Hpk Hc Hcur Ht Hcmd Hid Hr Hcp Hir Hic Hids Hp Hnin a' row.
  destruct (handle_ADD_VM_ok a r p0 id rs cs dtoks ram cpu Hv Hid Hr Hcp Hir Hic Hids)
    as (a1 & Hres & Hd & _ & _ & Hdb).
  assert (Ea : a' = a1).
  { unfold a'. by_tokens Hc Ht Hcmd. now rewrite Hcur, Hres. }
  assert (Hvm : vm_id (deref a1 r) = id) by (rewrite Hd; simpl; congruence).
  assert (Hds : disks (deref a1 r) = (l1 ++ (d, c) :: l2)%list) by (rewrite Hd; simpl; exact Hp).
  assert (Hfind : find (fun x => disk_id x == d) (disks_table (db a1)) = Some row).
  { rewrite Hdb, disks_table_add_vm_to_db, Hvm, Hds. now apply find_upsert_disks_last. }
  assert (Hin : In row (disks_table (db a1))) by (apply find_some in Hfind; tauto).
  assert (Hpk1 : disks_pk (db a1)) by (rewrite Hdb; now apply disks_pk_add_vm_to_db).
  rewrite Ea. split.
  - unfold list_all_disks. apply in_map_iff. exists row. split; [|exact Hin].
    f_equal. simpl.
    assert (Hm : In id (map row_vm_id (virtual_machines (db a1)))).
    { rewrite Hdb. simpl. apply in_keys_upsert_machine. left. simpl. now rewrite Hvm. }
    destruct (find_machine_in _ _ Hm) as (v & -> & ->). reflexivity.
  - intros j Hj Hjd. unfold list_all_disks in Hj.
    apply in_map_iff in Hj as (x & <- & Hx). simpl in *.
    apply (NoDup_map_eq disk_id (disks_table (db a1))); auto.
Qed.

Lemma add_vm_takes_disk_ownership_witness :
  let a1 := fst (fst (session_step app_vm1 1 session_vm1 "ADD_VM vm1 1 1 dX:10
")) in
  let a2 := fst (fst (session_step a1 2 new_session "AUTH vm2 secret
")) in
  let a3 := fst (fst (session_step a2 2 {| current_vm := Some 1%nat; closed := false |}
                        "ADD_VM vm2 1 1 dX:20
")) in
  In {| j_disk := {| disk_id := "dX"; capacity := 20; disk_vm_id := "vm2" |};
        vm_associated := Some "vm2" |} (list_all_disks a3).
Proof.
  intros a1 a2 a3.
  apply (add_vm_takes_disk_ownership a2 2%nat {| current_vm := Some 1%nat; closed := false |}
           1%nat "ADD_VM vm2 1 1 dX:20
" "ADD_VM" "vm2" "1" "1" ["dX:20"] 1 1 [] "dX" 20 []);
    try reflexivity.
  - vm_compute. lia.
  - vm_compute. constructor; [intros []|constructor].
  - intros [].
Defined.

(** ** The registry and LIST_CONNECTED *)

(** X12. Two connections with no machine bound that authenticate under
    two different machine ids are both filed: after the two AUTH lines both
    sessions are open and bound, and LIST_CONNECTED shows both machines, each
    with ram 0, cpu 0, no disks and [authorized] set. *)
Theorem distinct_ids_both_connected wd c1 c2 l1 l2 p1 p2 id1 id2 pw1 pw2 rest1 rest2 :
  c1 <> c2 -> id1 <> id2 ->
  session_of c1 (sessions wd) = new_session ->
  session_of c2 (sessions wd) = new_session ->
  tokens l1 = p1 :: id1 :: pw1 :: rest1 ->
  tokens l2 = p2 :: id2 :: pw2 :: rest2 ->
  Command_of_value (py_upper p1) = Some AUTH ->
  Command_of_value (py_upper p2) = Some AUTH ->
  pw1 = auth_password (settings (app wd)) ->
  pw2 = auth_password (settings (app wd)) ->
  let both := run_world wd [(c1, l1); (c2, l2)] in
  let shown id := {| d_vm_id := id; d_ram := 0; d_cpu := 0; d_disks := [];
                     d_authorized := true |} in
  In (shown id1) (list_connected_vms (app both)) /\
  In (shown id2) (list_connected_vms (app both)) /\
  (exists r1 r2,
     r1 <> r2 /\
     session_of c1 (sessions both) = {| current_vm := Some r1; closed := false |} /\
     session_of c2 (sessions both) = {| current_vm := Some r2; closed := false |}).
Proof.
  intros Hne Hid Hs1 Hs2 Ht1 Ht2 Hc1 Hc2 Hp1 Hp2 both shown.
  set (r1 := length (objects (app wd))).
  set (wd1 := fst (world_step wd (c1, l1))).
  assert (E1 : wd1 = _) by (apply (world_step_auth wd c1 l1 p1 id1 pw1 rest1); assumption).
  cbv zeta in E1. fold r1 in E1.
  assert (Hs2' : session_of c2 (sessions wd1) = new_session).
  { rewrite E1. simpl. rewrite session_of_put_other by congruence. exact Hs2. }
  assert (Hp2' : pw2 = auth_password (settings (app wd1))) by (rewrite E1; exact Hp2).
  assert (E2 : fst (world_step wd1 (c2, l2)) = _)
    by (apply (world_step_auth wd1 c2 l2 p2 id2 pw2 rest2); assumption).
  cbv zeta in E2.
  assert (Hlen : length (objects (app wd1)) = S r1).
  { rewrite E1. simpl. rewrite length_app. simpl. fold r1. lia. }
  rewrite Hlen in E2.
  assert (Hboth : both = fst (world_step wd1 (c2, l2))).
  { unfold both. now rewrite !run_world_cons. }
  rewrite E2 in Hboth. rewrite Hboth. unfold list_connected_vms. simpl.
  split; [|split].
  - apply in_map_iff. exists (id1, r1). split.
    + simpl. unfold deref. simpl. rewrite app_nth1 by lia.
      rewrite E1. simpl. fold r1. rewrite app_nth2, Nat.sub_diag by (fold r1; lia).
      reflexivity.
    + apply dict_get_in. rewrite dict_get_set_other by congruence.
      rewrite E1. simpl. apply dict_get_set_same.
  - apply in_map_iff. exists (id2, S r1). split.
    + simpl. unfold deref. simpl. rewrite app_nth2 by lia.
      rewrite Hlen, Nat.sub_diag. reflexivity.
    + apply dict_get_in, dict_get_set_same.
  - exists r1, (S r1). split; [lia|]. split.
    + rewrite session_of_put_other by congruence.
      rewrite E1. simpl. apply session_of_put_same.
    + apply session_of_put_same.
Qed.

Lemma distinct_ids_both_connected_witness :
  let both := run_world (World_init default_settings empty_store)
                [(1%nat, "AUTH vm1 secret
"); (2%nat, "AUTH vm2 secret
")] in
  In {| d_vm_id := "vm1"; d_ram := 0; d_cpu := 0; d_disks := []; d_authorized := true |}
     (list_connected_vms (app both)) /\
  In {| d_vm_id := "vm2"; d_ram := 0; d_cpu := 0; d_disks := []; d_authorized := true |}
     (list_connected_vms (app both)).
Proof.
  intros both.
  destruct (distinct_ids_both_connected (World_init default_settings empty_store)
              1%nat 2%nat "AUTH vm1 secret
" "AUTH vm2 secret
" "AUTH" "AUTH" "vm1" "vm2" "secret" "secret" [] []
              ltac:(discriminate) ltac:(discriminate)
              eq_refl eq_refl eq_refl eq_refl eq_refl eq_refl eq_refl eq_refl)
    as (H1 & H2 & _).
  split; assumption.
Defined.

(** X13. In every state the server reaches, LIST_CONNECTED shows one
    machine per registry entry, in registry order and under the entry's key,
    so no machine id is shown twice. *)
Theorem list_connected_ids_distinct wd evs :
  world_ok wd ->
  let a := app (run_world wd evs) in
  map d_vm_id (list_connected_vms a) = map fst (connected_vms a) /\
  NoDup (map d_vm_id (list_connected_vms a)).
Proof.
  intros Hok a.
  destruct (run_world_ok wd evs Hok) as [[[Hnd Hreg] _] _]. fold a in Hnd, Hreg.
  assert (E : map d_vm_id (list_connected_vms a) = map fst (connected_vms a)).
  { unfold list_connected_vms. rewrite map_map. apply map_ext_in.
    intros [k r] Hin. simpl. now destruct (Hreg k r Hin). }
  split; [exact E | now rewrite E].
Qed.

Lemma list_connected_ids_distinct_witness :
  NoDup (map d_vm_id
           (list_connected_vms
              (app (run_world (World_init default_settings empty_store)
                      [(1%nat, "AUTH vm1 secret
"); (2%nat, "AUTH vm1 secret
"); (3%nat, "AUTH vm3 secret
")])))).
Proof.
  apply (list_connected_ids_distinct (World_init default_settings empty_store)).
  apply (reachable_world_ok default_settings empty_store []). constructor.
Defined.

(** ** Store and memory after a success *)

Section Mirror.

Lemma mirror_add_vm_to_db a r :
  let a' := add_vm_to_db_done a r in
  find (fun v => row_vm_id v == vm_id (deref a' r)) (list_all_vms a') =
  Some {| row_vm_id := vm_id (deref a' r); row_ram := ram (deref a' r);
          row_cpu := cpu (deref a' r); row_authorized := authorized (deref a' r) |}.
Proof.
  cbv zeta. unfold list_all_vms. rewrite deref_add_vm_to_db.
  rewrite virtual_machines_add_vm_to_db.
  apply (find_upsert_machine
           {| row_vm_id := vm_id (deref a r); row_ram := ram (deref a r);
              row_cpu := cpu (deref a r); row_authorized := authorized (deref a r) |}).
Qed.

End Mirror.

(** X14. Every confirmation comes with the store in step with memory: right
    after a successful AUTH, ADD_VM, UPDATE_VM or LOGOUT, the store row of
    the machine id named in the reply carries the ram, cpu and [authorized]
    flag of the machine object the command worked on. *)
Theorem store_mirrors_machine_on_success a w s data a' s' reply id r :
  closed s = false ->
  session_step a w s data = (a', s', Some reply) ->
  reply = AuthOk id \/ reply = AddOk id \/ reply = UpdateOk id \/ reply = LogoutOk id ->
  current_vm s' = Some r \/ (reply = LogoutOk id /\ current_vm s = Some r) ->
  vm_id (deref a' r) = id /\
  find (fun v => row_vm_id v == id) (list_all_vms a') =
  Some {| row_vm_id := id; row_ram := ram (deref a' r); row_cpu := cpu (deref a' r);
          row_authorized := authorized (deref a' r) |}.
Proof.
  intros Hc. unfold session_step. rewrite Hc.
  destruct data as [|c data]; [discriminate|].
  destruct (py_strip (String c data)) as [|c' m]; [discriminate|].
  generalize (py_split (String c' m)). intros parts.
  unfold handle_message. destruct parts as [|p0 rest]; [discriminate|].
  destruct (Command_of_value (py_upper p0)) as [[]|];
    try (intros [= <- <- <-] [?|[?|[?|?]]]; discriminate).
  - (* AUTH *)
    destruct rest as [|id0 [|pw rest]];
      try (intros [= <- <- <-] [?|[?|[?|?]]]; discriminate).
    destruct (string_dec pw (auth_password (settings a))) as [Ep|Ep].
    2:{ rewrite (handle_AUTH_wrong_password _ _ _ _ _ _ _ Ep).
        intros [= <- <- <-] [?|[?|[?|?]]]; discriminate. }
    destruct (current_vm s) as [r0|].
    { unfold handle_AUTH. simpl. rewrite Ep, String.eqb_refl.
      intros [= <- <- <-] [?|[?|[?|?]]]; discriminate. }
    rewrite (handle_AUTH_fresh a w p0 id0 pw rest Ep). cbv zeta.
    intros [= <- <- <-] [[= <-]|[?|[?|?]]]; try discriminate.
    intros [[= <-]|[? _]]; [|discriminate].
    unfold deref, list_all_vms. simpl. rewrite app_nth2, Nat.sub_diag by auto. simpl.
    split; [reflexivity|].
    apply (find_upsert_machine
             {| row_vm_id := id0; row_ram := 0; row_cpu := 0; row_authorized := true |}).
  - (* ADD_VM *)
    unfold handle_ADD_VM. destruct (current_vm s) as [r0|];
      [|intros [= <- <- <-] [?|[?|[?|?]]]; discriminate].
    destruct (nth_error (p0 :: rest) 1); [|discriminate].
    destruct (negb _); [intros [= <- <- <-] [?|[?|[?|?]]]; discriminate|].
    destruct (_ <? 4)%nat; [intros [= <- <- <-] [?|[?|[?|?]]]; discriminate|].
    destruct (py_int _); [|intros [= <- <- <-] [?|[?|[?|?]]]; discriminate].
    destruct (py_int _); [|intros [= <- <- <-] [?|[?|[?|?]]]; discriminate].
    store_cases; [|discriminate].
    intros [= <- <- <-] [?|[[= <-]|[?|?]]]; try discriminate.
    intros [[= <-]|[? _]]; [|discriminate].
    split; [reflexivity|]. apply mirror_add_vm_to_db.
  - (* LIST_AUTHORIZED *)
    destruct (json_dumps_machine_rows _); [|discriminate].
    intros [= <- <- <-] [?|[?|[?|?]]]; discriminate.
  - (* LIST_ALL *)
    destruct (json_dumps_machine_rows _); [|discriminate].
    intros [= <- <- <-] [?|[?|[?|?]]]; discriminate.
  - (* LOGOUT *)
    unfold handle_LOGOUT. destruct (current_vm s) as [r0|];
      [|intros [= <- <- <-] [?|[?|[?|?]]]; discriminate].
    store_cases; [|discriminate].
    intros [= <- <- <-] [?|[?|[?|[= <-]]]]; try discriminate.
    intros [?|[_ [= <-]]]; [discriminate|].
    split; [reflexivity|].
    apply (mirror_add_vm_to_db (assign r0 (set_authorized false) a) r0).
  - (* UPDATE_VM *)
    unfold handle_UPDATE_VM. destruct (current_vm s) as [r0|];
      [|intros [= <- <- <-] [?|[?|[?|?]]]; discriminate].
    destruct (_ <? 3)%nat; [intros [= <- <- <-] [?|[?|[?|?]]]; discriminate|].
    destruct (py_int _); [|intros [= <- <- <-] [?|[?|[?|?]]]; discriminate].
    destruct (py_int _); [|intros [= <- <- <-] [?|[?|[?|?]]]; discriminate].
    store_cases; [|discriminate].
    intros [= <- <- <-] [?|[?|[[= <-]|?]]]; try discriminate.
    intros [[= <-]|[? _]]; [|discriminate].
    split; [reflexivity|]. apply mirror_add_vm_to_db.
Qed.

Lemma store_mirrors_machine_on_success_witness :
  find (fun v => row_vm_id v == "vm1")
       (list_all_vms (fst (fst (session_step app_vm1 1 session_vm1 "UPDATE_VM 4096 4
")))) =
  Some {| row_vm_id := "vm1"; row_ram := 4096; row_cpu := 4; row_authorized := true |}.
Proof.
  exact (proj2 (store_mirrors_machine_on_success app_vm1 1%nat session_vm1
                  "UPDATE_VM 4096 4
" _ _ _ "vm1" 0%nat eq_refl eq_refl
                  (or_intror (or_intror (or_introl eq_refl))) (or_introl eq_refl))).
Defined.

(** ** Tokens *)

Section Tokens.

Lemma append_nil_r_local (s : string) : s ++ "" = s.
Proof. induction s as [|c s IH]; simpl; [reflexivity | now rewrite IH]. Qed.

Lemma append_assoc_local (s t u : string) : (s ++ t) ++ u = s ++ (t ++ u).
Proof. induction s as [|c s IH]; simpl; [reflexivity | now rewrite IH]. Qed.

Lemma split_from_lstrip s : split_from (lstrip py_isspace s) None = split_from s None.
Proof.
  induction s as [|c s IH]; simpl; [reflexivity|].
  destruct (py_isspace c) eqn:E; [exact IH|]. simpl. now rewrite E.
Qed.

Lemma split_from_rstrip s cur :
  split_from (rstrip py_isspace s) cur = split_from s cur.
Proof.
  revert cur. induction s as [|c s IH]; intros cur; simpl; [reflexivity|].
  destruct (rstrip py_isspace s) as [|c' t] eqn:Er.
  - destruct (py_isspace c) eqn:E; simpl.
    + destruct cur; rewrite <- IH; reflexivity.
    + rewrite E. rewrite <- IH. reflexivity.
  - simpl in IH. simpl. destruct (py_isspace c).
    + destruct cur; rewrite <- IH; reflexivity.
    + rewrite <- IH. reflexivity.
Qed.

(** [strip()] before [split()] changes nothing. *)
Lemma tokens_py_split data : tokens data = py_split data.
Proof.
  unfold tokens, py_strip, py_split. now rewrite split_from_rstrip, split_from_lstrip.
Qed.

Lemma split_from_nonspace t s w :
  all_chars (fun c => negb (py_isspace c)) t = true ->
  split_from (t ++ s) (Some w) = split_from s (Some (w ++ t)).
Proof.
  revert w. induction t as [|c t IH]; intros w H; simpl.
  - now rewrite append_nil_r_local.
  - simpl in H. apply andb_prop in H as [Hc Ht].
    apply negb_true_iff in Hc. rewrite Hc. rewrite (IH _ Ht).
    now rewrite append_assoc_local.
Qed.

End Tokens.

Section TokensRoundTrip.

Lemma split_from_token t s :
  is_token t = true -> split_from (t ++ s) None = split_from s (Some t).
Proof.
  destruct t as [|c t]; [discriminate|]. simpl. intros H.
  apply andb_prop in H as [Hc Ht]. apply negb_true_iff in Hc. rewrite Hc.
  now rewrite (split_from_nonspace t s _ Ht).
Qed.

Lemma split_from_newline s cur :
  split_from (s ++ String "010" EmptyString) cur = split_from s cur.
Proof.
  revert cur. induction s as [|c s IH]; intros cur; simpl.
  - destruct cur; reflexivity.
  - destruct (py_isspace c); [destruct cur|]; now rewrite IH.
Qed.

Lemma py_split_unwords parts :
  Forall (fun t => is_token t = true) parts -> py_split (unwords parts) = parts.
Proof.
  unfold py_split. induction 1 as [|p rest Hp Hrest IH]; [reflexivity|].
  destruct rest as [|q rest].
  - simpl. rewrite <- (append_nil_r_local p) at 1. now rewrite split_from_token.
  - change (unwords (p :: q :: rest)) with (p ++ String " " (unwords (q :: rest))).
    rewrite split_from_token by assumption.
    change (split_from (String " " (unwords (q :: rest))) (Some p))
      with (p :: split_from (unwords (q :: rest)) None).
    now rewrite IH.
Qed.

Lemma all_chars_app p s t :
  all_chars p (s ++ t) = all_chars p s && all_chars p t.
Proof.
  induction s as [|c s IH]; simpl; [reflexivity|]. now rewrite IH, andb_assoc.
Qed.

Lemma is_token_snoc w c :
  is_token w = true -> py_isspace c = false -> is_token (w ++ String c EmptyString) = true.
Proof.
  destruct w as [|c0 w]; [discriminate|]. simpl. intros H Hc.
  apply andb_prop in H as [H0 Hw]. rewrite H0. simpl.
  rewrite all_chars_app, Hw. simpl. now rewrite Hc.
Qed.

Lemma split_from_tokens s cur :
  (forall w, cur = Some w -> is_token w = true) ->
  Forall (fun t => is_token t = true) (split_from s cur).
Proof.
  revert cur. induction s as [|c s IH]; intros cur Hcur; simpl.
  - destruct cur as [w|]; [constructor; auto|constructor].
  - destruct (py_isspace c) eqn:E.
    + destruct cur as [w|].
      * constructor; [auto|]. apply IH. discriminate.
      * apply IH. discriminate.
    + apply IH. intros w' [= <-]. destruct cur as [w|].
      * apply is_token_snoc; auto.
      * simpl. now rewrite E.
Qed.

End TokensRoundTrip.

(** X15. What the client writes is what the handler reads: for words that
    are not empty and hold no white space, the line the client builds from
    them (the words joined by single spaces, then a newline) is split by the
    handler into exactly these words. *)
Theorem tokens_of_client_line parts :
  Forall (fun t => is_token t = true) parts ->
  tokens (client_line (unwords parts)) = parts.
Proof.
  intros H. rewrite tokens_py_split. unfold client_line, py_split.
  rewrite split_from_newline. now apply py_split_unwords.
Qed.

Lemma tokens_of_client_line_witness :
  tokens (client_line "ADD_VM vm1 2048 2 d1:100") = ["ADD_VM"; "vm1"; "2048"; "2"; "d1:100"].
Proof.
  apply (tokens_of_client_line ["ADD_VM"; "vm1"; "2048"; "2"; "d1:100"]).
  repeat constructor.
Defined.

(** X16. The tokens of a line are never empty and never hold white space,
    however the line is spaced; with [strip()] or without, the split is the
    same. *)
Theorem tokens_are_words data :
  Forall (fun t => is_token t = true) (tokens data) /\ tokens data = py_split data.
Proof.
  split; [|apply tokens_py_split].
  rewrite tokens_py_split. apply split_from_tokens. discriminate.
Qed.

(** ** Malformed lines that change nothing *)

(** X17. Four kinds of malformed line are answered with their error line
    and leave process state and session exactly as they were: AUTH with
    fewer than three tokens; ADD_VM for the bound machine with at least four
    tokens whose ram or cpu token is not an integer; UPDATE_VM with fewer than
    three tokens; UPDATE_VM whose ram token is not an integer. *)
Theorem malformed_lines_change_nothing a w s data p0 :
  closed s = false ->
  (forall rest,
     tokens data = p0 :: rest -> Command_of_value (py_upper p0) = Some AUTH ->
     (length rest < 2)%nat ->
     session_step a w s data = (a, s, Some AuthMissingArgs)) /\
  (forall r id rs cs dtoks,
     tokens data = p0 :: id :: rs :: cs :: dtoks ->
     Command_of_value (py_upper p0) = Some ADD_VM ->
     current_vm s = Some r -> id = vm_id (deref a r) ->
     py_int rs = None \/ py_int cs = None ->
     session_step a w s data = (a, s, Some BadArgument)) /\
  (forall r rest,
     tokens data = p0 :: rest -> Command_of_value (py_upper p0) = Some UPDATE_VM ->
     current_vm s = Some r -> (length rest < 2)%nat ->
     session_step a w s data = (a, s, Some UpdateMissingArgs)) /\
  (forall r rs cs rest,
     tokens data = p0 :: rs :: cs :: rest ->
     Command_of_value (py_upper p0) = Some UPDATE_VM ->
     current_vm s = Some r -> py_int rs = None ->
     session_step a w s data = (a, s, Some BadArgument)).
Proof.
  intros Hc. pose proof (session_eta s (current_vm s) Hc eq_refl) as Hs.
  split; [|split; [|split]].
  - intros rest Ht Hcmd Hlen. by_tokens Hc Ht Hcmd. unfold handle_AUTH.
    assert (E : (length (p0 :: rest) <? 3)%nat = true) by (apply Nat.ltb_lt; simpl; lia).
    rewrite E. now rewrite Hs.
  - intros r id rs cs dtoks Ht Hcmd Hcur -> Hbad. by_tokens Hc Ht Hcmd.
    unfold handle_ADD_VM. rewrite Hcur. simpl nth_error. cbv iota.
    rewrite String.eqb_refl. simpl.
    destruct Hbad as [-> | Hcs].
    + now rewrite <- Hcur, Hs.
    + rewrite Hcs. destruct (py_int rs); now rewrite <- Hcur, Hs.
  - intros r rest Ht Hcmd Hcur Hlen. by_tokens Hc Ht Hcmd. unfold handle_UPDATE_VM.
    rewrite Hcur.
    assert (E : (length (p0 :: rest) <? 3)%nat = true) by (apply Nat.ltb_lt; simpl; lia).
    rewrite E. now rewrite <- Hcur, Hs.
  - intros r rs cs rest Ht Hcmd Hcur Hrs. by_tokens Hc Ht Hcmd. unfold handle_UPDATE_VM.
    rewrite Hcur. simpl. rewrite Hrs. now rewrite <- Hcur, Hs.
Qed.

Lemma malformed_lines_change_nothing_witness :
  session_step app_vm1 1 session_vm1 "ADD_VM vm1 2048 two d1:100
" = (app_vm1, session_vm1, Some BadArgument) /\
  session_step app_vm1 1 session_vm1 "UPDATE_VM x 5
" = (app_vm1, session_vm1, Some BadArgument).
Proof.
  split.
  - apply (proj1 (proj2 (malformed_lines_change_nothing app_vm1 1%nat session_vm1
                           "ADD_VM vm1 2048 two d1:100
" "ADD_VM" eq_refl))
             0%nat "vm1" "2048" "two" ["d1:100"]); try reflexivity.
    right. reflexivity.
  - apply (proj2 (proj2 (proj2 (malformed_lines_change_nothing app_vm1 1%nat session_vm1
                                  "UPDATE_VM x 5
" "UPDATE_VM" eq_refl)))
             0%nat "x" "5" []); reflexivity.
Defined.

(** ** The disks a line records *)


(** ** Numbers in decimal *)

Section Decimal.

Lemma to_uint_nonnil n : Nat.to_uint n <> Decimal.Nil.
Proof.
  rewrite <- (DecimalNat.Unsigned.of_to n) at 1. rewrite DecimalNat.Unsigned.to_of. apply DecimalFacts.unorm_nonnil.
Qed.

Lemma is_digit_string_of_uint d : all_chars is_digit (DecimalString.NilEmpty.string_of_uint d) = true.
Proof. induction d; simpl; auto. Qed.

Lemma length_string_of_uint d : String.length (DecimalString.NilEmpty.string_of_uint d) = Decimal.nb_digits d.
Proof. induction d; simpl; auto. Qed.

Lemma int_digits_string_of_uint d sep acc n :
  d <> Decimal.Nil \/ sep = false ->
  int_digits (DecimalString.NilEmpty.string_of_uint d) sep (Z.of_nat acc) n =
  Some (Z.of_nat (Nat.of_uint_acc d acc), (n + Decimal.nb_digits d)%nat).
Proof.
  revert sep acc n.
  induction d as [|d IH|d IH|d IH|d IH|d IH|d IH|d IH|d IH|d IH|d IH];
    intros sep acc n Hd.
  - destruct Hd as [Hd| ->]; [now elim Hd|]. simpl. now rewrite Nat.add_0_r.
  - change (int_digits (DecimalString.NilEmpty.string_of_uint (Decimal.D0 d)) sep (Z.of_nat acc) n)
      with (int_digits (DecimalString.NilEmpty.string_of_uint d) false (10 * Z.of_nat acc + 0) (S n)).
    replace (10 * Z.of_nat acc + 0) with (Z.of_nat (Nat.tail_mul 10 acc))
      by (rewrite Nat.tail_mul_spec; lia).
    rewrite IH by auto. simpl. do 2 f_equal. lia.
  - change (int_digits (DecimalString.NilEmpty.string_of_uint (Decimal.D1 d)) sep (Z.of_nat acc) n)
      with (int_digits (DecimalString.NilEmpty.string_of_uint d) false (10 * Z.of_nat acc + 1) (S n)).
    replace (10 * Z.of_nat acc + 1) with (Z.of_nat (1 + Nat.tail_mul 10 acc))
      by (rewrite Nat.tail_mul_spec; lia).
    rewrite IH by auto. simpl. do 2 f_equal. lia.
  - change (int_digits (DecimalString.NilEmpty.string_of_uint (Decimal.D2 d)) sep (Z.of_nat acc) n)
      with (int_digits (DecimalString.NilEmpty.string_of_uint d) false (10 * Z.of_nat acc + 2) (S n)).
    replace (10 * Z.of_nat acc + 2) with (Z.of_nat (2 + Nat.tail_mul 10 acc))
      by (rewrite Nat.tail_mul_spec; lia).
    rewrite IH by auto. simpl. do 2 f_equal. lia.
  - change (int_digits (DecimalString.NilEmpty.string_of_uint (Decimal.D3 d)) sep (Z.of_nat acc) n)
      with (int_digits (DecimalString.NilEmpty.string_of_uint d) false (10 * Z.of_nat acc + 3) (S n)).
    replace (10 * Z.of_nat acc + 3) with (Z.of_nat (3 + Nat.tail_mul 10 acc))
      by (rewrite Nat.tail_mul_spec; lia).
    rewrite IH by auto. simpl. do 2 f_equal. lia.
  - change (int_digits (DecimalString.NilEmpty.string_of_uint (Decimal.D4 d)) sep (Z.of_nat acc) n)
      with (int_digits (DecimalString.NilEmpty.string_of_uint d) false (10 * Z.of_nat acc + 4) (S n)).
    replace (10 * Z.of_nat acc + 4) with (Z.of_nat (4 + Nat.tail_mul 10 acc))
      by (rewrite Nat.tail_mul_spec; lia).
    rewrite IH by auto. simpl. do 2 f_equal. lia.
  - change (int_digits (DecimalString.NilEmpty.string_of_uint (Decimal.D5 d)) sep (Z.of_nat acc) n)
      with (int_digits (DecimalString.NilEmpty.string_of_uint d) false (10 * Z.of_nat acc + 5) (S n)).
    replace (10 * Z.of_nat acc + 5) with (Z.of_nat (5 + Nat.tail_mul 10 acc))
      by (rewrite Nat.tail_mul_spec; lia).
    rewrite IH by auto. simpl. do 2 f_equal. lia.
  - change (int_digits (DecimalString.NilEmpty.string_of_uint (Decimal.D6 d)) sep (Z.of_nat acc) n)
      with (int_digits (DecimalString.NilEmpty.string_of_uint d) false (10 * Z.of_nat acc + 6) (S n)).
    replace (10 * Z.of_nat acc + 6) with (Z.of_nat (6 + Nat.tail_mul 10 acc))
      by (rewrite Nat.tail_mul_spec; lia).
    rewrite IH by auto. simpl. do 2 f_equal. lia.
  - change (int_digits (DecimalString.NilEmpty.string_of_uint (Decimal.D7 d)) sep (Z.of_nat acc) n)
      with (int_digits (DecimalString.NilEmpty.string_of_uint d) false (10 * Z.of_nat acc + 7) (S n)).
    replace (10 * Z.of_nat acc + 7) with (Z.of_nat (7 + Nat.tail_mul 10 acc))
      by (rewrite Nat.tail_mul_spec; lia).
    rewrite IH by auto. simpl. do 2 f_equal. lia.
  - change (int_digits (DecimalString.NilEmpty.string_of_uint (Decimal.D8 d)) sep (Z.of_nat acc) n)
      with (int_digits (DecimalString.NilEmpty.string_of_uint d) false (10 * Z.of_nat acc + 8) (S n)).
    replace (10 * Z.of_nat acc + 8) with (Z.of_nat (8 + Nat.tail_mul 10 acc))
      by (rewrite Nat.tail_mul_spec; lia).
    rewrite IH by auto. simpl. do 2 f_equal. lia.
  - change (int_digits (DecimalString.NilEmpty.string_of_uint (Decimal.D9 d)) sep (Z.of_nat acc) n)
      with (int_digits (DecimalString.NilEmpty.string_of_uint d) false (10 * Z.of_nat acc + 9) (S n)).
    replace (10 * Z.of_nat acc + 9) with (Z.of_nat (9 + Nat.tail_mul 10 acc))
      by (rewrite Nat.tail_mul_spec; lia).
    rewrite IH by auto. simpl. do 2 f_equal. lia.
Qed.

Lemma digit_not_c_space c : is_digit c = true -> c_isspace c = false.
Proof.
  unfold is_digit, c_isspace. intros H. apply andb_prop in H as [H1 H2].
  apply Nat.leb_le in H1. apply Nat.leb_le in H2.
  apply orb_false_iff. split.
  - apply andb_false_iff. right. apply Nat.leb_gt. lia.
  - apply Nat.eqb_neq. lia.
Qed.

Lemma digit_not_space c : is_digit c = true -> py_isspace c = false.
Proof.
  unfold is_digit, py_isspace. intros H. apply andb_prop in H as [H1 H2].
  apply Nat.leb_le in H1. apply Nat.leb_le in H2.
  apply orb_false_iff. split; apply andb_false_iff; right; apply Nat.leb_gt; lia.
Qed.

Lemma digit_not_colon c : is_digit c = true -> Ascii.eqb c ":" = false.
Proof.
  unfold is_digit. intros H. apply andb_prop in H as [H1 H2].
  apply Nat.leb_le in H1. apply Nat.leb_le in H2.
  apply Ascii.eqb_neq. intros ->. change (nat_of_ascii ":") with 58%nat in H2. lia.
Qed.

Lemma rstrip_digits sp s :
  (forall c, is_digit c = true -> sp c = false) ->
  all_chars is_digit s = true -> rstrip sp s = s.
Proof.
  intros Hsp. induction s as [|c s IH]; simpl; [reflexivity|].
  intros H. apply andb_prop in H as [Hc Hs]. rewrite (IH Hs).
  destruct s; [now rewrite (Hsp c Hc) | reflexivity].
Qed.

Lemma lstrip_digits sp s :
  (forall c, is_digit c = true -> sp c = false) ->
  all_chars is_digit s = true -> lstrip sp s = s.
Proof.
  intros Hsp. destruct s as [|c s]; simpl; [reflexivity|].
  intros H. apply andb_prop in H as [Hc _]. now rewrite (Hsp c Hc).
Qed.

End Decimal.

(** Reading back what was printed: for a natural number [n],
    [int(str(n))] is [n] when the decimal form of [n] has at most
    [int_max_str_digits] digits; beyond that limit [int] refuses the text. *)
Theorem py_int_py_str n :
  py_int (py_str n) =
  if (int_max_str_digits <? String.length (py_str n))%nat then None else Some (Z.of_nat n).
Proof.
  unfold py_str.
  pose proof (to_uint_nonnil n) as Hnn.
  pose proof (DecimalNat.Unsigned.of_to n) as Hof. unfold Nat.of_uint in Hof.
  pose proof (int_digits_string_of_uint (Nat.to_uint n) true 0 0 (or_introl Hnn)) as Hd.
  rewrite Hof in Hd. simpl Z.of_nat in Hd at 1. simpl Nat.add in Hd.
  rewrite length_string_of_uint.
  unfold py_int.
  rewrite (lstrip_digits c_isspace), (rstrip_digits c_isspace)
    by (auto using digit_not_c_space, is_digit_string_of_uint).
  destruct (Nat.to_uint n) eqn:E; try (now elim Hnn);
    cbv beta iota zeta; simpl DecimalString.NilEmpty.string_of_uint in *; cbv beta iota;
    rewrite Hd; reflexivity.
Qed.

Example py_int_py_str_50 : py_int (py_str 50) = Some 50.
Proof. reflexivity. Qed.

(** ** The companion client against the handler *)

Section Client.

Lemma tokens_client_line parts :
  Forall (fun t => is_token t = true) parts ->
  tokens (client_line (unwords parts)) = parts.
Proof.
  intros H. rewrite tokens_py_split. unfold client_line, py_split.
  rewrite split_from_newline. now apply py_split_unwords.
Qed.

Lemma all_chars_impl (p q : ascii -> bool) s :
  (forall c, p c = true -> q c = true) -> all_chars p s = true -> all_chars q s = true.
Proof.
  intros Hpq. induction s as [|c s IH]; simpl; [reflexivity|].
  intros H. apply andb_prop in H as [Hc Hs]. now rewrite (Hpq c Hc), IH.
Qed.

Lemma py_str_nonspace n : all_chars (fun c => negb (py_isspace c)) (py_str n) = true.
Proof.
  apply (all_chars_impl is_digit); [|apply is_digit_string_of_uint].
  intros c Hc. now rewrite (digit_not_space c Hc).
Qed.

Lemma no_colon_all_chars s :
  all_chars (fun c => negb (Ascii.eqb c ":")) s = true -> no_colon s = true.
Proof.
  induction s as [|c s IH]; simpl; [reflexivity|].
  intros H. apply andb_prop in H as [Hc Hs]. now rewrite Hc, IH.
Qed.

Lemma py_str_no_colon n : no_colon (py_str n) = true.
Proof.
  apply no_colon_all_chars.
  apply (all_chars_impl is_digit); [|apply is_digit_string_of_uint].
  intros c Hc. now rewrite (digit_not_colon c Hc).
Qed.

Lemma py_str_nonempty n : py_str n <> EmptyString.
Proof.
  unfold py_str. pose proof (to_uint_nonnil n) as H.
  destruct (Nat.to_uint n); try discriminate. now elim H.
Qed.

(** The lines of the client, as words. *)
Lemma auth_template_words pw n :
  Command_value AUTH ++ " vm" ++ py_str n ++ " " ++ pw =
  unwords ["AUTH"; "vm" ++ py_str n; pw].
Proof. simpl. rewrite ?append_assoc_local. reflexivity. Qed.

Lemma add_template_words n :
  Command_value ADD_VM ++ " vm" ++ py_str n ++ " 2048 2 disk1_" ++ py_str n ++ ":100 disk2:200" =
  unwords ["ADD_VM"; "vm" ++ py_str n; "2048"; "2"; "disk1_" ++ py_str n ++ ":100"; "disk2:200"].
Proof. simpl. rewrite ?append_assoc_local. reflexivity. Qed.

Lemma update_template_words n :
  Command_value UPDATE_VM ++ " 4096 4 disk1_" ++ py_str n ++ ":150 disk3:300" =
  unwords ["UPDATE_VM"; "4096"; "4"; "disk1_" ++ py_str n ++ ":150"; "disk3:300"].
Proof. simpl. rewrite ?append_assoc_local. reflexivity. Qed.

Lemma is_token_around pre n suf :
  pre <> EmptyString ->
  all_chars (fun c => negb (py_isspace c)) pre = true ->
  all_chars (fun c => negb (py_isspace c)) suf = true ->
  is_token (pre ++ py_str n ++ suf) = true.
Proof.
  intros Hne Hp Hs. destruct pre as [|c pre]; [now elim Hne|].
  simpl in *. apply andb_prop in Hp as [Hc Hp]. rewrite Hc. simpl.
  now rewrite !all_chars_app, Hp, py_str_nonspace, Hs.
Qed.

Lemma tokens_auth_template pw n :
  is_token pw = true ->
  tokens (client_line (Command_value AUTH ++ " vm" ++ py_str n ++ " " ++ pw)) =
  ["AUTH"; "vm" ++ py_str n; pw].
Proof.
  intros Hpw. rewrite auth_template_words. apply tokens_client_line.
  repeat constructor; auto.
  rewrite <- (append_nil_r_local (py_str n)). now apply is_token_around.
Qed.

Lemma tokens_add_template n :
  tokens (client_line (Command_value ADD_VM ++ " vm" ++ py_str n ++ " 2048 2 disk1_"
                         ++ py_str n ++ ":100 disk2:200")) =
  ["ADD_VM"; "vm" ++ py_str n; "2048"; "2"; "disk1_" ++ py_str n ++ ":100"; "disk2:200"].
Proof.
  rewrite add_template_words. apply tokens_client_line.
  repeat constructor; auto.
  - rewrite <- (append_nil_r_local (py_str n)). now apply is_token_around.
  - now apply is_token_around.
Qed.

Lemma tokens_update_template n :
  tokens (client_line (Command_value UPDATE_VM ++ " 4096 4 disk1_" ++ py_str n
                         ++ ":150 disk3:300")) =
  ["UPDATE_VM"; "4096"; "4"; "disk1_" ++ py_str n ++ ":150"; "disk3:300"].
Proof.
  rewrite update_template_words. apply tokens_client_line.
  repeat constructor; auto. now apply is_token_around.
Qed.

Lemma client_loop_reply a w s cmd rest a' s' r :
  session_step a w s (client_line cmd) = (a', s', Some r) ->
  client_loop a w s (cmd :: rest) =
  let '(a2, s2, rs) := client_loop a' w s' rest in (a2, s2, r :: rs).
Proof. intros H. simpl. now rewrite H. Qed.

End Client.

(** X19. A run of the client that does not draw the AUTH line changes
    nothing on the server: its ADD_VM, UPDATE_VM and LOGOUT are answered with
    not-authenticated lines, its LIST_DISKS with the disk list, and after it
    closes the connection the server is as it was. *)
Theorem client_without_auth a w n coin :
  coin <> 1%nat ->
  auto_tcp_client a w n coin =
  (a, {| current_vm := None; closed := true |},
   [AddNotAuthenticated; NotAuthenticated; JsonDisks (list_all_disks a); NotAuthenticated]).
Proof.
  intros Hcoin. unfold auto_tcp_client, command_templates.
  apply Nat.eqb_neq in Hcoin. rewrite Hcoin. cbv zeta.
  assert (H1 : session_step a w new_session
                 (client_line (Command_value ADD_VM ++ " vm" ++ py_str n ++ " 2048 2 disk1_"
                                 ++ py_str n ++ ":100 disk2:200"))
               = (a, new_session, Some AddNotAuthenticated)).
  { rewrite (session_step_tokens a w new_session _ _ _ eq_refl (tokens_add_template n)).
    reflexivity. }
  assert (H2 : session_step a w new_session
                 (client_line (Command_value UPDATE_VM ++ " 4096 4 disk1_" ++ py_str n
                                 ++ ":150 disk3:300"))
               = (a, new_session, Some NotAuthenticated)).
  { rewrite (session_step_tokens a w new_session _ _ _ eq_refl (tokens_update_template n)).
    reflexivity. }
  rewrite (client_loop_reply _ _ _ _ _ _ _ _ H1), (client_loop_reply _ _ _ _ _ _ _ _ H2).
  reflexivity.
Qed.

Lemma client_without_auth_witness :
  auto_tcp_client app_vm1 2 7 0 =
  (app_vm1, {| current_vm := None; closed := true |},
   [AddNotAuthenticated; NotAuthenticated; JsonDisks (list_all_disks app_vm1);
    NotAuthenticated]).
Proof. apply client_without_auth. discriminate. Defined.

Section ClientAuth.

Lemma assign_last c g l x d f :
  assign (length l) f {| settings := c; connected_vms := g; objects := l ++ [x]; db := d |} =
  {| settings := c; connected_vms := g; objects := l ++ [f x]; db := d |}.
Proof. unfold assign; simpl. now rewrite update_nth_app_last. Qed.

Lemma deref_last c g l x d :
  deref {| settings := c; connected_vms := g; objects := l ++ [x]; db := d |} (length l) = x.
Proof. unfold deref; simpl. rewrite app_nth2, Nat.sub_diag; auto. Qed.

(** ADD_VM, UPDATE_VM and LOGOUT of a session bound to the object allocated
    last, with numbers the store accepts. *)
Lemma handle_ADD_VM_last c g l x d p0 rs cs dtoks ram cpu :
  py_int rs = Some ram -> py_int cs = Some cpu ->
  let x' := set_disks (parse_disks dtoks) (set_cpu cpu (set_ram ram x)) in
  store_accepts x' = true ->
  handle_ADD_VM {| settings := c; connected_vms := g; objects := l ++ [x]; db := d |}
                (Some (length l)) (p0 :: vm_id x :: rs :: cs :: dtoks) =
  Replied {| settings := c; connected_vms := g; objects := l ++ [x'];
             db := add_vm_to_db_store d x' |}
          (Some (length l)) (AddOk (vm_id x)).
Proof.
  intros Hr Hcp x' Hacc.
  assert (E : (length (p0 :: vm_id x :: rs :: cs :: dtoks) <? 4)%nat = false)
    by (apply Nat.ltb_ge; simpl; lia).
  unfold handle_ADD_VM. simpl nth_error. cbv iota.
  rewrite deref_last, String.eqb_refl. simpl negb. cbv iota.
  rewrite E. simpl nth. rewrite Hr, Hcp. simpl skipn. cbv zeta.
  rewrite !assign_last.
  rewrite after_add_vm_to_db_accepted by (rewrite deref_last; exact Hacc).
  unfold add_vm_to_db_done. cbn [settings connected_vms objects db].
  rewrite !deref_last. reflexivity.
Qed.

Lemma handle_UPDATE_VM_last c g l x d p0 rs cs dtoks ram cpu :
  py_int rs = Some ram -> py_int cs = Some cpu -> parse_disks dtoks <> [] ->
  let x' := set_disks (parse_disks dtoks) (set_cpu cpu (set_ram ram x)) in
  store_accepts x' = true ->
  handle_UPDATE_VM {| settings := c; connected_vms := g; objects := l ++ [x]; db := d |}
                   (Some (length l)) (p0 :: rs :: cs :: dtoks) =
  Replied {| settings := c; connected_vms := g; objects := l ++ [x'];
             db := add_vm_to_db_store d x' |}
          (Some (length l)) (UpdateOk (vm_id x)).
Proof.
  intros Hr Hcp Hne x' Hacc.
  assert (E : (length (p0 :: rs :: cs :: dtoks) <? 3)%nat = false)
    by (apply Nat.ltb_ge; simpl; lia).
  unfold handle_UPDATE_VM. rewrite E. simpl nth. rewrite Hr, Hcp. simpl skipn. cbv zeta.
  unfold x' in *. destruct (parse_disks dtoks) as [|dk ds]; [now elim Hne|].
  rewrite !assign_last.
  rewrite after_add_vm_to_db_accepted by (rewrite deref_last; exact Hacc).
  unfold add_vm_to_db_done. cbn [settings connected_vms objects db].
  rewrite !deref_last. reflexivity.
Qed.

Lemma handle_LOGOUT_last c g l x d :
  let x' := set_authorized false x in
  store_accepts x = true ->
  handle_LOGOUT {| settings := c; connected_vms := g; objects := l ++ [x]; db := d |}
                (Some (length l)) =
  Replied {| settings := c; connected_vms := dict_pop (vm_id x) g; objects := l ++ [x'];
             db := add_vm_to_db_store d x' |}
          None (LogoutOk (vm_id x)).
Proof.
  intros x' Hacc. unfold handle_LOGOUT. cbv zeta. rewrite assign_last.
  rewrite after_add_vm_to_db_accepted by (rewrite deref_last; exact Hacc).
  unfold add_vm_to_db_done, with_connected.
  cbn [settings connected_vms objects db]. rewrite !deref_last. reflexivity.
Qed.

Lemma no_colon_app s t : no_colon (s ++ t) = no_colon s && no_colon t.
Proof. induction s as [|c s IH]; simpl; [reflexivity|]. now rewrite IH, andb_assoc. Qed.

Lemma disk_of_token_template pre n cap c :
  no_colon pre = true -> py_int cap = Some c ->
  disk_of_token (pre ++ py_str n ++ String ":" cap) = [(pre ++ py_str n, c)].
Proof.
  intros Hp Hc. apply well_formed_disk_iff.
  rewrite <- append_assoc_local. apply (wf_disk (pre ++ py_str n) cap c); [|exact Hc].
  now rewrite no_colon_app, Hp, py_str_no_colon.
Qed.

Lemma find_upsert_disks_other id ds t d :
  ~ In d (map fst ds) ->
  find (fun r => disk_id r == d) (upsert_disks id ds t) = find (fun r => disk_id r == d) t.
Proof.
  unfold upsert_disks. revert t. induction ds as [|[d0 c0] ds IH]; intros t Hnin; simpl.
  - reflexivity.
  - rewrite IH by (intros H; apply Hnin; simpl; auto).
    apply find_upsert_disk_other. simpl. intros ->. apply Hnin. simpl. auto.
Qed.

Lemma in_upsert_disk_iff row t d :
  In d (upsert_disk row t) <-> d = row \/ (In d t /\ disk_id d <> disk_id row).
Proof.
  unfold upsert_disk. rewrite in_app_iff, filter_In, negb_true_iff, String.eqb_neq.
  simpl. intuition.
Qed.

(** The row LIST_DISKS shows for a disk whose owner has a machine row. *)
Lemma in_list_all_disks a row :
  In row (disks_table (db a)) ->
  In (disk_vm_id row) (map row_vm_id (virtual_machines (db a))) ->
  In {| j_disk := row; vm_associated := Some (disk_vm_id row) |} (list_all_disks a).
Proof.
  intros Hin Hm. unfold list_all_disks. apply in_map_iff. exists row. split; [|exact Hin].
  destruct (find_machine_in _ _ Hm) as (v & -> & ->). reflexivity.
Qed.

End ClientAuth.

(** X20. A run of the client that draws the AUTH line, on a connection [w]
    of a server whose password holds no white space: the five commands are
    confirmed in turn.  The reply to LIST_DISKS holds, in some order, the
    three disks disk1_n (150), disk2 (200) and disk3 (300) with the new
    machine as owner, and besides them only disks the store had before.
    After the client closes the connection the new machine object has ram
    4096, cpu 4, the disks of the UPDATE_VM line and [authorized] cleared,
    the registry entry of its id is gone, and the store has its row with
    [authorized] false and the three disks owned by it. *)
Theorem client_with_auth a w n :
  is_token (auth_password (settings a)) = true ->
  let id := "vm" ++ py_str n in
  let disk1 := "disk1_" ++ py_str n in
  let r := length (objects a) in
  let vm4 := {| vm_id := id; ram := 4096; cpu := 4;
                disks := [(disk1, 150); ("disk3", 300)]; authorized := false;
                writer := w |} in
  let shown d c := {| j_disk := {| disk_id := d; capacity := c; disk_vm_id := id |};
                      vm_associated := Some id |} in
  exists final rows,
    auto_tcp_client a w n 1 =
      (final, {| current_vm := None; closed := true |},
       [AuthOk id; AddOk id; UpdateOk id; JsonDisks rows; LogoutOk id]) /\
    In (shown disk1 150) rows /\ In (shown "disk2" 200) rows /\
    In (shown "disk3" 300) rows /\
    (forall j, In j rows ->
               In j [shown disk1 150; shown "disk2" 200; shown "disk3" 300] \/
               In (j_disk j) (disks_table (db a))) /\
    objects final = (objects a ++ [vm4])%list /\
    connected_vms final = dict_pop id (dict_set id r (connected_vms a)) /\
    find (fun v => row_vm_id v == id) (list_all_vms final) =
      Some {| row_vm_id := id; row_ram := 4096; row_cpu := 4; row_authorized := false |} /\
    find (fun x => disk_id x == disk1) (disks_table (db final)) =
      Some {| disk_id := disk1; capacity := 150; disk_vm_id := id |} /\
    find (fun x => disk_id x == "disk2") (disks_table (db final)) =
      Some {| disk_id := "disk2"; capacity := 200; disk_vm_id := id |} /\
    find (fun x => disk_id x == "disk3") (disks_table (db final)) =
      Some {| disk_id := "disk3"; capacity := 300; disk_vm_id := id |}.
Proof.
  intros Hpw id disk1 r vm4 shown.
  set (vm0 := {| vm_id := id; ram := 0; cpu := 0; disks := []; authorized := true;
                 writer := w |}).
  set (vm2 := {| vm_id := id; ram := 2048; cpu := 2;
                 disks := [(disk1, 100); ("disk2", 200)]; authorized := true;
                 writer := w |}).
  set (vm3 := {| vm_id := id; ram := 4096; cpu := 4;
                 disks := [(disk1, 150); ("disk3", 300)]; authorized := true;
                 writer := w |}).
  set (store3 :=
         add_vm_to_db_store (add_vm_to_db_store (add_vm_to_db_store (db a) vm0) vm2) vm3).
  set (a3 := {| settings := settings a; connected_vms := dict_set id r (connected_vms a);
                objects := objects a ++ [vm3]; db := store3 |}).
  set (final := {| settings := settings a;
                   connected_vms := dict_pop id (dict_set id r (connected_vms a));
                   objects := objects a ++ [vm4];
                   db := add_vm_to_db_store store3 vm4 |}).
  assert (Hd1 : disk1 <> "disk2") by (unfold disk1; simpl; discriminate).
  assert (Hd3 : disk1 <> "disk3") by (unfold disk1; simpl; discriminate).
  assert (Hm3 : In id (map row_vm_id (virtual_machines (db a3)))).
  { simpl. apply in_keys_upsert_machine. now left. }
  assert (Hf1 : find (fun x => disk_id x == disk1) (disks_table store3) =
                Some {| disk_id := disk1; capacity := 150; disk_vm_id := id |}).
  { unfold store3. rewrite disks_table_add_vm_to_db.
    apply (find_upsert_disks_last id [] disk1 150 [("disk3", 300)]).
    simpl. intros [H|[]]. now apply Hd3. }
  assert (Hf2 : find (fun x => disk_id x == "disk2") (disks_table store3) =
                Some {| disk_id := "disk2"; capacity := 200; disk_vm_id := id |}).
  { unfold store3. rewrite disks_table_add_vm_to_db.
    rewrite find_upsert_disks_other
      by (simpl; intros [H|[H|[]]]; [now apply Hd1 | discriminate]).
    rewrite disks_table_add_vm_to_db.
    apply (find_upsert_disks_last id [(disk1, 100)] "disk2" 200 []).
    intros []. }
  assert (Hf3 : find (fun x => disk_id x == "disk3") (disks_table store3) =
                Some {| disk_id := "disk3"; capacity := 300; disk_vm_id := id |}).
  { unfold store3. rewrite disks_table_add_vm_to_db.
    apply (find_upsert_disks_last id [(disk1, 150)] "disk3" 300 []).
    intros []. }
  assert (Hshown : forall d c,
             find (fun x => disk_id x == d) (disks_table store3) =
             Some {| disk_id := d; capacity := c; disk_vm_id := id |} ->
             In (shown d c) (list_all_disks a3)).
  { intros d c Hf. apply find_some in Hf as [Hin _].
    apply (in_list_all_disks a3 {| disk_id := d; capacity := c; disk_vm_id := id |});
      assumption. }
  exists final, (list_all_disks a3).
  split; [|split; [|split; [|split; [|split; [|split; [|split; [|split; [|split; [|split]]]]]]]]].
  - unfold auto_tcp_client, command_templates. simpl Nat.eqb. cbv iota zeta.
    set (a1 := {| settings := settings a; connected_vms := dict_set id r (connected_vms a);
                  objects := objects a ++ [vm0]; db := add_vm_to_db_store (db a) vm0 |}).
    set (a2 := {| settings := settings a; connected_vms := dict_set id r (connected_vms a);
                  objects := objects a ++ [vm2];
                  db := add_vm_to_db_store (add_vm_to_db_store (db a) vm0) vm2 |}).
    set (s1 := {| current_vm := Some r; closed := false |}).
    assert (H1 : session_step a w new_session
                   (client_line (Command_value AUTH ++ " vm" ++ py_str n ++ " "
                                   ++ auth_password (settings a)))
                 = (a1, s1, Some (AuthOk id))).
    { rewrite (session_step_tokens a w new_session _ _ _ eq_refl
                 (tokens_auth_template _ n Hpw)).
      dispatch (eq_refl : Command_of_value (py_upper "AUTH") = Some AUTH).
      change (current_vm new_session) with (@None ref).
      now rewrite (handle_AUTH_fresh a w "AUTH" ("vm" ++ py_str n)
                     (auth_password (settings a)) [] eq_refl). }
    assert (H2 : session_step a1 w s1
                   (client_line (Command_value ADD_VM ++ " vm" ++ py_str n
                                   ++ " 2048 2 disk1_" ++ py_str n ++ ":100 disk2:200"))
                 = (a2, s1, Some (AddOk id))).
    { rewrite (session_step_tokens a1 w s1 _ _ _ eq_refl (tokens_add_template n)).
      dispatch (eq_refl : Command_of_value (py_upper "ADD_VM") = Some ADD_VM).
      change (current_vm s1) with (Some (length (objects a))).
      change ("vm" ++ py_str n) with (vm_id vm0) at 1.
      unfold a1.
      assert (Hp : parse_disks ["disk1_" ++ py_str n ++ ":100"; "disk2:200"]
                   = [(disk1, 100); ("disk2", 200)]).
      { rewrite parse_disks_cons.
        rewrite (disk_of_token_template "disk1_" n "100" 100 eq_refl eq_refl).
        reflexivity. }
      rewrite (handle_ADD_VM_last _ _ _ vm0 _ "ADD_VM" "2048" "2" _ 2048 2 eq_refl eq_refl)
        by (rewrite Hp; reflexivity).
      cbv zeta. rewrite Hp. reflexivity. }
    assert (H3 : session_step a2 w s1
                   (client_line (Command_value UPDATE_VM ++ " 4096 4 disk1_" ++ py_str n
                                   ++ ":150 disk3:300"))
                 = (a3, s1, Some (UpdateOk id))).
    { rewrite (session_step_tokens a2 w s1 _ _ _ eq_refl (tokens_update_template n)).
      dispatch (eq_refl : Command_of_value (py_upper "UPDATE_VM") = Some UPDATE_VM).
      change (current_vm s1) with (Some (length (objects a))).
      unfold a2.
      assert (Hp : parse_disks ["disk1_" ++ py_str n ++ ":150"; "disk3:300"]
                   = [(disk1, 150); ("disk3", 300)]).
      { rewrite parse_disks_cons.
        rewrite (disk_of_token_template "disk1_" n "150" 150 eq_refl eq_refl).
        reflexivity. }
      rewrite (handle_UPDATE_VM_last _ _ _ vm2 _ "UPDATE_VM" "4096" "4" _ 4096 4
                 eq_refl eq_refl) by (rewrite Hp; (discriminate || reflexivity)).
      cbv zeta. rewrite Hp. reflexivity. }
    assert (H4 : session_step a3 w s1 (client_line (Command_value LIST_DISKS))
                 = (a3, s1, Some (JsonDisks (list_all_disks a3)))) by reflexivity.
    assert (H5 : session_step a3 w s1 (client_line (Command_value LOGOUT))
                 = (final, {| current_vm := None; closed := false |}, Some (LogoutOk id))).
    { rewrite (session_step_tokens a3 w s1 (client_line (Command_value LOGOUT))
                 "LOGOUT" [] eq_refl eq_refl).
      dispatch (eq_refl : Command_of_value (py_upper "LOGOUT") = Some LOGOUT).
      change (current_vm s1) with (Some (length (objects a))).
      unfold a3. now rewrite (handle_LOGOUT_last _ _ _ vm3) by reflexivity. }
    rewrite (client_loop_reply _ _ _ _ _ _ _ _ H1), (client_loop_reply _ _ _ _ _ _ _ _ H2),
      (client_loop_reply _ _ _ _ _ _ _ _ H3), (client_loop_reply _ _ _ _ _ _ _ _ H4),
      (client_loop_reply _ _ _ _ _ _ _ _ H5).
    reflexivity.
  - now apply Hshown.
  - now apply Hshown.
  - now apply Hshown.
  - intros j Hj. unfold list_all_disks in Hj. apply in_map_iff in Hj as (d & <- & Hd).
    assert (Hfind : find (fun v => row_vm_id v == id) (virtual_machines (db a3)) =
                    Some {| row_vm_id := id; row_ram := 4096; row_cpu := 4;
                            row_authorized := true |}).
    { apply (find_upsert_machine
               {| row_vm_id := id; row_ram := 4096; row_cpu := 4; row_authorized := true |}). }
    change (disks_table (db a3)) with
      (upsert_disk {| disk_id := "disk3"; capacity := 300; disk_vm_id := id |}
         (upsert_disk {| disk_id := disk1; capacity := 150; disk_vm_id := id |}
            (upsert_disk {| disk_id := "disk2"; capacity := 200; disk_vm_id := id |}
               (upsert_disk {| disk_id := disk1; capacity := 100; disk_vm_id := id |}
                  (disks_table (db a)))))) in Hd.
    apply in_upsert_disk_iff in Hd as [->|[Hd _]];
      [left; right; right; left; unfold shown; cbn [disk_vm_id]; now rewrite Hfind|].
    apply in_upsert_disk_iff in Hd as [->|[Hd Hn1]];
      [left; left; unfold shown; cbn [disk_vm_id]; now rewrite Hfind|].
    apply in_upsert_disk_iff in Hd as [->|[Hd _]];
      [left; right; left; unfold shown; cbn [disk_vm_id]; now rewrite Hfind|].
    apply in_upsert_disk_iff in Hd as [->|[Hd _]]; [now elim Hn1|].
    right. exact Hd.
  - reflexivity.
  - reflexivity.
  - unfold list_all_vms, final. simpl db. simpl virtual_machines.
    apply (find_upsert_machine
             {| row_vm_id := id; row_ram := 4096; row_cpu := 4; row_authorized := false |}).
  - unfold final. simpl db. rewrite disks_table_add_vm_to_db.
    apply (find_upsert_disks_last id [] disk1 150 [("disk3", 300)]).
    simpl. intros [H|[]]. now apply Hd3.
  - unfold final. simpl db. rewrite disks_table_add_vm_to_db.
    rewrite find_upsert_disks_other
      by (simpl; intros [H|[H|[]]]; [now apply Hd1 | discriminate]).
    exact Hf2.
  - unfold final. simpl db. rewrite disks_table_add_vm_to_db.
    apply (find_upsert_disks_last id [(disk1, 150)] "disk3" 300 []).
    intros [].
Qed.

Lemma client_with_auth_witness :
  exists final rows,
    auto_tcp_client (ServerApp_init default_settings empty_store) 1 7 1 =
      (final, {| current_vm := None; closed := true |},
       [AuthOk "vm7"; AddOk "vm7"; UpdateOk "vm7"; JsonDisks rows; LogoutOk "vm7"]) /\
    In {| j_disk := {| disk_id := "disk2"; capacity := 200; disk_vm_id := "vm7" |};
          vm_associated := Some "vm7" |} rows /\
    find (fun v => row_vm_id v == "vm7") (list_all_vms final) =
      Some {| row_vm_id := "vm7"; row_ram := 4096; row_cpu := 4; row_authorized := false |}.
Proof.
  destruct (client_with_auth (ServerApp_init default_settings empty_store) 1%nat 7%nat
              eq_refl)
    as (final & rows & H1 & _ & H2 & _ & _ & _ & _ & H3 & _).
  exists final, rows. repeat split; assumption.
Defined.

(** ** End of input, in general *)

Section Disconnect.

Lemma dict_get_pop_other {V} (k k' : string) (d : list (string * V)) :
  k' <> k -> dict_get k' (dict_pop k d) = dict_get k' d.
Proof.
  intros Hne. induction d as [|[k0 v0] t IH]; simpl; [reflexivity|].
  destruct (k0 == k) eqn:E; simpl.
  - apply String.eqb_eq in E; subst k0.
    assert (H : (k == k') = false) by (apply String.eqb_neq; congruence).
    now rewrite H.
  - now rewrite IH.
Qed.

End Disconnect.

(** X21. End of input on an open session closes it and writes no reply.
    Objects and store are untouched (the [authorized] flag in memory and in
    the store stays as it was), and the registry loses at most the entry
    filed under the bound machine's id: the entry of every other id stays,
    and the registry of an unbound session is unchanged. *)
Theorem disconnect_effects a w s :
  closed s = false ->
  exists a',
    session_step a w s EOF = (a', {| current_vm := current_vm s; closed := true |}, None) /\
    objects a' = objects a /\ db a' = db a /\
    match current_vm s with
    | Some r =>
        (forall k, k <> vm_id (deref a r) ->
                   dict_get k (connected_vms a') = dict_get k (connected_vms a)) /\
        (registry_ok a -> dict_get (vm_id (deref a r)) (connected_vms a') = None)
    | None => connected_vms a' = connected_vms a
    end.
Proof.
  intros Hc. exists (finally_block a (current_vm s)).
  split; [now apply session_step_EOF|].
  destruct (current_vm s) as [r|]; simpl; repeat split; auto.
  - intros k Hk. now apply dict_get_pop_other.
  - apply dict_get_pop_same.
Qed.

Lemma disconnect_effects_witness :
  exists a',
    session_step app_vm1 1 session_vm1 EOF =
      (a', {| current_vm := Some 0%nat; closed := true |}, None) /\
    objects a' = objects app_vm1 /\ db a' = db app_vm1.
Proof.
  destruct (disconnect_effects app_vm1 1%nat session_vm1 eq_refl) as (a' & H1 & H2 & H3 & _).
  exists a'. repeat split; assumption.
Defined.

(** ** LOGOUT writes the disks again *)

(** X22. LOGOUT upserts the machine with its whole disk list, so it takes
    back every disk of that list: after the LOGOUT of a session bound to a
    machine whose ram, cpu and capacities are within the 32 bits of the
    store's columns, the row of a disk id in the machine's list carries the
    capacity of its last entry there and this machine as owner, even if
    another machine had become the owner of that disk id in the meantime. *)
Theorem logout_retakes_disks a w s r data p0 rest l1 d c l2 :
  valid_ref a r -> closed s = false -> current_vm s = Some r ->
  tokens data = p0 :: rest ->
  Command_of_value (py_upper p0) = Some LOGOUT ->
  store_accepts (deref a r) = true ->
  disks (deref a r) = (l1 ++ (d, c) :: l2)%list -> ~ In d (map fst l2) ->
  find (fun x => disk_id x == d) (disks_table (db (fst (fst (session_step a w s data))))) =
  Some {| disk_id := d; capacity := c; disk_vm_id := vm_id (deref a r) |}.
Proof.
  intros Hv Hc Hcur Ht Hcmd Hacc Hds Hnin. by_tokens Hc Ht Hcmd.
  rewrite Hcur, (handle_LOGOUT_bound a r Hv Hacc). simpl fst.
  unfold with_connected, add_vm_to_db_done. cbn [db].
  rewrite disks_table_add_vm_to_db, deref_assign_same by assumption.
  cbn [vm_id disks set_authorized]. rewrite Hds.
  now apply find_upsert_disks_last.
Qed.

Lemma logout_retakes_disks_witness :
  let a1 := fst (fst (session_step app_vm1 1 session_vm1 "ADD_VM vm1 1 1 dX:10
")) in
  let a2 := fst (fst (session_step a1 2 new_session "AUTH vm2 secret
")) in
  let a3 := fst (fst (session_step a2 2 {| current_vm := Some 1%nat; closed := false |}
                        "ADD_VM vm2 1 1 dX:20
")) in
  find (fun x => disk_id x == "dX") (disks_table (db a3)) =
    Some {| disk_id := "dX"; capacity := 20; disk_vm_id := "vm2" |} /\
  find (fun x => disk_id x == "dX")
       (disks_table (db (fst (fst (session_step a3 1 session_vm1 "LOGOUT
"))))) =
    Some {| disk_id := "dX"; capacity := 10; disk_vm_id := "vm1" |}.
Proof.
  intros a1 a2 a3. split; [reflexivity|].
  apply (logout_retakes_disks a3 1%nat session_vm1 0%nat "LOGOUT
" "LOGOUT" [] [] "dX" 10 []); try reflexivity.
  - vm_compute. lia.
  - intros [].
Defined.

(** ** Sending a line twice *)

Section Idempotence.

Lemma upsert_machine_idem row t :
  upsert_machine row (upsert_machine row t) = upsert_machine row t.
Proof. apply (replace_idem row_vm_id). Qed.

(** The row of a declared disk id does not depend on the table before. *)
Lemma find_upsert_disks_declared id ds d :
  In d (map fst ds) ->
  exists c, forall t,
      find (fun x => disk_id x == d) (upsert_disks id ds t) =
      Some {| disk_id := d; capacity := c; disk_vm_id := id |}.
Proof.
  induction ds as [|[d0 c0] ds IH]; simpl; [intros []|].
  intros Hin. destruct (in_dec string_dec d (map fst ds)) as [Hd|Hd].
  - destruct (IH Hd) as (c & Hc). exists c. intros t. apply Hc.
  - destruct Hin as [->|Hin]; [|contradiction].
    exists c0. intros t.
    change (upsert_disks id ((d, c0) :: ds) t)
      with (upsert_disks id ds
              (upsert_disk {| disk_id := d; capacity := c0; disk_vm_id := id |} t)).
    rewrite find_upsert_disks_other by assumption.
    apply (find_upsert_disk_same {| disk_id := d; capacity := c0; disk_vm_id := id |}).
Qed.

Lemma find_upsert_disks_idem id ds t d :
  find (fun x => disk_id x == d) (upsert_disks id ds (upsert_disks id ds t)) =
  find (fun x => disk_id x == d) (upsert_disks id ds t).
Proof.
  destruct (in_dec string_dec d (map fst ds)) as [Hd|Hd].
  - destruct (find_upsert_disks_declared id ds d Hd) as (c & Hc). now rewrite !Hc.
  - now rewrite find_upsert_disks_other.
Qed.

(** A successful ADD_VM, as the state it builds. *)
Lemma handle_ADD_VM_state a r p0 rs cs dtoks ram cpu :
  valid_ref a r ->
  py_int rs = Some ram -> py_int cs = Some cpu ->
  int32 ram = true -> int32 cpu = true ->
  forallb (fun disk => int32 (snd disk)) (parse_disks dtoks) = true ->
  handle_ADD_VM a (Some r) (p0 :: vm_id (deref a r) :: rs :: cs :: dtoks) =
  Replied (add_vm_to_db_done
             (assign r (set_disks (parse_disks dtoks))
                (assign r (set_cpu cpu) (assign r (set_ram ram) a))) r)
          (Some r) (AddOk (vm_id (deref a r))).
Proof.
  intros Hv Hr Hcp Hir Hic Hids.
  assert (E : (length (p0 :: vm_id (deref a r) :: rs :: cs :: dtoks) <? 4)%nat = false)
    by (apply Nat.ltb_ge; simpl; lia).
  unfold handle_ADD_VM. simpl nth_error. cbv iota.
  rewrite String.eqb_refl. simpl negb. cbv iota.
  rewrite E. simpl nth. rewrite Hr, Hcp. simpl skipn. cbv zeta.
  rewrite after_add_vm_to_db_accepted.
  2:{ rewrite deref_assign3 by assumption. unfold store_accepts. simpl.
      now rewrite Hir, Hic, Hids. }
  rewrite deref_add_vm_to_db, !vm_id_assign by reflexivity. reflexivity.
Qed.

Lemma objects_ext a a' :
  length (objects a') = length (objects a) ->
  (forall k, deref a' k = deref a k) -> objects a' = objects a.
Proof.
  intros Hlen Hd. apply (nth_ext _ _ null_vm null_vm); [exact Hlen|].
  intros k _. apply Hd.
Qed.

End Idempotence.

(** X23. ADD_VM is idempotent on what the model holds: an ADD_VM line that
    names the bound machine, with ram, cpu and capacities that are integers
    within the 32 bits of the store's columns, is confirmed, and sent a
    second time it is confirmed again and leaves session, registry and
    objects exactly as after the first time; every lookup of a machine row
    by id gives the same [ram], [cpu] and [authorized], and every lookup of a
    disk row by disk id gives the same row.  (The column [last_seen], which
    each upsert sets to the time of the statement, is not part of
    [MachineRow].) *)
Theorem add_vm_twice a w s r data p0 id rs cs dtoks ram cpu :
  valid_ref a r -> closed s = false -> current_vm s = Some r ->
  tokens data = p0 :: id :: rs :: cs :: dtoks ->
  Command_of_value (py_upper p0) = Some ADD_VM ->
  id = vm_id (deref a r) -> py_int rs = Some ram -> py_int cs = Some cpu ->
  int32 ram = true -> int32 cpu = true ->
  forallb (fun disk => int32 (snd disk)) (parse_disks dtoks) = true ->
  let '(a1, s1, reply1) := session_step a w s data in
  let '(a2, s2, reply2) := session_step a1 w s1 data in
  reply1 = Some (AddOk id) /\ reply2 = Some (AddOk id) /\ s1 = s /\ s2 = s /\
  connected_vms a2 = connected_vms a1 /\
  objects a2 = objects a1 /\
  (forall k v,
     find (fun x => row_vm_id x == k) (list_all_vms a1) = Some v ->
     exists v', find (fun x => row_vm_id x == k) (list_all_vms a2) = Some v' /\
                row_ram v' = row_ram v /\ row_cpu v' = row_cpu v /\
                row_authorized v' = row_authorized v) /\
  (forall d, find (fun x => disk_id x == d) (disks_table (db a2)) =
             find (fun x => disk_id x == d) (disks_table (db a1))).
Proof.
  intros Hv Hc Hcur Ht Hcmd -> Hr Hcp Hir Hic Hids.
  set (F := fun x => set_disks (parse_disks dtoks) (set_cpu cpu (set_ram ram x))).
  set (a1 := add_vm_to_db_done
               (assign r (set_disks (parse_disks dtoks))
                  (assign r (set_cpu cpu) (assign r (set_ram ram) a))) r).
  assert (Hd1 : deref a1 r = F (deref a r)).
  { unfold a1. rewrite deref_add_vm_to_db. now apply deref_assign3. }
  assert (Hv1 : valid_ref a1 r).
  { unfold a1, add_vm_to_db_done, valid_ref. simpl. now rewrite !update_nth_length. }
  assert (Hid1 : vm_id (deref a1 r) = vm_id (deref a r)) by (now rewrite Hd1).
  assert (H1 : session_step a w s data = (a1, s, Some (AddOk (vm_id (deref a r))))).
  { by_tokens Hc Ht Hcmd.
    rewrite Hcur, (handle_ADD_VM_state a r p0 rs cs dtoks ram cpu Hv Hr Hcp Hir Hic Hids).
    fold a1. now rewrite (session_eta s (Some r)). }
  set (a2 := add_vm_to_db_done
               (assign r (set_disks (parse_disks dtoks))
                  (assign r (set_cpu cpu) (assign r (set_ram ram) a1))) r).
  assert (H2 : session_step a1 w s data = (a2, s, Some (AddOk (vm_id (deref a r))))).
  { by_tokens Hc Ht Hcmd. rewrite Hcur, <- Hid1.
    rewrite (handle_ADD_VM_state a1 r p0 rs cs dtoks ram cpu Hv1 Hr Hcp Hir Hic Hids).
    fold a2. now rewrite (session_eta s (Some r)). }
  assert (Hd2 : deref a2 r = deref a1 r).
  { unfold a2. rewrite deref_add_vm_to_db, deref_assign3 by assumption.
    rewrite Hd1. reflexivity. }
  rewrite H1, H2. repeat split.
  - apply objects_ext.
    + unfold a2, add_vm_to_db_done. simpl. now rewrite !update_nth_length.
    + intros k. destruct (Nat.eq_dec k r) as [->|Hk]; [exact Hd2|].
      unfold a2. rewrite deref_add_vm_to_db, !deref_assign_other by assumption.
      reflexivity.
  - intros k v Hf. exists v. repeat split. rewrite <- Hf. unfold list_all_vms. f_equal.
    change (db a2) with (add_vm_to_db_store (db a1) (deref a2 r)). rewrite Hd2.
    change (db a1) with (add_vm_to_db_store (db a) (deref a1 r)).
    simpl. apply upsert_machine_idem.
  - intros d.
    change (db a2) with (add_vm_to_db_store (db a1) (deref a2 r)). rewrite Hd2.
    change (db a1) with (add_vm_to_db_store (db a) (deref a1 r)).
    rewrite !disks_table_add_vm_to_db. apply find_upsert_disks_idem.
Qed.

Lemma add_vm_twice_witness :
  let '(a1, s1, reply1) := session_step app_vm1 1 session_vm1 "ADD_VM vm1 8 2 d:1 d:2 e:3
" in
  let '(a2, s2, reply2) := session_step a1 1 s1 "ADD_VM vm1 8 2 d:1 d:2 e:3
" in
  reply2 = Some (AddOk "vm1") /\ objects a2 = objects a1.
Proof.
  pose proof (add_vm_twice app_vm1 1%nat session_vm1 0%nat "ADD_VM vm1 8 2 d:1 d:2 e:3
" "ADD_VM" "vm1" "8" "2" ["d:1"; "d:2"; "e:3"] 8 2 ltac:(vm_compute; lia)
                eq_refl eq_refl eq_refl eq_refl eq_refl eq_refl eq_refl
                eq_refl eq_refl eq_refl) as H.
  destruct (session_step app_vm1 1 session_vm1 "ADD_VM vm1 8 2 d:1 d:2 e:3
") as [[a1 s1] reply1].
  destruct (session_step a1 1 s1 "ADD_VM vm1 8 2 d:1 d:2 e:3
") as [[a2 s2] reply2].
  destruct H as (_ & H2 & _ & _ & _ & H6 & _). split; assumption.
Defined.

(** ** The range of the store's columns *)

Section Range.






(** A capacity the column refuses, on the second disk of the line: the
    machine row and the first disk are written, the second disk is not, no
    reply is written and the session is over. *)
Example refused_capacity_evaluated :
  let '(a', s', reply) := session_step app_vm1 1 session_vm1 "UPDATE_VM 7 7 d1:5 d2:4294967296
" in
  reply = None /\ closed s' = true /\
  list_all_vms a' =
    [{| row_vm_id := "vm1"; row_ram := 7; row_cpu := 7; row_authorized := true |}] /\
  disks_table (db a') = [{| disk_id := "d1"; capacity := 5; disk_vm_id := "vm1" |}] /\
  disks (deref a' 0%nat) = [("d1", 5); ("d2", 4294967296)] /\
  list_connected_vms a' = [].
Proof. vm_compute. repeat split; reflexivity. Qed.

End Range.


